(** * NEXUS-402: PaymentRouter and WorkflowEngine

    A shallow embedding of the two Solidity contracts
    [contracts/src/PaymentRouter.sol] and [WorkflowEngine.sol], and the
    properties of the payment orchestrator and of the workflow graph
    executor that are checked against them.

    Conventions of the embedding.
    - [uint256], [address] and [bytes32] values are binary naturals [N].
      Solidity 0.8 arithmetic is checked: [+], [-], [*] revert with
      [Panic(0x11)] outside [0, 2^256), [/] reverts with [Panic(0x12)] on a
      zero divisor.  The checks are written out ([checked_add], ...).
    - A transaction either returns [Ok] with the new contract state or
      [Fail]s; a failed transaction leaves the previous state in force (the
      EVM rolls every write back), so the functions return no state on
      failure.
    - A Solidity [mapping] is total, with the zero value of its value type
      at keys never written; it is a [gmap] read through [default].
    - The token, the agent registry and the targets of low-level calls are
      other contracts.  They are reached through the interface [Chain], whose
      functions return the state of those other contracts only.  The
      functions of the router and [executeWorkflow] are [nonReentrant]; the
      token and the registry are taken not to call back.  [createWorkflow]
      and [deactivateWorkflow] are not [nonReentrant]: the target of a
      CUSTOM step whose call succeeds could call them while the workflow
      runs.  The embedding does not follow such a call; the statements about
      a whole run that it would affect are made for runs in which no call of
      a CUSTOM step succeeds (a call that fails is rolled back with all it
      did). *)

From Stdlib Require Import NArith Lia List String Bool.
From stdpp Require Import base option list gmap strings.

Local Open Scope N_scope.

(** ** Values *)

Abbreviation address := N (only parsing).
Abbreviation bytes32 := N (only parsing).
Abbreviation uint256 := N (only parsing).
Abbreviation bytes := (list Byte.byte) (only parsing).

Definition MAX_UINT256 : N := 2 ^ 256 - 1.
Definition MAX_ADDRESS : N := 2 ^ 160 - 1.

(** ** Failure and the transaction monad *)

Inductive failure : Type :=
| Error (reason : string)   (* require(cond, reason) *)
| Panic (code : N)          (* checked arithmetic, array bounds *)
| Revert                    (* a revert without reason string: a failed
                               external call bubbling up, abi.decode *)
| OutOfGas.

Inductive result (A : Type) : Type :=
| Ok (a : A)
| Fail (f : failure).

Arguments Ok {A} a.
Arguments Fail {A} f.

Definition bind {A B : Type} (r : result A) (k : A -> result B) : result B :=
  match r with
  | Ok a => k a
  | Fail f => Fail f
  end.

Notation "x <- r ;; k" := (bind r (fun x => k))
  (at level 100, r at next level, right associativity).
Notation "r ;;; k" := (bind r (fun _ => k))
  (at level 100, right associativity).

Definition require (cond : bool) (reason : string) : result unit :=
  if cond then Ok tt else Fail (Error reason).

Definition is_ok {A : Type} (r : result A) : bool :=
  match r with Ok _ => true | Fail _ => false end.

Definition checked_add (a b : N) : result N :=
  if a + b <=? MAX_UINT256 then Ok (a + b) else Fail (Panic 17).

Definition checked_sub (a b : N) : result N :=
  if b <=? a then Ok (a - b) else Fail (Panic 17).

Definition checked_mul (a b : N) : result N :=
  if a * b <=? MAX_UINT256 then Ok (a * b) else Fail (Panic 17).

Definition checked_div (a b : N) : result N :=
  if b =? 0 then Fail (Panic 18) else Ok (a / b).

(** ** ABI decoding of static tuples

    [abi.decode(data, (address, uint256))], [abi.decode(data, (uint256))]
    and [abi.decode(data, (bool))] read 32-byte big-endian words from the
    head of [data]; they revert when [data] is too short or a word is not a
    value of its type. *)

Fixpoint be_value (bs : bytes) (acc : N) : N :=
  match bs with
  | [] => acc
  | b :: rest => be_value rest (acc * 256 + Byte.to_N b)
  end.

Definition abi_word (data : bytes) (i : nat) : result N :=
  let w := take 32 (drop (32 * i) data) in
  if Nat.eqb (length w) 32 then Ok (be_value w 0) else Fail Revert.

Definition abi_decode_uint256 (data : bytes) : result N :=
  abi_word data 0.

Definition abi_decode_address_uint256 (data : bytes) : result (N * N) :=
  a <- abi_word data 0 ;;
  v <- abi_word data 1 ;;
  if a <=? MAX_ADDRESS then Ok (a, v) else Fail Revert.

Definition abi_decode_bool (data : bytes) : result bool :=
  v <- abi_word data 0 ;;
  if v =? 0 then Ok false else if v =? 1 then Ok true else Fail Revert.

(** [abi.encode] of one word, used to build payloads. *)
Fixpoint be_bytes (n : nat) (v : N) (acc : bytes) : bytes :=
  match n with
  | O => acc
  | S n' =>
      be_bytes n' (v / 256)
        (match Byte.of_N (v mod 256) with Some b => b | None => Byte.x00 end :: acc)
  end.

Definition abi_encode_word (v : N) : bytes := be_bytes 32 v [].

(** ** The other contracts

    [W] is the state of the rest of the chain.  The first argument after the
    state is the [msg.sender] the callee sees, where the callee depends on
    it.  [None] is a call that reverted; the ERC-20 calls otherwise return
    the token's boolean answer. *)

Class Chain (W : Type) : Type := {
  (* IERC20 *)
  erc20_transfer : W -> address -> address -> N -> option (bool * W);
  erc20_transferFrom : W -> address -> address -> address -> N -> option (bool * W);
  erc20_balanceOf : W -> address -> N;
  (* IERC20WithPermit (EIP-3009); the second argument is block.timestamp *)
  erc3009_transferWithAuthorization :
    W -> address -> N -> address -> address -> N -> N -> N -> bytes32 -> bytes -> option W;
  (* INexusRegistry.recordCall *)
  registry_recordCall : W -> address -> N -> bytes32 -> option W;
  (* target.staticcall(data) at block.timestamp: (success, returndata) *)
  evm_staticcall : W -> N -> address -> bytes -> bool * bytes;
  (* target.call{value, gas}(data): (success, new state) *)
  evm_call : W -> address -> N -> address -> N -> N -> bytes -> bool * W
}.

(** SafeERC20: the call must not revert and must not answer [false]. *)
Definition safeTransfer {W} `{Chain W} (w : W) (self to : N) (amount : N) : result W :=
  match erc20_transfer w self to amount with
  | Some (true, w') => Ok w'
  | _ => Fail Revert
  end.

Definition safeTransferFrom {W} `{Chain W} (w : W) (self from to : N) (amount : N)
  : result W :=
  match erc20_transferFrom w self from to amount with
  | Some (true, w') => Ok w'
  | _ => Fail Revert
  end.

(** [keccak256(abi.encodePacked(...))]: the packed items, hashed by an
    unspecified function. *)
Inductive packed : Type :=
| PAddress (a : N)
| PUint (v : N)
| PBytes32 (v : N)
| PString (s : string).

(** ** PaymentRouter: storage layout *)

Module PaymentType.
Inductive t : Type := SIMPLE | SPLIT | STREAMING | CONDITIONAL | ESCROW | RECURRING.

Definition eqb (a b : t) : bool :=
  match a, b with
  | SIMPLE, SIMPLE | SPLIT, SPLIT | STREAMING, STREAMING
  | CONDITIONAL, CONDITIONAL | ESCROW, ESCROW | RECURRING, RECURRING => true
  | _, _ => false
  end.
End PaymentType.

Module Payment.
Record t : Type := mk {
  id : bytes32;
  payer : address;
  paymentType : PaymentType.t;
  totalAmount : uint256;
  releasedAmount : uint256;
  createdAt : uint256;
  completedAt : uint256;
  isCompleted : bool;
  isCancelled : bool
}.

Definition zero : t := mk 0 0 PaymentType.SIMPLE 0 0 0 0 false false.

Definition set_releasedAmount (v : N) (p : t) : t :=
  mk (id p) (payer p) (paymentType p) (totalAmount p) v (createdAt p)
     (completedAt p) (isCompleted p) (isCancelled p).

Definition set_completedAt (v : N) (p : t) : t :=
  mk (id p) (payer p) (paymentType p) (totalAmount p) (releasedAmount p)
     (createdAt p) v (isCompleted p) (isCancelled p).

Definition set_isCompleted (v : bool) (p : t) : t :=
  mk (id p) (payer p) (paymentType p) (totalAmount p) (releasedAmount p)
     (createdAt p) (completedAt p) v (isCancelled p).

Definition set_isCancelled (v : bool) (p : t) : t :=
  mk (id p) (payer p) (paymentType p) (totalAmount p) (releasedAmount p)
     (createdAt p) (completedAt p) (isCompleted p) v.
End Payment.

Module SplitRecipient.
Record t : Type := mk {
  recipient : address;
  basisPoints : uint256   (* out of 10000 *)
}.
End SplitRecipient.

Module StreamingPayment.
Record t : Type := mk {
  paymentId : bytes32;
  recipient : address;
  totalAmount : uint256;
  claimedAmount : uint256;
  startTime : uint256;
  endTime : uint256;
  lastClaimTime : uint256
}.

Definition zero : t := mk 0 0 0 0 0 0 0.

Definition set_claimedAmount (v : N) (s : t) : t :=
  mk (paymentId s) (recipient s) (totalAmount s) v (startTime s) (endTime s)
     (lastClaimTime s).

Definition set_lastClaimTime (v : N) (s : t) : t :=
  mk (paymentId s) (recipient s) (totalAmount s) (claimedAmount s) (startTime s)
     (endTime s) v.
End StreamingPayment.

Module ConditionalPayment.
Record t : Type := mk {
  paymentId : bytes32;
  recipient : address;
  amount : uint256;
  conditionContract : address;
  conditionData : bytes;
  isReleased : bool
}.

Definition zero : t := mk 0 0 0 0 [] false.

Definition set_isReleased (v : bool) (c : t) : t :=
  mk (paymentId c) (recipient c) (amount c) (conditionContract c)
     (conditionData c) v.
End ConditionalPayment.

Module RecurringPayment.
Record t : Type := mk {
  id : bytes32;
  payer : address;
  recipient : address;
  amount : uint256;
  interval : uint256;          (* seconds between payments *)
  nextPaymentTime : uint256;
  totalPayments : uint256;
  completedPayments : uint256;
  isActive : bool
}.

Definition zero : t := mk 0 0 0 0 0 0 0 0 false.

Definition set_nextPaymentTime (v : N) (r : t) : t :=
  mk (id r) (payer r) (recipient r) (amount r) (interval r) v
     (totalPayments r) (completedPayments r) (isActive r).

Definition set_completedPayments (v : N) (r : t) : t :=
  mk (id r) (payer r) (recipient r) (amount r) (interval r) (nextPaymentTime r)
     (totalPayments r) v (isActive r).

Definition set_isActive (v : bool) (r : t) : t :=
  mk (id r) (payer r) (recipient r) (amount r) (interval r) (nextPaymentTime r)
     (totalPayments r) (completedPayments r) v.
End RecurringPayment.

Module Router.
Record t (W : Type) : Type := mk {
  chain : W;
  payments : gmap N Payment.t;
  splitRecipients : gmap N (list SplitRecipient.t);
  streamingPayments : gmap N StreamingPayment.t;
  conditionalPayments : gmap N ConditionalPayment.t;
  recurringPayments : gmap N RecurringPayment.t;
  userPayments : gmap N (list N);
  usedNonces : gmap N bool;
  totalPaymentsProcessed : uint256;
  totalVolumeProcessed : uint256
}.

Arguments mk {W}.
Arguments chain {W}.
Arguments payments {W}.
Arguments splitRecipients {W}.
Arguments streamingPayments {W}.
Arguments conditionalPayments {W}.
Arguments recurringPayments {W}.
Arguments userPayments {W}.
Arguments usedNonces {W}.
Arguments totalPaymentsProcessed {W}.
Arguments totalVolumeProcessed {W}.

Definition set_chain {W} (v : W) (s : t W) : t W :=
  mk v (payments s) (splitRecipients s) (streamingPayments s)
     (conditionalPayments s) (recurringPayments s) (userPayments s)
     (usedNonces s) (totalPaymentsProcessed s) (totalVolumeProcessed s).

Definition set_payments {W} (v : gmap N Payment.t) (s : t W) : t W :=
  mk (chain s) v (splitRecipients s) (streamingPayments s)
     (conditionalPayments s) (recurringPayments s) (userPayments s)
     (usedNonces s) (totalPaymentsProcessed s) (totalVolumeProcessed s).

Definition set_splitRecipients {W} (v : gmap N (list SplitRecipient.t)) (s : t W) : t W :=
  mk (chain s) (payments s) v (streamingPayments s)
     (conditionalPayments s) (recurringPayments s) (userPayments s)
     (usedNonces s) (totalPaymentsProcessed s) (totalVolumeProcessed s).

Definition set_streamingPayments {W} (v : gmap N StreamingPayment.t) (s : t W) : t W :=
  mk (chain s) (payments s) (splitRecipients s) v
     (conditionalPayments s) (recurringPayments s) (userPayments s)
     (usedNonces s) (totalPaymentsProcessed s) (totalVolumeProcessed s).

Definition set_conditionalPayments {W} (v : gmap N ConditionalPayment.t) (s : t W) : t W :=
  mk (chain s) (payments s) (splitRecipients s) (streamingPayments s)
     v (recurringPayments s) (userPayments s)
     (usedNonces s) (totalPaymentsProcessed s) (totalVolumeProcessed s).

Definition set_recurringPayments {W} (v : gmap N RecurringPayment.t) (s : t W) : t W :=
  mk (chain s) (payments s) (splitRecipients s) (streamingPayments s)
     (conditionalPayments s) v (userPayments s)
     (usedNonces s) (totalPaymentsProcessed s) (totalVolumeProcessed s).

Definition set_userPayments {W} (v : gmap N (list N)) (s : t W) : t W :=
  mk (chain s) (payments s) (splitRecipients s) (streamingPayments s)
     (conditionalPayments s) (recurringPayments s) v
     (usedNonces s) (totalPaymentsProcessed s) (totalVolumeProcessed s).

Definition set_usedNonces {W} (v : gmap N bool) (s : t W) : t W :=
  mk (chain s) (payments s) (splitRecipients s) (streamingPayments s)
     (conditionalPayments s) (recurringPayments s) (userPayments s)
     v (totalPaymentsProcessed s) (totalVolumeProcessed s).

Definition set_totalPaymentsProcessed {W} (v : N) (s : t W) : t W :=
  mk (chain s) (payments s) (splitRecipients s) (streamingPayments s)
     (conditionalPayments s) (recurringPayments s) (userPayments s)
     (usedNonces s) v (totalVolumeProcessed s).

Definition set_totalVolumeProcessed {W} (v : N) (s : t W) : t W :=
  mk (chain s) (payments s) (splitRecipients s) (streamingPayments s)
     (conditionalPayments s) (recurringPayments s) (userPayments s)
     (usedNonces s) (totalPaymentsProcessed s) v.

(** Reads of the mappings: the zero value where nothing was written. *)
Definition payment {W} (s : t W) (k : N) : Payment.t :=
  default Payment.zero (payments s !! k).
Definition streaming {W} (s : t W) (k : N) : StreamingPayment.t :=
  default StreamingPayment.zero (streamingPayments s !! k).
Definition conditional {W} (s : t W) (k : N) : ConditionalPayment.t :=
  default ConditionalPayment.zero (conditionalPayments s !! k).
Definition recurring {W} (s : t W) (k : N) : RecurringPayment.t :=
  default RecurringPayment.zero (recurringPayments s !! k).
Definition splits {W} (s : t W) (k : N) : list SplitRecipient.t :=
  default [] (splitRecipients s !! k).
Definition paymentsOf {W} (s : t W) (user : N) : list N :=
  default [] (userPayments s !! user).
Definition nonceUsed {W} (s : t W) (nonce : N) : bool :=
  default false (usedNonces s !! nonce).
End Router.

(** ** PaymentRouter: the public functions

    [self] is [address(this)]; [sender] and [now] are [msg.sender] and
    [block.timestamp] of the transaction. *)

Section PaymentRouter.
Context {W : Type} `{HChain : Chain W}.
Variable self : address.
Variable keccak256 : list packed -> bytes32.

Definition processX402Payment (s : Router.t W) (sender : address) (now : N)
  (from to : address) (value validAfter validBefore : N) (nonce : bytes32)
  (signature : bytes) : result (Router.t W) :=
  require (negb (Router.nonceUsed s nonce)) "Nonce already used" ;;;
  require (validAfter <=? now) "Payment not yet valid" ;;;
  require (now <? validBefore) "Payment expired" ;;;
  let s := Router.set_usedNonces (<[nonce := true]> (Router.usedNonces s)) s in
  w <- match erc3009_transferWithAuthorization (Router.chain s) self now
               from to value validAfter validBefore nonce signature with
       | Some w => Ok w
       | None => Fail Revert
       end ;;
  let s := Router.set_chain w s in
  count <- checked_add (Router.totalPaymentsProcessed s) 1 ;;
  let s := Router.set_totalPaymentsProcessed count s in
  volume <- checked_add (Router.totalVolumeProcessed s) value ;;
  Ok (Router.set_totalVolumeProcessed volume s).

(** The first loop of [createSplitPayment]: every recipient is non-zero, and
    the basis points are added up from [totalBps]. *)
Fixpoint sumBasisPoints (recipients : list SplitRecipient.t) (totalBps : N)
  : result N :=
  match recipients with
  | [] => Ok totalBps
  | r :: rest =>
      require (negb (SplitRecipient.recipient r =? 0)) "Invalid recipient" ;;;
      totalBps <- checked_add totalBps (SplitRecipient.basisPoints r) ;;
      sumBasisPoints rest totalBps
  end.

(** [(totalAmount * recipients[i].basisPoints) / 10000] *)
Definition recipientAmount (totalAmount : N) (r : SplitRecipient.t) : result N :=
  product <- checked_mul totalAmount (SplitRecipient.basisPoints r) ;;
  checked_div product 10000.

(** The second loop: each share is pushed out, in list order. *)
Fixpoint distribute (w : W) (recipients : list SplitRecipient.t) (totalAmount : N)
  : result W :=
  match recipients with
  | [] => Ok w
  | r :: rest =>
      share <- recipientAmount totalAmount r ;;
      w <- safeTransfer w self (SplitRecipient.recipient r) share ;;
      distribute w rest totalAmount
  end.

Definition createSplitPayment (s : Router.t W) (sender : address) (now : N)
  (recipients : list SplitRecipient.t) (totalAmount : N)
  : result (bytes32 * Router.t W) :=
  let count := N.of_nat (length recipients) in
  require ((0 <? count) && (count <=? 20)) "Invalid recipient count" ;;;
  totalBps <- sumBasisPoints recipients 0 ;;
  require (totalBps =? 10000) "Basis points must sum to 10000" ;;;
  let paymentId :=
    keccak256 [PAddress sender; PUint now; PUint totalAmount; PString "SPLIT"] in
  w <- safeTransferFrom (Router.chain s) self sender self totalAmount ;;
  w <- distribute w recipients totalAmount ;;
  let s := Router.set_chain w s in
  let s := Router.set_splitRecipients
             (<[paymentId := Router.splits s paymentId ++ recipients]>
                (Router.splitRecipients s)) s in
  let s := Router.set_payments
             (<[paymentId :=
                  Payment.mk paymentId sender PaymentType.SPLIT totalAmount
                    totalAmount now now true false]> (Router.payments s)) s in
  let s := Router.set_userPayments
             (<[sender := Router.paymentsOf s sender ++ [paymentId]]>
                (Router.userPayments s)) s in
  count <- checked_add (Router.totalPaymentsProcessed s) 1 ;;
  let s := Router.set_totalPaymentsProcessed count s in
  volume <- checked_add (Router.totalVolumeProcessed s) totalAmount ;;
  Ok (paymentId, Router.set_totalVolumeProcessed volume s).

Definition createStreamingPayment (s : Router.t W) (sender : address) (now : N)
  (recipient : address) (totalAmount duration : N)
  : result (bytes32 * Router.t W) :=
  require (negb (recipient =? 0)) "Invalid recipient" ;;;
  require (0 <? totalAmount) "Amount must be positive" ;;;
  require (0 <? duration) "Duration must be positive" ;;;
  let paymentId :=
    keccak256 [PAddress sender; PAddress recipient; PUint now; PString "STREAM"] in
  w <- safeTransferFrom (Router.chain s) self sender self totalAmount ;;
  let s := Router.set_chain w s in
  endTime <- checked_add now duration ;;
  let s := Router.set_streamingPayments
             (<[paymentId :=
                  StreamingPayment.mk paymentId recipient totalAmount 0 now
                    endTime now]> (Router.streamingPayments s)) s in
  let s := Router.set_payments
             (<[paymentId :=
                  Payment.mk paymentId sender PaymentType.STREAMING totalAmount
                    0 now 0 false false]> (Router.payments s)) s in
  Ok (paymentId,
      Router.set_userPayments
        (<[sender := Router.paymentsOf s sender ++ [paymentId]]>
           (Router.userPayments s)) s).

(** [elapsed], [vestedAmount] and [claimable] of [claimStreamingPayment]. *)
Definition streamElapsed (stream : StreamingPayment.t) (now : N) : result N :=
  if StreamingPayment.endTime stream <? now
  then checked_sub (StreamingPayment.endTime stream) (StreamingPayment.startTime stream)
  else checked_sub now (StreamingPayment.startTime stream).

Definition streamClaimable (stream : StreamingPayment.t) (now : N) : result N :=
  elapsed <- streamElapsed stream now ;;
  totalDuration <- checked_sub (StreamingPayment.endTime stream)
                     (StreamingPayment.startTime stream) ;;
  product <- checked_mul (StreamingPayment.totalAmount stream) elapsed ;;
  vestedAmount <- checked_div product totalDuration ;;
  checked_sub vestedAmount (StreamingPayment.claimedAmount stream).

Definition claimStreamingPayment (s : Router.t W) (sender : address) (now : N)
  (paymentId : bytes32) : result (Router.t W) :=
  let stream := Router.streaming s paymentId in
  require (StreamingPayment.recipient stream =? sender) "Not recipient" ;;;
  require (StreamingPayment.claimedAmount stream <? StreamingPayment.totalAmount stream)
    "Fully claimed" ;;;
  claimable <- streamClaimable stream now ;;
  require (0 <? claimable) "Nothing to claim" ;;;
  claimed <- checked_add (StreamingPayment.claimedAmount stream) claimable ;;
  let stream := StreamingPayment.set_claimedAmount claimed stream in
  let stream := StreamingPayment.set_lastClaimTime now stream in
  let s := Router.set_streamingPayments
             (<[paymentId := stream]> (Router.streamingPayments s)) s in
  let s := Router.set_payments
             (<[paymentId :=
                  Payment.set_releasedAmount (StreamingPayment.claimedAmount stream)
                    (Router.payment s paymentId)]> (Router.payments s)) s in
  let s :=
    if StreamingPayment.totalAmount stream <=? StreamingPayment.claimedAmount stream
    then Router.set_payments
           (<[paymentId :=
                Payment.set_completedAt now
                  (Payment.set_isCompleted true (Router.payment s paymentId))]>
              (Router.payments s)) s
    else s in
  w <- safeTransfer (Router.chain s) self sender claimable ;;
  Ok (Router.set_chain w s).

Definition createConditionalPayment (s : Router.t W) (sender : address) (now : N)
  (recipient : address) (amount : N) (conditionContract : address)
  (conditionData : bytes) : result (bytes32 * Router.t W) :=
  require (negb (recipient =? 0)) "Invalid recipient" ;;;
  require (0 <? amount) "Amount must be positive" ;;;
  let paymentId :=
    keccak256 [PAddress sender; PAddress recipient; PUint now; PString "CONDITIONAL"] in
  w <- safeTransferFrom (Router.chain s) self sender self amount ;;
  let s := Router.set_chain w s in
  let s := Router.set_conditionalPayments
             (<[paymentId :=
                  ConditionalPayment.mk paymentId recipient amount
                    conditionContract conditionData false]>
                (Router.conditionalPayments s)) s in
  let s := Router.set_payments
             (<[paymentId :=
                  Payment.mk paymentId sender PaymentType.CONDITIONAL amount
                    0 now 0 false false]> (Router.payments s)) s in
  Ok (paymentId,
      Router.set_userPayments
        (<[sender := Router.paymentsOf s sender ++ [paymentId]]>
           (Router.userPayments s)) s).

(** [require(success && abi.decode(result, (bool)), "Condition not met")]:
    [&&] short-circuits, so the answer is decoded only after a successful
    call. *)
Definition checkCondition (w : W) (now : N) (c : ConditionalPayment.t) : result unit :=
  if negb (ConditionalPayment.conditionContract c =? 0) then
    let '(success, answer) :=
      evm_staticcall w now (ConditionalPayment.conditionContract c)
        (ConditionalPayment.conditionData c) in
    if success then
      met <- abi_decode_bool answer ;;
      require met "Condition not met"
    else require false "Condition not met"
  else Ok tt.

Definition releaseConditionalPayment (s : Router.t W) (sender : address) (now : N)
  (paymentId : bytes32) : result (Router.t W) :=
  let condPayment := Router.conditional s paymentId in
  require (negb (ConditionalPayment.isReleased condPayment)) "Already released" ;;;
  checkCondition (Router.chain s) now condPayment ;;;
  let condPayment := ConditionalPayment.set_isReleased true condPayment in
  let s := Router.set_conditionalPayments
             (<[paymentId := condPayment]> (Router.conditionalPayments s)) s in
  let s := Router.set_payments
             (<[paymentId :=
                  Payment.set_completedAt now
                    (Payment.set_isCompleted true
                       (Payment.set_releasedAmount (ConditionalPayment.amount condPayment)
                          (Router.payment s paymentId)))]> (Router.payments s)) s in
  w <- safeTransfer (Router.chain s) self (ConditionalPayment.recipient condPayment)
         (ConditionalPayment.amount condPayment) ;;
  let s := Router.set_chain w s in
  volume <- checked_add (Router.totalVolumeProcessed s)
              (ConditionalPayment.amount condPayment) ;;
  Ok (Router.set_totalVolumeProcessed volume s).

Definition createRecurringPayment (s : Router.t W) (sender : address) (now : N)
  (recipient : address) (amount interval totalPayments : N)
  : result (bytes32 * Router.t W) :=
  require (negb (recipient =? 0)) "Invalid recipient" ;;;
  require ((0 <? amount) && (0 <? interval) && (0 <? totalPayments))
    "Invalid parameters" ;;;
  let paymentId :=
    keccak256 [PAddress sender; PAddress recipient; PUint now; PString "RECURRING"] in
  fullAmount <- checked_mul amount totalPayments ;;
  w <- safeTransferFrom (Router.chain s) self sender self fullAmount ;;
  let s := Router.set_chain w s in
  let s := Router.set_recurringPayments
             (<[paymentId :=
                  RecurringPayment.mk paymentId sender recipient amount interval
                    now totalPayments 0 true]> (Router.recurringPayments s)) s in
  let s := Router.set_payments
             (<[paymentId :=
                  Payment.mk paymentId sender PaymentType.RECURRING fullAmount
                    0 now 0 false false]> (Router.payments s)) s in
  Ok (paymentId,
      Router.set_userPayments
        (<[sender := Router.paymentsOf s sender ++ [paymentId]]>
           (Router.userPayments s)) s).

Definition executeRecurringPayment (s : Router.t W) (sender : address) (now : N)
  (paymentId : bytes32) : result (Router.t W) :=
  let recurring := Router.recurring s paymentId in
  require (RecurringPayment.isActive recurring) "Not active" ;;;
  require (RecurringPayment.nextPaymentTime recurring <=? now) "Not yet due" ;;;
  require (RecurringPayment.completedPayments recurring
             <? RecurringPayment.totalPayments recurring) "All payments completed" ;;;
  w <- safeTransfer (Router.chain s) self (RecurringPayment.recipient recurring)
         (RecurringPayment.amount recurring) ;;
  let s := Router.set_chain w s in
  completed <- checked_add (RecurringPayment.completedPayments recurring) 1 ;;
  let recurring := RecurringPayment.set_completedPayments completed recurring in
  next <- checked_add now (RecurringPayment.interval recurring) ;;
  let recurring := RecurringPayment.set_nextPaymentTime next recurring in
  released <- checked_add (Payment.releasedAmount (Router.payment s paymentId))
                (RecurringPayment.amount recurring) ;;
  let s := Router.set_payments
             (<[paymentId :=
                  Payment.set_releasedAmount released (Router.payment s paymentId)]>
                (Router.payments s)) s in
  volume <- checked_add (Router.totalVolumeProcessed s)
              (RecurringPayment.amount recurring) ;;
  let s := Router.set_totalVolumeProcessed volume s in
  if RecurringPayment.totalPayments recurring
       <=? RecurringPayment.completedPayments recurring
  then
    let recurring := RecurringPayment.set_isActive false recurring in
    let s := Router.set_recurringPayments
               (<[paymentId := recurring]> (Router.recurringPayments s)) s in
    Ok (Router.set_payments
          (<[paymentId :=
               Payment.set_completedAt now
                 (Payment.set_isCompleted true (Router.payment s paymentId))]>
             (Router.payments s)) s)
  else
    Ok (Router.set_recurringPayments
          (<[paymentId := recurring]> (Router.recurringPayments s)) s).

Definition cancelPayment (s : Router.t W) (sender : address) (now : N)
  (paymentId : bytes32) : result (Router.t W) :=
  let payment := Router.payment s paymentId in
  require (Payment.payer payment =? sender) "Not payer" ;;;
  require (negb (Payment.isCompleted payment) && negb (Payment.isCancelled payment))
    "Cannot cancel" ;;;
  refundAmount <- checked_sub (Payment.totalAmount payment)
                    (Payment.releasedAmount payment) ;;
  let payment := Payment.set_completedAt now (Payment.set_isCancelled true payment) in
  let s := Router.set_payments (<[paymentId := payment]> (Router.payments s)) s in
  w <- (if 0 <? refundAmount
        then safeTransfer (Router.chain s) self sender refundAmount
        else Ok (Router.chain s)) ;;
  let s := Router.set_chain w s in
  if PaymentType.eqb (Payment.paymentType payment) PaymentType.RECURRING
  then Ok (Router.set_recurringPayments
             (<[paymentId :=
                  RecurringPayment.set_isActive false (Router.recurring s paymentId)]>
                (Router.recurringPayments s)) s)
  else Ok s.

(** The view [getClaimableAmount]: zero for a stream that was never opened
    (its recipient is the zero address), the vested amount less the claimed
    amount otherwise, in checked arithmetic. *)
Definition getClaimableAmount (s : Router.t W) (now : N) (paymentId : bytes32)
  : result N :=
  let stream := Router.streaming s paymentId in
  if StreamingPayment.recipient stream =? 0 then Ok 0
  else streamClaimable stream now.

(** The view [getStats]. *)
Definition getStats (s : Router.t W) : N * N :=
  (Router.totalPaymentsProcessed s, Router.totalVolumeProcessed s).

(** The transactions a caller can send to the router, and their effect on
    its state: a failed transaction changes nothing. *)
Inductive RouterCall : Type :=
| ProcessX402Payment (from to : address) (value validAfter validBefore : N)
    (nonce : bytes32) (signature : bytes)
| CreateSplitPayment (recipients : list SplitRecipient.t) (totalAmount : N)
| CreateStreamingPayment (recipient : address) (totalAmount duration : N)
| ClaimStreamingPayment (paymentId : bytes32)
| CreateConditionalPayment (recipient : address) (amount : N)
    (conditionContract : address) (conditionData : bytes)
| ReleaseConditionalPayment (paymentId : bytes32)
| CreateRecurringPayment (recipient : address) (amount interval totalPayments : N)
| ExecuteRecurringPayment (paymentId : bytes32)
| CancelPayment (paymentId : bytes32).

Definition dropId {A B : Type} (r : result (A * B)) : result B :=
  x <- r ;; Ok (snd x).

Definition call (s : Router.t W) (sender : address) (now : N) (c : RouterCall)
  : result (Router.t W) :=
  match c with
  | ProcessX402Payment from to value validAfter validBefore nonce signature =>
      processX402Payment s sender now from to value validAfter validBefore nonce signature
  | CreateSplitPayment recipients totalAmount =>
      dropId (createSplitPayment s sender now recipients totalAmount)
  | CreateStreamingPayment recipient totalAmount duration =>
      dropId (createStreamingPayment s sender now recipient totalAmount duration)
  | ClaimStreamingPayment paymentId => claimStreamingPayment s sender now paymentId
  | CreateConditionalPayment recipient amount conditionContract conditionData =>
      dropId (createConditionalPayment s sender now recipient amount
                conditionContract conditionData)
  | ReleaseConditionalPayment paymentId => releaseConditionalPayment s sender now paymentId
  | CreateRecurringPayment recipient amount interval totalPayments =>
      dropId (createRecurringPayment s sender now recipient amount interval totalPayments)
  | ExecuteRecurringPayment paymentId => executeRecurringPayment s sender now paymentId
  | CancelPayment paymentId => cancelPayment s sender now paymentId
  end.

Definition transact (s : Router.t W) (tx : address * N * RouterCall) : Router.t W :=
  let '(sender, now, c) := tx in
  match call s sender now c with
  | Ok s' => s'
  | Fail _ => s
  end.

Definition transactAll (s : Router.t W) (txs : list (address * N * RouterCall))
  : Router.t W :=
  fold_left transact txs s.

(** A sequence of transactions that all succeed. *)
Fixpoint callAll (s : Router.t W) (txs : list (address * N * RouterCall))
  : result (Router.t W) :=
  match txs with
  | [] => Ok s
  | tx :: rest =>
      s <- call s (fst (fst tx)) (snd (fst tx)) (snd tx) ;;
      callAll s rest
  end.

(** Executions of one recurring payment, by any callers at any times. *)
Definition executeCalls (paymentId : bytes32) (calls : list (address * N))
  : list (address * N * RouterCall) :=
  map (fun c => (fst c, snd c, ExecuteRecurringPayment paymentId)) calls.

(** Claims on one stream, by any callers at any times. *)
Definition claimCalls (paymentId : bytes32) (calls : list (address * N))
  : list (address * N * RouterCall) :=
  map (fun c => (fst c, snd c, ClaimStreamingPayment paymentId)) calls.

End PaymentRouter.

(** ** WorkflowEngine: storage layout *)

Module StepType.
Inductive t : Type :=
| CALL_AGENT   (* call a registered agent *)
| TRANSFER     (* transfer tokens *)
| SWAP         (* DEX swap *)
| CONDITION    (* conditional branching *)
| PARALLEL     (* parallel execution *)
| DELAY        (* time delay *)
| CUSTOM.      (* custom contract call *)
End StepType.

Module ConditionType.
Inductive t : Type :=
| BALANCE_GT | BALANCE_LT | PRICE_GT | PRICE_LT | TIME_GT | TIME_LT | CUSTOM.
End ConditionType.

Module WorkflowStep.
Record t : Type := mk {
  stepType : StepType.t;
  agentId : bytes32;
  targetContract : address;
  callData : bytes;
  value : uint256;
  gasLimit : uint256;
  conditionType : ConditionType.t;
  conditionData : bytes;
  nextStepOnSuccess : uint256;
  nextStepOnFailure : uint256
}.
End WorkflowStep.

Module Workflow.
Record t : Type := mk {
  id : bytes32;
  owner : address;
  name : string;
  description : string;
  steps : list WorkflowStep.t;
  isActive : bool;
  totalExecutions : uint256;
  successfulExecutions : uint256;
  totalGasUsed : uint256;
  createdAt : uint256;
  lastExecutedAt : uint256
}.

Definition zero : t := mk 0 0 "" "" [] false 0 0 0 0 0.
End Workflow.

Module WorkflowExecution.
Record t : Type := mk {
  workflowId : bytes32;
  executor : address;
  startStep : uint256;
  currentStep : uint256;
  gasUsed : uint256;
  completed : bool;
  success : bool;
  errorMessage : string;
  startedAt : uint256;
  completedAt : uint256
}.

Definition set_currentStep (v : N) (e : t) : t :=
  mk (workflowId e) (executor e) (startStep e) v (gasUsed e) (completed e)
     (success e) (errorMessage e) (startedAt e) (completedAt e).

Definition set_gasUsed (v : N) (e : t) : t :=
  mk (workflowId e) (executor e) (startStep e) (currentStep e) v (completed e)
     (success e) (errorMessage e) (startedAt e) (completedAt e).

Definition set_completed (v : bool) (e : t) : t :=
  mk (workflowId e) (executor e) (startStep e) (currentStep e) (gasUsed e) v
     (success e) (errorMessage e) (startedAt e) (completedAt e).

Definition set_success (v : bool) (e : t) : t :=
  mk (workflowId e) (executor e) (startStep e) (currentStep e) (gasUsed e)
     (completed e) v (errorMessage e) (startedAt e) (completedAt e).

Definition set_errorMessage (v : string) (e : t) : t :=
  mk (workflowId e) (executor e) (startStep e) (currentStep e) (gasUsed e)
     (completed e) (success e) v (startedAt e) (completedAt e).

Definition set_completedAt (v : N) (e : t) : t :=
  mk (workflowId e) (executor e) (startStep e) (currentStep e) (gasUsed e)
     (completed e) (success e) (errorMessage e) (startedAt e) v.
End WorkflowExecution.

Inductive Event : Type :=
| WorkflowCreated (workflowId : bytes32) (owner : address) (name : string)
| WorkflowExecutionStarted (workflowId executionId : bytes32) (executor : address)
| WorkflowStepExecuted (workflowId executionId : bytes32) (stepIndex : N) (success : bool)
| WorkflowExecutionCompleted (workflowId executionId : bytes32) (success : bool)
| WorkflowDeactivated (workflowId : bytes32).

Module Engine.
Record t (W : Type) : Type := mk {
  chain : W;
  workflows : gmap N Workflow.t;
  executions : gmap N (list WorkflowExecution.t);
  userWorkflows : gmap N (list N);
  allWorkflowIds : list N;
  executionFee : uint256;
  totalWorkflows : uint256;
  totalExecutions : uint256
}.

Arguments mk {W}.
Arguments chain {W}.
Arguments workflows {W}.
Arguments executions {W}.
Arguments userWorkflows {W}.
Arguments allWorkflowIds {W}.
Arguments executionFee {W}.
Arguments totalWorkflows {W}.
Arguments totalExecutions {W}.

Definition workflow {W} (s : t W) (k : N) : Workflow.t :=
  default Workflow.zero (workflows s !! k).
Definition history {W} (s : t W) (k : N) : list WorkflowExecution.t :=
  default [] (executions s !! k).
Definition workflowsOf {W} (s : t W) (user : N) : list N :=
  default [] (userWorkflows s !! user).
End Engine.

(** The variables of the [while] loop of [executeWorkflow], with the chain
    state and the events emitted so far. *)
Module Loop.
Record t (W : Type) : Type := mk {
  continueExecution : bool;
  currentStep : uint256;
  execution : WorkflowExecution.t;
  chain : W;
  events : list Event
}.

Arguments mk {W}.
Arguments continueExecution {W}.
Arguments currentStep {W}.
Arguments execution {W}.
Arguments chain {W}.
Arguments events {W}.
End Loop.

(** ** WorkflowEngine: the functions

    [self] is [address(this)].  The arguments [workflowId], [executionId] and
    [stepIndex] of [_executeStep] are not read by its body and are left out.
    The [while] loop has no bound of its own: it runs until the gas of the
    transaction is used up, which [fuel] (a number of iterations) stands
    for.  [gasUsed] is the metered [gasStart - gasleft()].

    [workflow] is a storage reference in the contract: the loop reads
    [workflow.steps] again at every iteration, and the function writes only
    the counters at its end.  [executeWorkflow] below walks the steps read at
    the start and stores them back with the activity flag; this is the same
    as long as nothing writes the workflow during the run, which only the
    target of a successful CUSTOM call can do (see [customSucceeded] and
    [customCallsFail] below). *)

Section WorkflowEngine.
Context {W : Type} `{HChain : Chain W}.
Variable self : address.
Variable keccak256 : list packed -> bytes32.

Definition _evaluateCondition (w : W) (now : N) (conditionType : ConditionType.t)
  (conditionData : bytes) : result bool :=
  match conditionType with
  | ConditionType.BALANCE_GT =>
      x <- abi_decode_address_uint256 conditionData ;;
      let '(account, threshold) := x in
      Ok (threshold <? erc20_balanceOf w account)
  | ConditionType.BALANCE_LT =>
      x <- abi_decode_address_uint256 conditionData ;;
      let '(account, threshold) := x in
      Ok (erc20_balanceOf w account <? threshold)
  | ConditionType.TIME_GT =>
      timestamp <- abi_decode_uint256 conditionData ;;
      Ok (timestamp <? now)
  | ConditionType.TIME_LT =>
      timestamp <- abi_decode_uint256 conditionData ;;
      Ok (now <? timestamp)
  | _ => Ok true
  end.

Definition _executeStep (w : W) (sender : address) (now : N) (step : WorkflowStep.t)
  : result (bool * N * W) :=
  let nextStep := WorkflowStep.nextStepOnSuccess step in
  match WorkflowStep.stepType step with
  | StepType.CALL_AGENT =>
      match registry_recordCall w self now (WorkflowStep.agentId step) with
      | Some w' => Ok (true, nextStep, w')
      | None => Ok (false, WorkflowStep.nextStepOnFailure step, w)
      end
  | StepType.TRANSFER =>
      x <- abi_decode_address_uint256 (WorkflowStep.callData step) ;;
      let '(to, amount) := x in
      match erc20_transferFrom w self sender to amount with
      | Some (answer, w') => Ok (answer, nextStep, w')
      | None => Ok (false, WorkflowStep.nextStepOnFailure step, w)
      end
  | StepType.CONDITION =>
      success <- _evaluateCondition w now (WorkflowStep.conditionType step)
                   (WorkflowStep.conditionData step) ;;
      Ok (success,
          if success then WorkflowStep.nextStepOnSuccess step
          else WorkflowStep.nextStepOnFailure step,
          w)
  | StepType.CUSTOM =>
      let '(success, w') :=
        evm_call w self now (WorkflowStep.targetContract step)
          (WorkflowStep.value step) (WorkflowStep.gasLimit step)
          (WorkflowStep.callData step) in
      Ok (success,
          if success then nextStep else WorkflowStep.nextStepOnFailure step,
          w')
  | StepType.DELAY =>
      requiredTime <- abi_decode_uint256 (WorkflowStep.callData step) ;;
      let success := requiredTime <=? now in
      Ok (success,
          if success then nextStep else WorkflowStep.nextStepOnFailure step,
          w)
  | _ =>
      (* SWAP and PARALLEL *)
      Ok (true, nextStep, w)
  end.

(** The guard of the [while] loop. *)
Definition loopGuard (steps : list WorkflowStep.t) (st : Loop.t W) : bool :=
  Loop.continueExecution st && (Loop.currentStep st <? N.of_nat (length steps)).

(** One iteration of the loop body. *)
Definition loopBody (steps : list WorkflowStep.t) (workflowId executionId : bytes32)
  (sender : address) (now : N) (st : Loop.t W) : result (Loop.t W) :=
  match steps !! N.to_nat (Loop.currentStep st) with
  | None => Fail (Panic 50)
  | Some step =>
      x <- _executeStep (Loop.chain st) sender now step ;;
      let '(stepSuccess, _, w) := x in
      let events :=
        Loop.events st
          ++ [WorkflowStepExecuted workflowId executionId (Loop.currentStep st) stepSuccess] in
      if negb stepSuccess && (WorkflowStep.nextStepOnFailure step =? MAX_UINT256) then
        (* no failure handler, abort workflow *)
        let execution :=
          WorkflowExecution.set_errorMessage "Step failed without handler"
            (WorkflowExecution.set_success false (Loop.execution st)) in
        Ok (Loop.mk false (Loop.currentStep st)
              (WorkflowExecution.set_currentStep (Loop.currentStep st) execution)
              w events)
      else
        let currentStep :=
          if stepSuccess then WorkflowStep.nextStepOnSuccess step
          else WorkflowStep.nextStepOnFailure step in
        if (N.of_nat (length steps) <=? currentStep) || (currentStep =? MAX_UINT256) then
          (* end of workflow *)
          Ok (Loop.mk false currentStep
                (WorkflowExecution.set_currentStep currentStep
                   (WorkflowExecution.set_success stepSuccess (Loop.execution st)))
                w events)
        else
          Ok (Loop.mk (Loop.continueExecution st) currentStep
                (WorkflowExecution.set_currentStep currentStep (Loop.execution st))
                w events)
  end.

(** The state the loop is left in when a step fails without handler. *)
Definition aborted (workflowId executionId : bytes32) (st : Loop.t W) (w : W)
  : Loop.t W :=
  Loop.mk false (Loop.currentStep st)
    (WorkflowExecution.set_currentStep (Loop.currentStep st)
       (WorkflowExecution.set_errorMessage "Step failed without handler"
          (WorkflowExecution.set_success false (Loop.execution st))))
    w
    (Loop.events st
       ++ [WorkflowStepExecuted workflowId executionId (Loop.currentStep st) false]).

Fixpoint runLoop (fuel : nat) (steps : list WorkflowStep.t)
  (workflowId executionId : bytes32) (sender : address) (now : N) (st : Loop.t W)
  : result (Loop.t W) :=
  if loopGuard steps st then
    match fuel with
    | O => Fail OutOfGas
    | S fuel' =>
        st' <- loopBody steps workflowId executionId sender now st ;;
        runLoop fuel' steps workflowId executionId sender now st'
    end
  else Ok st.

Definition createWorkflow (s : Engine.t W) (sender : address) (now : N)
  (name description : string) (steps : list WorkflowStep.t)
  : result (bytes32 * Engine.t W * list Event) :=
  require (0 <? N.of_nat (String.length name)) "Name required" ;;;
  require (0 <? N.of_nat (length steps)) "At least one step required" ;;;
  require (N.of_nat (length steps) <=? 20) "Too many steps" ;;;
  let workflowId := keccak256 [PAddress sender; PUint now; PString name] in
  let workflow := Engine.workflow s workflowId in
  let workflow :=
    Workflow.mk workflowId sender name description
      (Workflow.steps workflow ++ steps) true
      (Workflow.totalExecutions workflow) (Workflow.successfulExecutions workflow)
      (Workflow.totalGasUsed workflow) now (Workflow.lastExecutedAt workflow) in
  total <- checked_add (Engine.totalWorkflows s) 1 ;;
  Ok (workflowId,
      Engine.mk (Engine.chain s)
        (<[workflowId := workflow]> (Engine.workflows s))
        (Engine.executions s)
        (<[sender := Engine.workflowsOf s sender ++ [workflowId]]> (Engine.userWorkflows s))
        (Engine.allWorkflowIds s ++ [workflowId])
        (Engine.executionFee s) total (Engine.totalExecutions s),
      [WorkflowCreated workflowId sender name]).

Definition executeWorkflow (s : Engine.t W) (sender : address) (now : N)
  (value : N) (fuel : nat) (gasUsed : N) (workflowId : bytes32) (startStep : N)
  : result (bytes32 * Engine.t W * list Event) :=
  let workflow := Engine.workflow s workflowId in
  require (negb (Workflow.owner workflow =? 0)) "Workflow not found" ;;;
  require (Workflow.isActive workflow) "Workflow not active" ;;;
  require (startStep <? N.of_nat (length (Workflow.steps workflow))) "Invalid start step" ;;;
  require (Engine.executionFee s <=? value) "Insufficient execution fee" ;;;
  let executionId := keccak256 [PBytes32 workflowId; PAddress sender; PUint now] in
  let execution :=
    WorkflowExecution.mk workflowId sender startStep startStep 0 false false "" now 0 in
  st <- runLoop fuel (Workflow.steps workflow) workflowId executionId sender now
          (Loop.mk true startStep execution (Engine.chain s)
             [WorkflowExecutionStarted workflowId executionId sender]) ;;
  let execution :=
    WorkflowExecution.set_gasUsed gasUsed
      (WorkflowExecution.set_completedAt now
         (WorkflowExecution.set_completed true (Loop.execution st))) in
  executed <- checked_add (Workflow.totalExecutions workflow) 1 ;;
  successful <- (if WorkflowExecution.success execution
                 then checked_add (Workflow.successfulExecutions workflow) 1
                 else Ok (Workflow.successfulExecutions workflow)) ;;
  gas <- checked_add (Workflow.totalGasUsed workflow) gasUsed ;;
  total <- checked_add (Engine.totalExecutions s) 1 ;;
  let workflow :=
    Workflow.mk (Workflow.id workflow) (Workflow.owner workflow) (Workflow.name workflow)
      (Workflow.description workflow) (Workflow.steps workflow)
      (Workflow.isActive workflow) executed successful gas
      (Workflow.createdAt workflow) now in
  Ok (executionId,
      Engine.mk (Loop.chain st)
        (<[workflowId := workflow]> (Engine.workflows s))
        (<[workflowId := Engine.history s workflowId ++ [execution]]> (Engine.executions s))
        (Engine.userWorkflows s) (Engine.allWorkflowIds s) (Engine.executionFee s)
        (Engine.totalWorkflows s) total,
      Loop.events st
        ++ [WorkflowExecutionCompleted workflowId executionId
              (WorkflowExecution.success execution)]).

Definition deactivateWorkflow (s : Engine.t W) (sender : address)
  (workflowId : bytes32) : result (Engine.t W * list Event) :=
  let workflow := Engine.workflow s workflowId in
  require (Workflow.owner workflow =? sender) "Not owner" ;;;
  let workflow :=
    Workflow.mk (Workflow.id workflow) (Workflow.owner workflow) (Workflow.name workflow)
      (Workflow.description workflow) (Workflow.steps workflow) false
      (Workflow.totalExecutions workflow) (Workflow.successfulExecutions workflow)
      (Workflow.totalGasUsed workflow) (Workflow.createdAt workflow)
      (Workflow.lastExecutedAt workflow) in
  Ok (Engine.mk (Engine.chain s)
        (<[workflowId := workflow]> (Engine.workflows s))
        (Engine.executions s) (Engine.userWorkflows s) (Engine.allWorkflowIds s)
        (Engine.executionFee s) (Engine.totalWorkflows s) (Engine.totalExecutions s),
      [WorkflowDeactivated workflowId]).

End WorkflowEngine.




(** ** NexusRegistry: storage layout *)

Module Agent.
Record t : Type := mk {
  owner : address;
  paymentAddress : address;
  metadataUri : string;
  capabilities : list string;
  pricePerCall : uint256;
  totalCalls : uint256;
  totalRevenue : uint256;
  rating : uint256;
  ratingCount : uint256;
  isActive : bool;
  createdAt : uint256;
  lastActiveAt : uint256
}.

Definition zero : t := mk 0 0 "" [] 0 0 0 0 0 false 0 0.

(** An agent without ratings, or with an average between one and two stars
    (ratings are scaled by 100). *)
Definition wellRated (a : t) : Prop :=
  (ratingCount a = 0 /\ rating a = 0) \/ 100 <= rating a <= 200.
End Agent.

Module Registry.
Record t (W : Type) : Type := mk {
  chain : W;
  contractOwner : address;            (* Ownable's owner *)
  agents : gmap N Agent.t;
  ownerAgents : gmap N (list N);
  capabilityToAgents : gmap string (list N);
  allAgentIds : list N;
  platformFeeRate : uint256;          (* in basis points *)
  totalAgents : uint256;
  totalCalls : uint256;
  totalVolume : uint256
}.

Arguments mk {W}.
Arguments chain {W}.
Arguments contractOwner {W}.
Arguments agents {W}.
Arguments ownerAgents {W}.
Arguments capabilityToAgents {W}.
Arguments allAgentIds {W}.
Arguments platformFeeRate {W}.
Arguments totalAgents {W}.
Arguments totalCalls {W}.
Arguments totalVolume {W}.

Definition agent {W} (s : t W) (k : N) : Agent.t :=
  default Agent.zero (agents s !! k).
Definition agentsOf {W} (s : t W) (owner : N) : list N :=
  default [] (ownerAgents s !! owner).
Definition agentsWith {W} (s : t W) (capability : string) : list N :=
  default [] (capabilityToAgents s !! capability).

Definition set_agent {W} (k : N) (a : Agent.t) (s : t W) : t W :=
  mk (chain s) (contractOwner s) (<[k := a]> (agents s)) (ownerAgents s)
     (capabilityToAgents s) (allAgentIds s) (platformFeeRate s) (totalAgents s)
     (totalCalls s) (totalVolume s).

(** The contract as its constructor leaves it: owned by the deployer, with a
    platform fee of 2.5%. *)
Definition deployed {W} (w : W) (deployer : address) : t W :=
  mk w deployer ∅ ∅ ∅ [] 250 0 0 0.
End Registry.

Definition MAX_FEE_RATE : N := 1000.   (* 10% *)
Definition BASIS_POINTS : N := 10000.

(** ** NexusRegistry: the functions

    [self] is [address(this)].  [onlyOwner] is OpenZeppelin's modifier, which
    reverts with a custom error (no reason string) for any other caller.
    The [rating] of [rateAgent] is a [uint8]: in [rating * 100] the literal
    takes the type of the other operand, so the product is computed, and
    checked, in 8 bits. *)

Section NexusRegistry.
Context {W : Type} `{HChain : Chain W}.
Variable self : address.
Variable keccak256 : list packed -> bytes32.

(** The loop of [registerAgent] over the capabilities. *)
Fixpoint indexCapabilities (index : gmap string (list N)) (capabilities : list string)
  (agentId : bytes32) : gmap string (list N) :=
  match capabilities with
  | [] => index
  | c :: rest =>
      indexCapabilities (<[c := default [] (index !! c) ++ [agentId]]> index) rest agentId
  end.

Definition registerAgent (s : Registry.t W) (sender : address) (now : N)
  (metadataUri : string) (capabilities : list string) (pricePerCall : N)
  (paymentAddress : address) : result (bytes32 * Registry.t W) :=
  require (0 <? N.of_nat (String.length metadataUri)) "Invalid metadata URI" ;;;
  require (0 <? N.of_nat (length capabilities)) "At least one capability required" ;;;
  require (negb (paymentAddress =? 0)) "Invalid payment address" ;;;
  let agentId := keccak256 [PAddress sender; PUint now; PString metadataUri] in
  require (Agent.owner (Registry.agent s agentId) =? 0) "Agent already exists" ;;;
  let agent :=
    Agent.mk sender paymentAddress metadataUri capabilities pricePerCall 0 0 0 0
      true now now in
  total <- checked_add (Registry.totalAgents s) 1 ;;
  Ok (agentId,
      Registry.mk (Registry.chain s) (Registry.contractOwner s)
        (<[agentId := agent]> (Registry.agents s))
        (<[sender := Registry.agentsOf s sender ++ [agentId]]> (Registry.ownerAgents s))
        (indexCapabilities (Registry.capabilityToAgents s) capabilities agentId)
        (Registry.allAgentIds s ++ [agentId])
        (Registry.platformFeeRate s) total (Registry.totalCalls s)
        (Registry.totalVolume s)).

Definition recordCall (s : Registry.t W) (sender : address) (now : N)
  (agentId : bytes32) : result (Registry.t W) :=
  let agent := Registry.agent s agentId in
  require (negb (Agent.owner agent =? 0)) "Agent not found" ;;;
  require (Agent.isActive agent) "Agent not active" ;;;
  let payment := Agent.pricePerCall agent in
  x <- (if 0 <? payment then
          product <- checked_mul payment (Registry.platformFeeRate s) ;;
          platformFee <- checked_div product BASIS_POINTS ;;
          agentPayment <- checked_sub payment platformFee ;;
          w <- safeTransferFrom (Registry.chain s) self sender self platformFee ;;
          w <- safeTransferFrom w self sender (Agent.paymentAddress agent) agentPayment ;;
          revenue <- checked_add (Agent.totalRevenue agent) agentPayment ;;
          volume <- checked_add (Registry.totalVolume s) payment ;;
          Ok (w, revenue, volume)
        else Ok (Registry.chain s, Agent.totalRevenue agent, Registry.totalVolume s)) ;;
  let '(w, revenue, volume) := x in
  calls <- checked_add (Agent.totalCalls agent) 1 ;;
  total <- checked_add (Registry.totalCalls s) 1 ;;
  let agent :=
    Agent.mk (Agent.owner agent) (Agent.paymentAddress agent) (Agent.metadataUri agent)
      (Agent.capabilities agent) (Agent.pricePerCall agent) calls revenue
      (Agent.rating agent) (Agent.ratingCount agent) (Agent.isActive agent)
      (Agent.createdAt agent) now in
  Ok (Registry.mk w (Registry.contractOwner s)
        (<[agentId := agent]> (Registry.agents s)) (Registry.ownerAgents s)
        (Registry.capabilityToAgents s) (Registry.allAgentIds s)
        (Registry.platformFeeRate s) (Registry.totalAgents s) total volume).

(** [rating * 100] in [uint8]. *)
Definition scaledRating (rating : N) : result N :=
  if rating * 100 <=? 255 then Ok (rating * 100) else Fail (Panic 17).

Definition rateAgent (s : Registry.t W) (sender : address) (agentId : bytes32)
  (rating : N) : result (Registry.t W) :=
  let agent := Registry.agent s agentId in
  require (negb (Agent.owner agent =? 0)) "Agent not found" ;;;
  require ((1 <=? rating) && (rating <=? 5)) "Invalid rating" ;;;
  totalRating <- checked_mul (Agent.rating agent) (Agent.ratingCount agent) ;;
  count <- checked_add (Agent.ratingCount agent) 1 ;;
  scaled <- scaledRating rating ;;
  sum <- checked_add totalRating scaled ;;
  average <- checked_div sum count ;;
  let agent :=
    Agent.mk (Agent.owner agent) (Agent.paymentAddress agent) (Agent.metadataUri agent)
      (Agent.capabilities agent) (Agent.pricePerCall agent) (Agent.totalCalls agent)
      (Agent.totalRevenue agent) average count (Agent.isActive agent)
      (Agent.createdAt agent) (Agent.lastActiveAt agent) in
  Ok (Registry.set_agent agentId agent s).

Definition updateAgent (s : Registry.t W) (sender : address) (agentId : bytes32)
  (metadataUri : string) (pricePerCall : N) : result (Registry.t W) :=
  let agent := Registry.agent s agentId in
  require (Agent.owner agent =? sender) "Not agent owner" ;;;
  let agent :=
    Agent.mk (Agent.owner agent) (Agent.paymentAddress agent) metadataUri
      (Agent.capabilities agent) pricePerCall (Agent.totalCalls agent)
      (Agent.totalRevenue agent) (Agent.rating agent) (Agent.ratingCount agent)
      (Agent.isActive agent) (Agent.createdAt agent) (Agent.lastActiveAt agent) in
  Ok (Registry.set_agent agentId agent s).

Definition setActive (active : bool) (agent : Agent.t) : Agent.t :=
  Agent.mk (Agent.owner agent) (Agent.paymentAddress agent) (Agent.metadataUri agent)
    (Agent.capabilities agent) (Agent.pricePerCall agent) (Agent.totalCalls agent)
    (Agent.totalRevenue agent) (Agent.rating agent) (Agent.ratingCount agent)
    active (Agent.createdAt agent) (Agent.lastActiveAt agent).

Definition deactivateAgent (s : Registry.t W) (sender : address) (agentId : bytes32)
  : result (Registry.t W) :=
  require (Agent.owner (Registry.agent s agentId) =? sender) "Not agent owner" ;;;
  Ok (Registry.set_agent agentId (setActive false (Registry.agent s agentId)) s).

Definition activateAgent (s : Registry.t W) (sender : address) (agentId : bytes32)
  : result (Registry.t W) :=
  require (Agent.owner (Registry.agent s agentId) =? sender) "Not agent owner" ;;;
  Ok (Registry.set_agent agentId (setActive true (Registry.agent s agentId)) s).

Definition onlyOwner (s : Registry.t W) (sender : address) : result unit :=
  if Registry.contractOwner s =? sender then Ok tt else Fail Revert.

Definition setPlatformFeeRate (s : Registry.t W) (sender : address) (newRate : N)
  : result (Registry.t W) :=
  onlyOwner s sender ;;;
  require (newRate <=? MAX_FEE_RATE) "Fee too high" ;;;
  Ok (Registry.mk (Registry.chain s) (Registry.contractOwner s) (Registry.agents s)
        (Registry.ownerAgents s) (Registry.capabilityToAgents s)
        (Registry.allAgentIds s) newRate (Registry.totalAgents s)
        (Registry.totalCalls s) (Registry.totalVolume s)).

Definition withdrawFees (s : Registry.t W) (sender : address) (to : address)
  : result (Registry.t W) :=
  onlyOwner s sender ;;;
  let balance := erc20_balanceOf (Registry.chain s) self in
  w <- safeTransfer (Registry.chain s) self to balance ;;
  Ok (Registry.mk w (Registry.contractOwner s) (Registry.agents s)
        (Registry.ownerAgents s) (Registry.capabilityToAgents s)
        (Registry.allAgentIds s) (Registry.platformFeeRate s)
        (Registry.totalAgents s) (Registry.totalCalls s) (Registry.totalVolume s)).

(** The view [isAgentActive]. *)
Definition isAgentActive (s : Registry.t W) (agentId : bytes32) : bool :=
  Agent.isActive (Registry.agent s agentId).

(** The transactions of the registry's own functions. *)
Inductive RegistryCall : Type :=
| RegisterAgent (metadataUri : string) (capabilities : list string)
    (pricePerCall : N) (paymentAddress : address)
| RecordCall (agentId : bytes32)
| RateAgent (agentId : bytes32) (rating : N)
| UpdateAgent (agentId : bytes32) (metadataUri : string) (pricePerCall : N)
| DeactivateAgent (agentId : bytes32)
| ActivateAgent (agentId : bytes32)
| SetPlatformFeeRate (newRate : N)
| WithdrawFees (to : address).

Definition registryCall (s : Registry.t W) (sender : address) (now : N)
  (c : RegistryCall) : result (Registry.t W) :=
  match c with
  | RegisterAgent metadataUri capabilities pricePerCall paymentAddress =>
      dropId (registerAgent s sender now metadataUri capabilities pricePerCall
                paymentAddress)
  | RecordCall agentId => recordCall s sender now agentId
  | RateAgent agentId rating => rateAgent s sender agentId rating
  | UpdateAgent agentId metadataUri pricePerCall =>
      updateAgent s sender agentId metadataUri pricePerCall
  | DeactivateAgent agentId => deactivateAgent s sender agentId
  | ActivateAgent agentId => activateAgent s sender agentId
  | SetPlatformFeeRate newRate => setPlatformFeeRate s sender newRate
  | WithdrawFees to => withdrawFees s sender to
  end.

Definition registryTransact (s : Registry.t W) (tx : address * N * RegistryCall)
  : Registry.t W :=
  match registryCall s (fst (fst tx)) (snd (fst tx)) (snd tx) with
  | Ok s' => s'
  | Fail _ => s
  end.

Definition registryTransactAll (s : Registry.t W)
  (txs : list (address * N * RegistryCall)) : Registry.t W :=
  fold_left registryTransact txs s.

End NexusRegistry.

(** ** The specification's formulas

    The quantities of a streaming claim as the specification words them,
    over the integers: [elapsed = min(now, endTime) - startTime],
    [vested = floor(totalAmount * elapsed / (endTime - startTime))] and
    [claimable = vested - claimedAmount]. *)

Definition spec_elapsed (stream : StreamingPayment.t) (now : N) : Z :=
  (Z.min (Z.of_N now) (Z.of_N (StreamingPayment.endTime stream))
   - Z.of_N (StreamingPayment.startTime stream))%Z.

Definition spec_vested (stream : StreamingPayment.t) (now : N) : Z :=
  (Z.of_N (StreamingPayment.totalAmount stream) * spec_elapsed stream now
   / (Z.of_N (StreamingPayment.endTime stream)
      - Z.of_N (StreamingPayment.startTime stream)))%Z.

Definition spec_claimable (stream : StreamingPayment.t) (now : N) : Z :=
  (spec_vested stream now - Z.of_N (StreamingPayment.claimedAmount stream))%Z.

(** The share of a split recipient, [floor(totalAmount * basisPoints / 10000)],
    the sum of the shares and the sum of the basis points. *)
Definition spec_share (totalAmount : N) (r : SplitRecipient.t) : N :=
  totalAmount * SplitRecipient.basisPoints r / 10000.

Definition spec_totalShares (totalAmount : N) (recipients : list SplitRecipient.t) : N :=
  fold_right (fun r acc => spec_share totalAmount r + acc) 0 recipients.

Definition spec_totalBps (recipients : list SplitRecipient.t) : N :=
  fold_right (fun r acc => SplitRecipient.basisPoints r + acc) 0 recipients.

(** Pushing the shares out one recipient after the other. *)
Fixpoint spec_payShares {W} `{Chain W} (self : address) (w : W)
  (recipients : list SplitRecipient.t) (totalAmount : N) : result W :=
  match recipients with
  | [] => Ok w
  | r :: rest =>
      w <- safeTransfer w self (SplitRecipient.recipient r) (spec_share totalAmount r) ;;
      spec_payShares self w rest totalAmount
  end.

(** ** A test chain

    A small token with balances and allowances, EIP-3009 authorizations that
    are accepted when the signature is not empty, a registry of free active
    agents, and two condition contracts (at [condTrue] and [condFalse]).  It
    is used to run the contracts on concrete inputs. *)

Module Sim.
Record t : Type := mk {
  balances : gmap N N;
  allowances : gmap (N * N) N;
  authorizations : gmap (N * N) bool;
  agents : list N
}.

Definition balance (w : t) (a : N) : N := default 0 (balances w !! a).
Definition allowance (w : t) (owner spender : N) : N :=
  default 0 (allowances w !! (owner, spender)).

Definition move (w : t) (from to amount : N) : gmap N N :=
  let b := <[from := balance w from - amount]> (balances w) in
  <[to := default 0 (b !! to) + amount]> b.

Definition transfer (w : t) (sender to amount : N) : option (bool * t) :=
  if (amount <=? balance w sender) && negb (to =? 0)
  then Some (true, mk (move w sender to amount) (allowances w) (authorizations w) (agents w))
  else None.

Definition transferFrom (w : t) (sender from to amount : N) : option (bool * t) :=
  if (amount <=? balance w from) && (amount <=? allowance w from sender) && negb (to =? 0)
  then Some (true,
             mk (move w from to amount)
                (<[(from, sender) := allowance w from sender - amount]> (allowances w))
                (authorizations w) (agents w))
  else None.

Definition transferWithAuthorization (w : t) (sender now from to value validAfter
  validBefore nonce : N) (signature : bytes) : option t :=
  if (validAfter <? now) && (now <? validBefore)
     && negb (default false (authorizations w !! (from, nonce)))
     && negb (Nat.eqb (length signature) 0)
     && (value <=? balance w from) && negb (to =? 0)
  then Some (mk (move w from to value) (allowances w)
               (<[(from, nonce) := true]> (authorizations w)) (agents w))
  else None.

Definition recordCall (w : t) (sender now agentId : N) : option t :=
  if existsb (N.eqb agentId) (agents w) then Some w else None.

Definition condTrue : N := 1001.
Definition condFalse : N := 1002.

Definition staticcall (w : t) (now target : N) (data : bytes) : bool * bytes :=
  if target =? condTrue then (true, abi_encode_word 1)
  else if target =? condFalse then (true, abi_encode_word 0)
  else (false, []).

Definition lowLevelCall (w : t) (sender now target value gas : N) (data : bytes)
  : bool * t :=
  (negb (target =? 0), w).

Definition empty : t := mk ∅ ∅ ∅ [].
End Sim.

#[export] Instance SimChain : Chain Sim.t := {
  erc20_transfer := Sim.transfer;
  erc20_transferFrom := Sim.transferFrom;
  erc20_balanceOf := Sim.balance;
  erc3009_transferWithAuthorization := Sim.transferWithAuthorization;
  registry_recordCall := Sim.recordCall;
  evm_staticcall := Sim.staticcall;
  evm_call := Sim.lowLevelCall
}.

(** A stand-in for [keccak256] over packed items. *)
Definition packedCode (p : packed) : N :=
  match p with
  | PAddress a => 4 * a
  | PUint v => 4 * v + 1
  | PBytes32 v => 4 * v + 2
  | PString s => 4 * N.of_nat (String.length s) + 3
  end.

Definition simHash (items : list packed) : N :=
  fold_left (fun acc p => acc * 1000003 + packedCode p) items 7.

Definition emptyRouter (w : Sim.t) : Router.t Sim.t :=
  Router.mk w ∅ ∅ ∅ ∅ ∅ ∅ ∅ 0 0.

Definition emptyEngine (w : Sim.t) : Engine.t Sim.t :=
  Engine.mk w ∅ ∅ ∅ [] 1000000000000000 0 0.

(** ** Scenarios on the test chain *)

Module Scenario.
Definition router : address := 99.
Definition alice : address := 11.
Definition bob : address := 12.
Definition carol : address := 13.
Definition dave : address := 14.

(** Alice and Carol hold 1000 tokens each and have approved the router. *)
Definition funded : Sim.t :=
  Sim.mk (<[alice := 1000]> (<[carol := 1000]> ∅))
    (<[(alice, router) := 1000]> (<[(carol, router) := 1000]> ∅)) ∅ [].

(** The id of the stream Alice opens for Bob at time 0. *)
Definition aliceStream : bytes32 :=
  simHash [PAddress alice; PAddress bob; PUint 0; PString "STREAM"].

(** Alice streams 1000 to Bob and Carol 1000 to Dave, both over 100 seconds;
    Bob claims at time 30; Alice cancels her stream at time 50. *)
Definition streamThenCancel : list (address * N * RouterCall) :=
  [ (alice, 0, CreateStreamingPayment bob 1000 100);
    (carol, 0, CreateStreamingPayment dave 1000 100);
    (bob, 30, ClaimStreamingPayment aliceStream);
    (alice, 50, CancelPayment aliceStream) ].

(** The two streams open, nothing claimed yet. *)
Definition streams : Router.t Sim.t :=
  transactAll router simHash (emptyRouter funded)
    [ (alice, 0, CreateStreamingPayment bob 1000 100);
      (carol, 0, CreateStreamingPayment dave 1000 100) ].

(** Alice escrows 400 for Bob with no condition contract. *)
Definition aliceConditional : bytes32 :=
  simHash [PAddress alice; PAddress bob; PUint 0; PString "CONDITIONAL"].

Definition unconditional : Router.t Sim.t :=
  transactAll router simHash (emptyRouter funded)
    [ (alice, 0, CreateConditionalPayment bob 400 0 []) ].

(** Alice subscribes Bob to three payments of 100, ten seconds apart, at
    time 100. *)
Definition aliceRecurring : bytes32 :=
  simHash [PAddress alice; PAddress bob; PUint 100; PString "RECURRING"].

Definition subscribed : Router.t Sim.t :=
  transactAll router simHash (emptyRouter funded)
    [ (alice, 100, CreateRecurringPayment bob 100 10 3) ].

(** The three installments, executed by Carol at 100, by Dave at 110 and by
    Bob at 125. *)
Definition paid1 : Router.t Sim.t :=
  transact router simHash subscribed (carol, 100, ExecuteRecurringPayment aliceRecurring).
Definition paid2 : Router.t Sim.t :=
  transact router simHash paid1 (dave, 110, ExecuteRecurringPayment aliceRecurring).
Definition paid3 : Router.t Sim.t :=
  transact router simHash paid2 (bob, 125, ExecuteRecurringPayment aliceRecurring).

(** The first installment executed late instead, at time 150. *)
Definition paidLate : Router.t Sim.t :=
  transact router simHash subscribed (bob, 150, ExecuteRecurringPayment aliceRecurring).

(** A split of 1000 by Alice at time 5, 70% to Bob and 30% to Dave. *)
Definition aliceSplit : bytes32 :=
  simHash [PAddress alice; PUint 5; PUint 1000; PString "SPLIT"].

Definition seventyThirty : list SplitRecipient.t :=
  [SplitRecipient.mk bob 7000; SplitRecipient.mk dave 3000].

Definition splitDone : Router.t Sim.t :=
  transactAll router simHash (emptyRouter funded)
    [ (alice, 5, CreateSplitPayment seventyThirty 1000) ].

(** Three recipients whose shares of 100 leave one unit of dust. *)
Definition thirds : list SplitRecipient.t :=
  [SplitRecipient.mk bob 3333; SplitRecipient.mk dave 3333; SplitRecipient.mk carol 3334].

(** The workflow engine, and a two-step workflow of Alice: a call to an agent
    that is not registered, with no failure handler, then a swap. *)
Definition engine : address := 98.

Definition callUnknownAgent : WorkflowStep.t :=
  WorkflowStep.mk StepType.CALL_AGENT 5 0 [] 0 0 ConditionType.CUSTOM [] 1 MAX_UINT256.

Definition swap : WorkflowStep.t :=
  WorkflowStep.mk StepType.SWAP 0 0 [] 0 0 ConditionType.CUSTOM [] MAX_UINT256 MAX_UINT256.

Definition twoSteps : bytes32 := simHash [PAddress alice; PUint 0; PString "two steps"].

Definition withTwoSteps : Engine.t Sim.t :=
  match createWorkflow simHash (emptyEngine funded) alice 0 "two steps" ""
          [callUnknownAgent; swap] with
  | Ok (_, s, _) => s
  | Fail _ => emptyEngine funded
  end.

(** A condition step "block time after 100" whose failure edge is the
    sentinel, followed by a swap. *)
Definition after100 : WorkflowStep.t :=
  WorkflowStep.mk StepType.CONDITION 0 0 [] 0 0 ConditionType.TIME_GT
    (abi_encode_word 100) 1 MAX_UINT256.

(** The same condition with step 1 as its failure edge. *)
Definition after100Else1 : WorkflowStep.t :=
  WorkflowStep.mk StepType.CONDITION 0 0 [] 0 0 ConditionType.TIME_GT
    (abi_encode_word 100) MAX_UINT256 1.

Definition startOf (w : Sim.t) : Loop.t Sim.t :=
  Loop.mk true 0 (WorkflowExecution.mk 1 alice 0 0 0 false false "" 50 0) w [].

(** Alice cancels her subscription at time 105, after the first installment. *)
Definition unsubscribed : Router.t Sim.t :=
  transact router simHash paid1 (alice, 105, CancelPayment aliceRecurring).

(** Alice's escrow released by Dave at time 5. *)
Definition released : Router.t Sim.t :=
  transact router simHash unconditional
    (dave, 5, ReleaseConditionalPayment aliceConditional).

(** The same escrow guarded by a condition contract that answers [false],
    and by one that answers [true]. *)
Definition refused : Router.t Sim.t :=
  transactAll router simHash (emptyRouter funded)
    [ (alice, 0, CreateConditionalPayment bob 400 Sim.condFalse []) ].

Definition approved : Router.t Sim.t :=
  transactAll router simHash (emptyRouter funded)
    [ (alice, 0, CreateConditionalPayment bob 400 Sim.condTrue []) ].

(** The registry, deployed by Dave; Alice holds 1000 tokens and has approved
    the registry.  Bob registers an agent at time 7, at 200 per call. *)
Definition registry : address := 97.

Definition fundedForRegistry : Sim.t :=
  Sim.mk (<[alice := 1000]> ∅) (<[(alice, registry) := 1000]> ∅) ∅ [].

Definition freshRegistry : Registry.t Sim.t := Registry.deployed fundedForRegistry dave.

Definition bobAgent : bytes32 :=
  simHash [PAddress bob; PUint 7; PString "ipfs://agent"].

Definition withAgent : Registry.t Sim.t :=
  registryTransactAll registry simHash freshRegistry
    [ (bob, 7, RegisterAgent "ipfs://agent" ["defi"; "payments"] 200 bob) ].

(** Carol registers an agent at time 8 that names "payments" twice. *)
Definition carolAgent : bytes32 :=
  simHash [PAddress carol; PUint 8; PString "ipfs://c"].

Definition withTwoAgents : Registry.t Sim.t :=
  registryTransact registry simHash withAgent
    (carol, 8, RegisterAgent "ipfs://c" ["payments"; "payments"] 50 carol).

(** Carol rates Bob's agent 2, then 1. *)
Definition ratedTwo : Registry.t Sim.t :=
  registryTransact registry simHash withAgent (carol, 8, RateAgent bobAgent 2).
Definition ratedTwoOne : Registry.t Sim.t :=
  registryTransact registry simHash ratedTwo (carol, 9, RateAgent bobAgent 1).

(** Bob switches his agent off, and on again. *)
Definition agentOff : Registry.t Sim.t :=
  registryTransact registry simHash withAgent (bob, 8, DeactivateAgent bobAgent).
Definition agentOn : Registry.t Sim.t :=
  registryTransact registry simHash agentOff (bob, 9, ActivateAgent bobAgent).

(** Alice calls Bob's agent at time 9. *)
Definition called : Registry.t Sim.t :=
  registryTransact registry simHash withAgent (alice, 9, RecordCall bobAgent).

(** A workflow of Alice that waits for time 100 by pointing the failure edge
    of its DELAY step back at the step. *)
Definition waitUntil100 : WorkflowStep.t :=
  WorkflowStep.mk StepType.DELAY 0 0 (abi_encode_word 100) 0 0 ConditionType.CUSTOM []
    MAX_UINT256 0.

Definition waitId : bytes32 := simHash [PAddress alice; PUint 0; PString "wait"].

Definition waiting : Engine.t Sim.t :=
  match createWorkflow simHash (emptyEngine funded) alice 0 "wait" "" [waitUntil100] with
  | Ok (_, s, _) => s
  | Fail _ => emptyEngine funded
  end.



(** Alice's two-step workflow, deactivated by her. *)
Definition deactivated : Engine.t Sim.t :=
  match deactivateWorkflow withTwoSteps alice twoSteps with
  | Ok (s, _) => s
  | Fail _ => withTwoSteps
  end.

(** "batch", created by Alice twice at time 0 with 20 swaps each time. *)
Definition batch : bytes32 := simHash [PAddress alice; PUint 0; PString "batch"].

Definition batchOnce : Engine.t Sim.t :=
  match createWorkflow simHash (emptyEngine funded) alice 0 "batch" "one"
          (replicate 20 swap) with
  | Ok (_, s, _) => s
  | Fail _ => emptyEngine funded
  end.

Definition batchTwice : Engine.t Sim.t :=
  match createWorkflow simHash batchOnce alice 0 "batch" "two" (replicate 20 swap) with
  | Ok (_, s, _) => s
  | Fail _ => batchOnce
  end.





(** Alice's check-then-swap workflow run from step 0 at time 150. *)


(** Alice's stream alone, and the two streams after Alice cancels hers at
    time 50 with nothing claimed. *)
Definition aliceStreaming : Router.t Sim.t :=
  transactAll router simHash (emptyRouter funded)
    [ (alice, 0, CreateStreamingPayment bob 1000 100) ].

Definition cancelledStream : Router.t Sim.t :=
  transact router simHash streams (alice, 50, CancelPayment aliceStream).

(** Dave, the registry's owner, raises the platform fee to the maximum. *)
Definition feeAtMax : Registry.t Sim.t :=
  registryTransact registry simHash withAgent (dave, 8, SetPlatformFeeRate 1000).
End Scenario.

(** * Properties *)

(** ** The transaction monad *)

Lemma bind_ok {A B : Type} (r : result A) (k : A -> result B) (b : B) :
  bind r k = Ok b <-> exists a, r = Ok a /\ k a = Ok b.
Proof.
  destruct r as [a|f]; simpl; split.
  - intros Hk. exists a. split; [reflexivity | exact Hk].
  - intros (a' & Ha & Hk). injection Ha as ->. exact Hk.
  - discriminate.
  - intros (a' & Ha & _). discriminate Ha.
Qed.

Lemma require_ok (cond : bool) (reason : string) (u : unit) :
  require cond reason = Ok u <-> cond = true.
Proof. destruct cond, u; simpl; split; congruence. Qed.

Lemma require_false (reason : string) : require false reason = Fail (Error reason).
Proof. reflexivity. Qed.

Lemma checked_add_ok (a b c : N) :
  checked_add a b = Ok c <-> c = a + b /\ a + b <= MAX_UINT256.
Proof.
  unfold checked_add. destruct (N.leb_spec (a + b) MAX_UINT256); split.
  - intros [= <-]. split; [reflexivity | assumption].
  - intros [-> _]. reflexivity.
  - discriminate.
  - intros [_ Hle]. lia.
Qed.

Lemma checked_sub_ok (a b c : N) :
  checked_sub a b = Ok c <-> c = a - b /\ b <= a.
Proof.
  unfold checked_sub. destruct (N.leb_spec b a); split.
  - intros [= <-]. split; [reflexivity | assumption].
  - intros [-> _]. reflexivity.
  - discriminate.
  - intros [_ Hle]. lia.
Qed.

Lemma checked_mul_ok (a b c : N) :
  checked_mul a b = Ok c <-> c = a * b /\ a * b <= MAX_UINT256.
Proof.
  unfold checked_mul. destruct (N.leb_spec (a * b) MAX_UINT256); split.
  - intros [= <-]. split; [reflexivity | assumption].
  - intros [-> _]. reflexivity.
  - discriminate.
  - intros [_ Hle]. lia.
Qed.

Lemma checked_div_ok (a b c : N) :
  checked_div a b = Ok c <-> c = a / b /\ b <> 0.
Proof.
  unfold checked_div. destruct (N.eqb_spec b 0); split.
  - discriminate.
  - intros [_ Hne]. contradiction.
  - intros [= <-]. split; [reflexivity | assumption].
  - intros [-> _]. reflexivity.
Qed.

(** Taking a successful run apart, one [bind] at a time. *)
Ltac inv_ok H :=
  repeat
    match type of H with
    | bind (require ?c ?m) _ = Ok _ =>
        let Hc := fresh "Hreq" in
        destruct c eqn:Hc; [cbn [require bind] in H | discriminate H]
    | bind ?r _ = Ok _ =>
        let a := fresh "a" in
        let Ha := fresh "Hbind" in
        destruct r as [a|] eqn:Ha; [cbn [bind] in H | discriminate H]
    | Fail _ = Ok _ => discriminate H
    end.

(** ** Streaming payments *)

Section StreamingProperties.
Context {W : Type} `{HChain : Chain W}.
Variable self : address.
Variable keccak256 : list packed -> bytes32.

(** When [streamClaimable] returns, the stream runs forward in time, and the
    result is the specification's [claimable]; the vested amount never
    exceeds the total. *)
Lemma streamClaimable_ok (stream : StreamingPayment.t) (now c : N) :
  streamClaimable stream now = Ok c ->
  StreamingPayment.startTime stream < StreamingPayment.endTime stream
  /\ StreamingPayment.startTime stream <= now
  /\ Z.of_N c = spec_claimable stream now
  /\ Z.of_N (StreamingPayment.claimedAmount stream + c) = spec_vested stream now
  /\ StreamingPayment.claimedAmount stream + c <= StreamingPayment.totalAmount stream.
Proof.
  unfold streamClaimable, streamElapsed, spec_claimable, spec_vested, spec_elapsed.
  destruct stream as [pid rcp total claimed start stop last]; simpl.
  intros H. inv_ok H.
  apply checked_sub_ok in H as [-> Hclaimed].
  apply checked_div_ok in Hbind2 as [-> Hduration].
  apply checked_mul_ok in Hbind1 as [-> _].
  apply checked_sub_ok in Hbind0 as [-> Hstop].
  assert (Hlt : start < stop) by lia.
  assert (Helapsed : a = N.min now stop - start /\ start <= now).
  { destruct (N.ltb_spec stop now);
      [injection Hbind as <- | apply checked_sub_ok in Hbind as [-> ?]];
      split; lia. }
  destruct Helapsed as [-> Hstart].
  assert (Hvested : total * (N.min now stop - start) / (stop - start) <= total).
  { apply N.Div0.div_le_upper_bound.
    rewrite (N.mul_comm (stop - start)).
    apply N.mul_le_mono_l. lia. }
  repeat split; try lia.
  - rewrite N2Z.inj_sub by assumption.
    rewrite N2Z.inj_div, N2Z.inj_mul, !N2Z.inj_sub, N2Z.inj_min by lia.
    reflexivity.
  - replace (claimed + (total * (N.min now stop - start) / (stop - start) - claimed))
      with (total * (N.min now stop - start) / (stop - start)) by lia.
    rewrite N2Z.inj_div, N2Z.inj_mul, !N2Z.inj_sub, N2Z.inj_min by lia.
    reflexivity.
Qed.

(** What a successful claim did. *)
Lemma claimStreamingPayment_ok (s s' : Router.t W) (sender now paymentId : N) :
  claimStreamingPayment self s sender now paymentId = Ok s' ->
  let stream := Router.streaming s paymentId in
  exists claimable : N,
    streamClaimable stream now = Ok claimable
    /\ 0 < claimable
    /\ StreamingPayment.recipient stream = sender
    /\ StreamingPayment.claimedAmount stream < StreamingPayment.totalAmount stream
    /\ safeTransfer (Router.chain s) self sender claimable = Ok (Router.chain s')
    /\ Router.streaming s' paymentId =
         StreamingPayment.set_lastClaimTime now
           (StreamingPayment.set_claimedAmount
              (StreamingPayment.claimedAmount stream + claimable) stream)
    /\ Router.payment s' paymentId =
         let released :=
           Payment.set_releasedAmount
             (StreamingPayment.claimedAmount stream + claimable)
             (Router.payment s paymentId) in
         if StreamingPayment.totalAmount stream
              <=? StreamingPayment.claimedAmount stream + claimable
         then Payment.set_completedAt now (Payment.set_isCompleted true released)
         else released.
Proof.
  unfold claimStreamingPayment. intros H. inv_ok H.
  apply checked_add_ok in Hbind0 as [-> _].
  injection H as <-.
  cbn [StreamingPayment.set_claimedAmount StreamingPayment.set_lastClaimTime
       StreamingPayment.totalAmount StreamingPayment.claimedAmount] in *.
  exists a. repeat split.
  - apply N.ltb_lt. assumption.
  - apply N.eqb_eq. assumption.
  - apply N.ltb_lt. assumption.
  - cbn [Router.chain Router.set_chain]. rewrite <- Hbind1.
    destruct (_ <=? _); reflexivity.
  - unfold Router.streaming at 1. simpl.
    destruct (_ <=? _); simpl; rewrite lookup_insert_eq; reflexivity.
  - unfold Router.payment at 1. simpl.
    destruct (_ <=? _); simpl.
    + rewrite lookup_insert_eq. simpl. unfold Router.payment at 1. simpl.
      rewrite lookup_insert_eq. reflexivity.
    + rewrite lookup_insert_eq. reflexivity.
Qed.

(** A claim goes through as soon as the stream has started, something has
    vested beyond what was claimed, the product [totalAmount * elapsed] fits
    in 256 bits and the token transfer succeeds. *)
Lemma claimStreamingPayment_succeeds (s : Router.t W) (sender now paymentId : N) (w : W) :
  let stream := Router.streaming s paymentId in
  let elapsed := N.min now (StreamingPayment.endTime stream)
                 - StreamingPayment.startTime stream in
  let vested := StreamingPayment.totalAmount stream * elapsed
                / (StreamingPayment.endTime stream - StreamingPayment.startTime stream) in
  StreamingPayment.recipient stream = sender ->
  StreamingPayment.startTime stream < StreamingPayment.endTime stream ->
  StreamingPayment.startTime stream <= now ->
  StreamingPayment.totalAmount stream * elapsed <= MAX_UINT256 ->
  StreamingPayment.claimedAmount stream < vested ->
  safeTransfer (Router.chain s) self sender
    (vested - StreamingPayment.claimedAmount stream) = Ok w ->
  exists s' : Router.t W,
    claimStreamingPayment self s sender now paymentId = Ok s'
    /\ Router.chain s' = w.
Proof.
  intros stream elapsed vested Hrecipient Hduration Hstarted Hfits Hvested Htransfer.
  assert (Hle : vested <= StreamingPayment.totalAmount stream).
  { apply N.Div0.div_le_upper_bound.
    rewrite (N.mul_comm (_ - _)). apply N.mul_le_mono_l. subst elapsed. lia. }
  assert (Hclaimable : streamClaimable stream now
                       = Ok (vested - StreamingPayment.claimedAmount stream)).
  { unfold streamClaimable, streamElapsed.
    assert (Helapsed : (if StreamingPayment.endTime stream <? now
                        then checked_sub (StreamingPayment.endTime stream)
                               (StreamingPayment.startTime stream)
                        else checked_sub now (StreamingPayment.startTime stream))
                       = Ok elapsed).
    { subst elapsed. unfold checked_sub.
      destruct (N.ltb_spec (StreamingPayment.endTime stream) now).
      - rewrite N.min_r by lia.
        destruct (N.leb_spec (StreamingPayment.startTime stream)
                    (StreamingPayment.endTime stream)); [reflexivity | lia].
      - rewrite N.min_l by lia.
        destruct (N.leb_spec (StreamingPayment.startTime stream) now);
          [reflexivity | lia]. }
    rewrite Helapsed. cbn [bind]. unfold checked_sub at 1.
    destruct (N.leb_spec (StreamingPayment.startTime stream)
                (StreamingPayment.endTime stream)); [| lia].
    cbn [bind]. unfold checked_mul.
    destruct (N.leb_spec (StreamingPayment.totalAmount stream * elapsed) MAX_UINT256);
      [| lia].
    cbn [bind]. unfold checked_div.
    destruct (N.eqb_spec (StreamingPayment.endTime stream
                          - StreamingPayment.startTime stream) 0); [lia |].
    cbn [bind]. fold vested. unfold checked_sub.
    destruct (N.leb_spec (StreamingPayment.claimedAmount stream) vested);
      [reflexivity | lia]. }
  assert (Hposs : vested <= MAX_UINT256).
  { etransitivity; [| exact Hfits]. apply N.Div0.div_le_upper_bound.
    apply N.le_mul_l. lia. }
  unfold claimStreamingPayment. fold stream.
  rewrite Hclaimable.
  replace (StreamingPayment.recipient stream =? sender) with true
    by (symmetry; apply N.eqb_eq; exact Hrecipient).
  replace (StreamingPayment.claimedAmount stream <? StreamingPayment.totalAmount stream)
    with true by (symmetry; apply N.ltb_lt; lia).
  cbn [require bind].
  replace (0 <? vested - StreamingPayment.claimedAmount stream) with true
    by (symmetry; apply N.ltb_lt; lia).
  cbn [require bind]. unfold checked_add.
  replace (StreamingPayment.claimedAmount stream
           + (vested - StreamingPayment.claimedAmount stream) <=? MAX_UINT256)
    with true by (symmetry; apply N.leb_le; lia).
  cbn [bind].
  match goal with
  | |- context [safeTransfer ?c self sender _] =>
      replace c with (Router.chain s) by (destruct (_ <=? _); reflexivity)
  end.
  rewrite Htransfer. cbn [bind]. eexists. split; reflexivity.
Qed.

(** C7.  A claim by the stream's recipient computes the specification's
    [elapsed], [vested] and [claimable]; it fails when [claimable <= 0];
    when it succeeds it transfers exactly [claimable] to the recipient, adds
    [claimable] to [claimedAmount], sets [lastClaimTime] to the current
    time, records the new [claimedAmount] as the payment's released amount,
    and marks the payment completed (at the current time) exactly when the
    new [claimedAmount] has reached [totalAmount]. *)
Theorem claimStreamingPayment_spec (s : Router.t W) (sender now paymentId : N) :
  let stream := Router.streaming s paymentId in
  StreamingPayment.recipient stream = sender ->
  ((spec_claimable stream now <= 0)%Z ->
   is_ok (claimStreamingPayment self s sender now paymentId) = false)
  /\ (forall s' : Router.t W,
        claimStreamingPayment self s sender now paymentId = Ok s' ->
        exists claimable : N,
          Z.of_N claimable = spec_claimable stream now
          /\ 0 < claimable
          /\ safeTransfer (Router.chain s) self (StreamingPayment.recipient stream)
               claimable = Ok (Router.chain s')
          /\ Router.streaming s' paymentId =
               StreamingPayment.mk (StreamingPayment.paymentId stream)
                 (StreamingPayment.recipient stream)
                 (StreamingPayment.totalAmount stream)
                 (StreamingPayment.claimedAmount stream + claimable)
                 (StreamingPayment.startTime stream)
                 (StreamingPayment.endTime stream) now
          /\ Payment.releasedAmount (Router.payment s' paymentId) =
               StreamingPayment.claimedAmount stream + claimable
          /\ (StreamingPayment.totalAmount stream
                <= StreamingPayment.claimedAmount stream + claimable ->
              Payment.isCompleted (Router.payment s' paymentId) = true
              /\ Payment.completedAt (Router.payment s' paymentId) = now)
          /\ (StreamingPayment.claimedAmount stream + claimable
                < StreamingPayment.totalAmount stream ->
              Payment.isCompleted (Router.payment s' paymentId) =
                Payment.isCompleted (Router.payment s paymentId)
              /\ Payment.completedAt (Router.payment s' paymentId) =
                   Payment.completedAt (Router.payment s paymentId))).
Proof.
  intros stream Hrecipient. split.
  - intros Hnone.
    destruct (claimStreamingPayment self s sender now paymentId) as [s'|f] eqn:Hclaim;
      [exfalso | reflexivity].
    apply claimStreamingPayment_ok in Hclaim as (c & Hc & Hpos & _).
    apply streamClaimable_ok in Hc as (_ & _ & Hspec & _).
    fold stream in Hspec. lia.
  - intros s' Hclaim.
    apply claimStreamingPayment_ok in Hclaim
      as (c & Hc & Hpos & _ & _ & Htransfer & Hstream & Hpayment).
    apply streamClaimable_ok in Hc as (_ & _ & Hspec & _).
    fold stream in Hspec, Htransfer, Hstream, Hpayment.
    exists c.
    split; [exact Hspec |]. split; [exact Hpos |].
    split; [rewrite Hrecipient; exact Htransfer |].
    split; [rewrite Hstream; reflexivity |].
    rewrite Hpayment.
    split; [simpl; destruct (_ <=? _); reflexivity |].
    split; intros Hcmp.
    + apply N.leb_le in Hcmp. simpl. rewrite Hcmp. split; reflexivity.
    + apply N.leb_gt in Hcmp. simpl. rewrite Hcmp. split; reflexivity.
Qed.

(** One claim attempt, successful or not, keeps the stream's total, does not
    lower [claimedAmount] and keeps it within the total. *)
Lemma claim_attempt_monotone (s : Router.t W) (sender now paymentId : N) :
  let s' := transact self keccak256 s (sender, now, ClaimStreamingPayment paymentId) in
  StreamingPayment.totalAmount (Router.streaming s' paymentId)
    = StreamingPayment.totalAmount (Router.streaming s paymentId)
  /\ StreamingPayment.claimedAmount (Router.streaming s paymentId)
       <= StreamingPayment.claimedAmount (Router.streaming s' paymentId)
  /\ (StreamingPayment.claimedAmount (Router.streaming s paymentId)
        <= StreamingPayment.totalAmount (Router.streaming s paymentId) ->
      StreamingPayment.claimedAmount (Router.streaming s' paymentId)
        <= StreamingPayment.totalAmount (Router.streaming s paymentId)).
Proof.
  unfold transact, call.
  destruct (claimStreamingPayment self s sender now paymentId) as [s'|f] eqn:Hclaim.
  - apply claimStreamingPayment_ok in Hclaim as (c & Hc & _ & _ & _ & _ & Hstream & _).
    apply streamClaimable_ok in Hc as (_ & _ & _ & _ & Hbound).
    rewrite Hstream. simpl. repeat split; lia.
  - repeat split; [reflexivity | intros; assumption].
Qed.

(** C8.  Along any sequence of claims on a stream, made by any callers at
    any times (in any order of times), [totalAmount] stays the same,
    [claimedAmount] never decreases and it never exceeds [totalAmount]. *)
Theorem claimedAmount_monotone_bounded (s : Router.t W) (paymentId : N)
  (earlier later : list (address * N)) :
  StreamingPayment.claimedAmount (Router.streaming s paymentId)
    <= StreamingPayment.totalAmount (Router.streaming s paymentId) ->
  let s1 := transactAll self keccak256 s (claimCalls paymentId earlier) in
  let s2 := transactAll self keccak256 s1 (claimCalls paymentId later) in
  let total := StreamingPayment.totalAmount (Router.streaming s paymentId) in
  StreamingPayment.totalAmount (Router.streaming s1 paymentId) = total
  /\ StreamingPayment.totalAmount (Router.streaming s2 paymentId) = total
  /\ StreamingPayment.claimedAmount (Router.streaming s paymentId)
       <= StreamingPayment.claimedAmount (Router.streaming s1 paymentId)
  /\ StreamingPayment.claimedAmount (Router.streaming s1 paymentId)
       <= StreamingPayment.claimedAmount (Router.streaming s2 paymentId)
  /\ StreamingPayment.claimedAmount (Router.streaming s2 paymentId) <= total.
Proof.
  assert (Hrun : forall (calls : list (address * N)) (s0 : Router.t W),
             StreamingPayment.claimedAmount (Router.streaming s0 paymentId)
               <= StreamingPayment.totalAmount (Router.streaming s0 paymentId) ->
             let s' := transactAll self keccak256 s0 (claimCalls paymentId calls) in
             StreamingPayment.totalAmount (Router.streaming s' paymentId)
               = StreamingPayment.totalAmount (Router.streaming s0 paymentId)
             /\ StreamingPayment.claimedAmount (Router.streaming s0 paymentId)
                  <= StreamingPayment.claimedAmount (Router.streaming s' paymentId)
             /\ StreamingPayment.claimedAmount (Router.streaming s' paymentId)
                  <= StreamingPayment.totalAmount (Router.streaming s0 paymentId)).
  { induction calls as [|[sender now] calls IH]; intros s0 Hinv.
    - simpl. repeat split; [reflexivity | assumption].
    - destruct (claim_attempt_monotone s0 sender now paymentId) as (Htotal & Hmono & Hbound).
      specialize (Hbound Hinv).
      change (transactAll self keccak256 s0 (claimCalls paymentId ((sender, now) :: calls)))
        with (transactAll self keccak256
                (transact self keccak256 s0 (sender, now, ClaimStreamingPayment paymentId))
                (claimCalls paymentId calls)).
      set (s1 := transact self keccak256 s0 (sender, now, ClaimStreamingPayment paymentId)) in *.
      destruct (IH s1) as (Htotal' & Hmono' & Hbound'); [rewrite Htotal; assumption |].
      cbv zeta. rewrite Htotal', Htotal.
      split; [reflexivity |]. split; [etransitivity; eassumption |].
      rewrite <- Htotal. assumption. }
  intros Hinv s1 s2 total.
  destruct (Hrun earlier s Hinv) as (Ht1 & Hm1 & Hb1). fold s1 in Ht1, Hm1, Hb1.
  destruct (Hrun later s1) as (Ht2 & Hm2 & Hb2); [rewrite Ht1; assumption |].
  fold s2 in Ht2, Hm2, Hb2. subst total.
  rewrite Ht2, Ht1 in *. repeat split; assumption.
Qed.

End StreamingProperties.

(** ** Cancellation *)

Section CancelProperties.
Context {W : Type} `{HChain : Chain W}.
Variable self : address.

(** A successful [cancelPayment] was sent by the payer of a payment that was
    neither completed nor cancelled; it refunds exactly
    [totalAmount - releasedAmount] to the payer (no transfer is made for a
    zero refund), marks the payment cancelled, and leaves the stream record
    of the payment as it was. *)
Lemma cancelPayment_ok (s s' : Router.t W) (sender now paymentId : N) :
  cancelPayment self s sender now paymentId = Ok s' ->
  let payment := Router.payment s paymentId in
  let refundAmount := Payment.totalAmount payment - Payment.releasedAmount payment in
  Payment.payer payment = sender
  /\ Payment.isCompleted payment = false
  /\ Payment.isCancelled payment = false
  /\ Payment.releasedAmount payment <= Payment.totalAmount payment
  /\ (if 0 <? refundAmount
      then safeTransfer (Router.chain s) self sender refundAmount
      else Ok (Router.chain s)) = Ok (Router.chain s')
  /\ Router.payment s' paymentId =
       Payment.set_completedAt now (Payment.set_isCancelled true payment)
  /\ Router.streaming s' paymentId = Router.streaming s paymentId.
Proof.
  unfold cancelPayment. intros H. inv_ok H.
  apply checked_sub_ok in Hbind as [-> Hle].
  apply andb_true_iff in Hreq0 as [Hcompleted Hcancelled].
  apply negb_true_iff in Hcompleted, Hcancelled.
  apply N.eqb_eq in Hreq.
  cbn [Router.chain Router.set_payments] in Hbind0.
  assert (Hs' : Router.chain s' = a0
                /\ Router.payments s' =
                     <[paymentId := Payment.set_completedAt now
                                      (Payment.set_isCancelled true
                                         (Router.payment s paymentId))]>
                       (Router.payments s)
                /\ Router.streamingPayments s' = Router.streamingPayments s).
  { destruct (PaymentType.eqb _ _); injection H as <-; repeat split. }
  destruct Hs' as (Hchain & Hpayments & Hstreams).
  repeat split; try assumption.
  - rewrite Hchain. exact Hbind0.
  - unfold Router.payment at 1. rewrite Hpayments, lookup_insert_eq. reflexivity.
  - unfold Router.streaming. rewrite Hstreams. reflexivity.
Qed.

End CancelProperties.

(** C1.  The refund half of the claim holds ([cancelPayment_ok]); the other
    half does not.  On the test chain Alice streams 1000 to Bob, Bob claims
    300 at time 30 and Alice cancels at time 50: she is refunded
    [1000 - 300 = 700] and the payment is cancelled.  Bob's claim at time 80
    still succeeds and pays him 500 more, out of the tokens the router holds
    for Carol's stream. *)
Theorem cancelled_stream_still_claimable :
  exists s s' : Router.t Sim.t,
    callAll Scenario.router simHash (emptyRouter Scenario.funded)
      Scenario.streamThenCancel = Ok s
    /\ Payment.isCancelled (Router.payment s Scenario.aliceStream) = true
    /\ Payment.totalAmount (Router.payment s Scenario.aliceStream) = 1000
    /\ Payment.releasedAmount (Router.payment s Scenario.aliceStream) = 300
    /\ Sim.balance (Router.chain s) Scenario.alice = 700
    /\ Sim.balance (Router.chain s) Scenario.bob = 300
    /\ claimStreamingPayment Scenario.router s Scenario.bob 80 Scenario.aliceStream
       = Ok s'
    /\ Sim.balance (Router.chain s') Scenario.bob = 800
    /\ Sim.balance (Router.chain s') Scenario.router = 500
    /\ StreamingPayment.claimedAmount (Router.streaming s' Scenario.aliceStream) = 800.
Proof.
  eexists. eexists.
  split; [vm_compute; reflexivity |].
  split; [vm_compute; reflexivity |].
  split; [vm_compute; reflexivity |].
  split; [vm_compute; reflexivity |].
  split; [vm_compute; reflexivity |].
  split; [vm_compute; reflexivity |].
  split; [vm_compute; reflexivity |].
  repeat split; vm_compute; reflexivity.
Qed.

(** ** Gasless payments and the nonce record *)

Section NonceProperties.
Context {W : Type} `{HChain : Chain W}.
Variable self : address.
Variable keccak256 : list packed -> bytes32.

(** Closing a goal about a field that a successful run [H] did not write. *)
Ltac untouched H :=
  inv_ok H;
  repeat match type of H with
         | (if ?c then _ else _) = Ok _ => destruct c
         end;
  injection H; intros; subst; simpl;
  repeat match goal with
         | |- context [if ?c then _ else _] => destruct c
         end;
  reflexivity.

Lemma processX402Payment_ok (s s' : Router.t W) (sender now from to value
  validAfter validBefore nonce : N) (signature : bytes) :
  processX402Payment self s sender now from to value validAfter validBefore
    nonce signature = Ok s' ->
  Router.nonceUsed s nonce = false
  /\ validAfter <= now < validBefore
  /\ erc3009_transferWithAuthorization (Router.chain s) self now from to value
       validAfter validBefore nonce signature = Some (Router.chain s')
  /\ Router.usedNonces s' = <[nonce := true]> (Router.usedNonces s)
  /\ Router.totalPaymentsProcessed s' = Router.totalPaymentsProcessed s + 1
  /\ Router.totalVolumeProcessed s' = Router.totalVolumeProcessed s + value.
Proof.
  unfold processX402Payment. intros H. inv_ok H.
  apply negb_true_iff in Hreq. apply N.leb_le in Hreq0. apply N.ltb_lt in Hreq1.
  apply checked_add_ok in Hbind0 as [-> _], Hbind1 as [-> _].
  injection H as <-. simpl in *.
  destruct (erc3009_transferWithAuthorization _ _ _ _ _ _ _ _ _ _) as [w|];
    [injection Hbind as -> | discriminate Hbind].
  repeat split; assumption.
Qed.

(** No transaction ever clears a nonce. *)
Lemma call_keeps_nonce (s s' : Router.t W) (sender now : N) (c : RouterCall)
  (nonce : N) :
  call self keccak256 s sender now c = Ok s' ->
  Router.nonceUsed s nonce = true ->
  Router.nonceUsed s' nonce = true.
Proof.
  intros H Hused.
  assert (Hcases : Router.usedNonces s' = Router.usedNonces s
                   \/ exists n, Router.usedNonces s' = <[n := true]> (Router.usedNonces s)).
  { destruct c; simpl in H.
    - right. apply processX402Payment_ok in H as (_ & _ & _ & Hn & _). eauto.
    - left. unfold dropId in H.
      destruct (createSplitPayment _ _ _ _ _ _ _) as [[pid s1]|] eqn:Hc;
        [simpl in H; injection H as <- | discriminate H].
      unfold createSplitPayment in Hc. untouched Hc.
    - left. unfold dropId in H.
      destruct (createStreamingPayment _ _ _ _ _ _ _ _) as [[pid s1]|] eqn:Hc;
        [simpl in H; injection H as <- | discriminate H].
      unfold createStreamingPayment in Hc. untouched Hc.
    - left. unfold claimStreamingPayment in H. untouched H.
    - left. unfold dropId in H.
      destruct (createConditionalPayment _ _ _ _ _ _ _ _ _) as [[pid s1]|] eqn:Hc;
        [simpl in H; injection H as <- | discriminate H].
      unfold createConditionalPayment in Hc. untouched Hc.
    - left. unfold releaseConditionalPayment in H. untouched H.
    - left. unfold dropId in H.
      destruct (createRecurringPayment _ _ _ _ _ _ _ _ _) as [[pid s1]|] eqn:Hc;
        [simpl in H; injection H as <- | discriminate H].
      unfold createRecurringPayment in Hc. untouched Hc.
    - left. unfold executeRecurringPayment in H. untouched H.
    - left. unfold cancelPayment in H. untouched H. }
  unfold Router.nonceUsed in *.
  destruct Hcases as [-> | [n ->]]; [assumption |].
  destruct (decide (n = nonce)) as [-> | Hne].
  - rewrite lookup_insert_eq. reflexivity.
  - rewrite lookup_insert_ne by assumption. assumption.
Qed.

Lemma transactAll_keeps_nonce (txs : list (address * N * RouterCall))
  (s : Router.t W) (nonce : N) :
  Router.nonceUsed s nonce = true ->
  Router.nonceUsed (transactAll self keccak256 s txs) nonce = true.
Proof.
  revert s. induction txs as [|[[sender now] c] txs IH]; intros s Hused.
  - exact Hused.
  - apply IH. unfold transact.
    destruct (call self keccak256 s sender now c) as [s'|f] eqn:Hcall.
    + eapply call_keeps_nonce; eassumption.
    + assumption.
Qed.

Lemma transact_failed (s : Router.t W) (sender now : N) (c : RouterCall) :
  is_ok (call self keccak256 s sender now c) = false ->
  transact self keccak256 s (sender, now, c) = s.
Proof.
  unfold transact. destruct (call self keccak256 s sender now c); [discriminate | reflexivity].
Qed.

(** C2.  [processX402Payment] rejects an authorization whose nonce is
    recorded as used (with the reason "Nonce already used"), one that is not
    yet valid ([now < validAfter]) and one that has expired
    ([now >= validBefore]); a rejected transaction leaves the state as it
    was.  A successful submission records the nonce, and from then on, after
    any further transactions, by any sender and at any time, submitting the
    same authorization again fails with "Nonce already used": it succeeds at
    most once. *)
Theorem processX402Payment_replay_protection (s : Router.t W) (sender now from to
  value validAfter validBefore nonce : N) (signature : bytes) :
  let submit (s0 : Router.t W) (sender0 now0 : N) :=
    processX402Payment self s0 sender0 now0 from to value validAfter validBefore
      nonce signature in
  let tx :=
    (sender, now,
     ProcessX402Payment from to value validAfter validBefore nonce signature) in
  (Router.nonceUsed s nonce = true ->
   submit s sender now = Fail (Error "Nonce already used")
   /\ transact self keccak256 s tx = s)
  /\ (now < validAfter ->
      is_ok (submit s sender now) = false /\ transact self keccak256 s tx = s)
  /\ (validBefore <= now ->
      is_ok (submit s sender now) = false /\ transact self keccak256 s tx = s)
  /\ (forall s' : Router.t W,
        submit s sender now = Ok s' ->
        Router.nonceUsed s nonce = false
        /\ Router.nonceUsed s' nonce = true
        /\ forall (txs : list (address * N * RouterCall)) (sender' now' : N),
             Router.nonceUsed (transactAll self keccak256 s' txs) nonce = true
             /\ submit (transactAll self keccak256 s' txs) sender' now'
                = Fail (Error "Nonce already used")).
Proof.
  intros submit tx.
  assert (Hused : forall (s0 : Router.t W) (sender0 now0 : N),
             Router.nonceUsed s0 nonce = true ->
             submit s0 sender0 now0 = Fail (Error "Nonce already used")).
  { intros s0 sender0 now0 H0. unfold submit, processX402Payment.
    rewrite H0. reflexivity. }
  assert (Hearly : now < validAfter -> is_ok (submit s sender now) = false).
  { intros Hlt. destruct (submit s sender now) as [s'|f] eqn:Hs; [exfalso | reflexivity].
    apply processX402Payment_ok in Hs as (_ & Hwindow & _). lia. }
  assert (Hlate : validBefore <= now -> is_ok (submit s sender now) = false).
  { intros Hle. destruct (submit s sender now) as [s'|f] eqn:Hs; [exfalso | reflexivity].
    apply processX402Payment_ok in Hs as (_ & Hwindow & _). lia. }
  repeat split.
  - apply Hused. assumption.
  - apply transact_failed. simpl. fold (submit s sender now).
    rewrite Hused by assumption. reflexivity.
  - apply Hearly. assumption.
  - apply transact_failed. simpl. apply Hearly. assumption.
  - apply Hlate. assumption.
  - apply transact_failed. simpl. apply Hlate. assumption.
  - apply processX402Payment_ok in H as (Hfresh & _). exact Hfresh.
  - apply processX402Payment_ok in H as (_ & _ & _ & Hn & _).
    unfold Router.nonceUsed. rewrite Hn, lookup_insert_eq. reflexivity.
  - apply transactAll_keeps_nonce.
    apply processX402Payment_ok in H as (_ & _ & _ & Hn & _).
    unfold Router.nonceUsed. rewrite Hn, lookup_insert_eq. reflexivity.
  - apply Hused. apply transactAll_keeps_nonce.
    apply processX402Payment_ok in H as (_ & _ & _ & Hn & _).
    unfold Router.nonceUsed. rewrite Hn, lookup_insert_eq. reflexivity.
Qed.

End NonceProperties.

(** ** Recurring payments *)

Section RecurringProperties.
Context {W : Type} `{HChain : Chain W}.
Variable self : address.
Variable keccak256 : list packed -> bytes32.

(** What a successful [executeRecurringPayment] did. *)
Lemma executeRecurringPayment_ok (s s' : Router.t W) (sender now paymentId : N) :
  executeRecurringPayment self s sender now paymentId = Ok s' ->
  let r := Router.recurring s paymentId in
  let completed := RecurringPayment.completedPayments r + 1 in
  RecurringPayment.isActive r = true
  /\ RecurringPayment.nextPaymentTime r <= now
  /\ RecurringPayment.completedPayments r < RecurringPayment.totalPayments r
  /\ safeTransfer (Router.chain s) self (RecurringPayment.recipient r)
       (RecurringPayment.amount r) = Ok (Router.chain s')
  /\ Router.recurring s' paymentId =
       RecurringPayment.mk (RecurringPayment.id r) (RecurringPayment.payer r)
         (RecurringPayment.recipient r) (RecurringPayment.amount r)
         (RecurringPayment.interval r) (now + RecurringPayment.interval r)
         (RecurringPayment.totalPayments r) completed
         (negb (RecurringPayment.totalPayments r <=? completed))
  /\ Router.payment s' paymentId =
       (let paid :=
          Payment.set_releasedAmount
            (Payment.releasedAmount (Router.payment s paymentId)
             + RecurringPayment.amount r) (Router.payment s paymentId) in
        if RecurringPayment.totalPayments r <=? completed
        then Payment.set_completedAt now (Payment.set_isCompleted true paid)
        else paid).
Proof.
  unfold executeRecurringPayment. intros H. cbv zeta in *.
  remember (Router.recurring s paymentId) as r eqn:Hr.
  inv_ok H.
  apply N.leb_le in Hreq0. apply N.ltb_lt in Hreq1.
  apply checked_add_ok in Hbind0 as [-> _], Hbind1 as [-> _], Hbind2 as [-> _].
  cbn [RecurringPayment.set_completedPayments RecurringPayment.set_nextPaymentTime
       RecurringPayment.totalPayments RecurringPayment.completedPayments
       RecurringPayment.amount RecurringPayment.interval
       Router.chain Router.set_chain Router.payment Router.payments] in *.
  fold (Router.payment s paymentId) in *.
  destruct (RecurringPayment.totalPayments r
              <=? RecurringPayment.completedPayments r + 1) eqn:Hlast.
  all: injection H as <-; repeat split; try assumption.
  - unfold Router.recurring. simpl. rewrite lookup_insert_eq. reflexivity.
  - unfold Router.payment at 1. simpl. rewrite lookup_insert_eq.
    unfold Router.payment at 1. simpl. rewrite lookup_insert_eq. reflexivity.
  - unfold Router.recurring. simpl. rewrite lookup_insert_eq.
    rewrite <- Hreq. reflexivity.
  - unfold Router.payment at 1. simpl. rewrite lookup_insert_eq. reflexivity.
Qed.

(** The records a successful [createRecurringPayment] wrote. *)
Lemma createRecurringPayment_ok (s s' : Router.t W) (sender now recipient amount
  interval totalPayments paymentId : N) :
  createRecurringPayment self keccak256 s sender now recipient amount interval
    totalPayments = Ok (paymentId, s') ->
  Router.recurring s' paymentId =
    RecurringPayment.mk paymentId sender recipient amount interval now
      totalPayments 0 true
  /\ Router.payment s' paymentId =
       Payment.mk paymentId sender PaymentType.RECURRING (amount * totalPayments)
         0 now 0 false false.
Proof.
  unfold createRecurringPayment. intros H. inv_ok H.
  apply checked_mul_ok in Hbind as [-> _].
  injection H as <- <-. split.
  - unfold Router.recurring. simpl. rewrite lookup_insert_eq. reflexivity.
  - unfold Router.payment. simpl. rewrite lookup_insert_eq. reflexivity.
Qed.

(** C3, as the contract has it.  [executeRecurringPayment] fails when the
    payment is inactive, when [now < nextPaymentTime] and when
    [completedPayments] has reached [totalPayments].  When it succeeds it
    transfers exactly [amount] to the recipient, adds one to
    [completedPayments], and sets [nextPaymentTime] to [now + interval], the
    time of the execution plus the interval, not the previous
    [nextPaymentTime] plus the interval; it deactivates the schedule and
    completes the payment exactly when [completedPayments] has become
    [totalPayments].  A payment created with [totalPayments = 3] is completed
    by its third successful execution and not before, successive executions
    are at least [interval] apart, and every fourth execution is rejected. *)
Theorem executeRecurringPayment_spec (s : Router.t W) (sender now paymentId : N) :
  let execute (s0 : Router.t W) (sender0 now0 : N) :=
    executeRecurringPayment self s0 sender0 now0 paymentId in
  let r := Router.recurring s paymentId in
  (RecurringPayment.isActive r = false ->
   execute s sender now = Fail (Error "Not active"))
  /\ (now < RecurringPayment.nextPaymentTime r -> is_ok (execute s sender now) = false)
  /\ (RecurringPayment.totalPayments r <= RecurringPayment.completedPayments r ->
      is_ok (execute s sender now) = false)
  /\ (forall s' : Router.t W,
        execute s sender now = Ok s' ->
        let r' := Router.recurring s' paymentId in
        safeTransfer (Router.chain s) self (RecurringPayment.recipient r)
          (RecurringPayment.amount r) = Ok (Router.chain s')
        /\ RecurringPayment.completedPayments r'
           = RecurringPayment.completedPayments r + 1
        /\ RecurringPayment.nextPaymentTime r' = now + RecurringPayment.interval r
        /\ RecurringPayment.recipient r' = RecurringPayment.recipient r
        /\ RecurringPayment.amount r' = RecurringPayment.amount r
        /\ RecurringPayment.interval r' = RecurringPayment.interval r
        /\ RecurringPayment.totalPayments r' = RecurringPayment.totalPayments r
        /\ (RecurringPayment.completedPayments r' = RecurringPayment.totalPayments r' ->
            RecurringPayment.isActive r' = false
            /\ Payment.isCompleted (Router.payment s' paymentId) = true
            /\ Payment.completedAt (Router.payment s' paymentId) = now)
        /\ (RecurringPayment.completedPayments r' <> RecurringPayment.totalPayments r' ->
            RecurringPayment.isActive r' = true
            /\ Payment.isCompleted (Router.payment s' paymentId)
               = Payment.isCompleted (Router.payment s paymentId)))
  /\ (forall (s_init s0 s1 s2 s3 : Router.t W)
        (payer created recipient amount interval c1 t1 c2 t2 c3 t3 : N),
        createRecurringPayment self keccak256 s_init payer created recipient amount
          interval 3 = Ok (paymentId, s0) ->
        execute s0 c1 t1 = Ok s1 ->
        execute s1 c2 t2 = Ok s2 ->
        execute s2 c3 t3 = Ok s3 ->
        Payment.isCompleted (Router.payment s0 paymentId) = false
        /\ Payment.isCompleted (Router.payment s1 paymentId) = false
        /\ Payment.isCompleted (Router.payment s2 paymentId) = false
        /\ Payment.isCompleted (Router.payment s3 paymentId) = true
        /\ RecurringPayment.completedPayments (Router.recurring s3 paymentId) = 3
        /\ t1 + interval <= t2
        /\ t2 + interval <= t3
        /\ forall c4 t4 : N, execute s3 c4 t4 = Fail (Error "Not active")).
Proof.
  intros execute r.
  assert (Hinactive : forall (s0 : Router.t W) (c t : N),
             RecurringPayment.isActive (Router.recurring s0 paymentId) = false ->
             execute s0 c t = Fail (Error "Not active")).
  { intros s0 c t H0. unfold execute, executeRecurringPayment. rewrite H0. reflexivity. }
  split; [apply Hinactive |].
  split.
  { intros Hearly. destruct (execute s sender now) as [s'|f] eqn:Hx; [exfalso | reflexivity].
    apply executeRecurringPayment_ok in Hx as (_ & Hdue & _). fold r in Hdue. lia. }
  split.
  { intros Hdone. destruct (execute s sender now) as [s'|f] eqn:Hx; [exfalso | reflexivity].
    apply executeRecurringPayment_ok in Hx as (_ & _ & Hleft & _). fold r in Hleft. lia. }
  split.
  { intros s' Hx r'.
    apply executeRecurringPayment_ok in Hx as (_ & _ & Hleft & Hpay & Hr' & Hp').
    fold r in Hleft, Hpay, Hr', Hp'. subst r'. rewrite Hr', Hp'. simpl.
    split; [exact Hpay |]. do 6 (split; [reflexivity |]).
    split; intros Hcmp.
    - rewrite <- Hcmp, N.leb_refl. repeat split.
    - assert (Hlt : (RecurringPayment.totalPayments r
                       <=? RecurringPayment.completedPayments r + 1) = false)
        by (apply N.leb_gt; lia).
      rewrite Hlt. split; reflexivity. }
  intros s_init s0 s1 s2 s3 payer created recipient amount interval c1 t1 c2 t2 c3 t3
    Hcreate H1 H2 H3.
  apply createRecurringPayment_ok in Hcreate as (Hr0 & Hp0).
  apply executeRecurringPayment_ok in H1 as (_ & _ & _ & _ & Hr1 & Hp1).
  rewrite ?Hr0, ?Hp0 in Hr1, Hp1. simpl in Hr1, Hp1.
  apply executeRecurringPayment_ok in H2 as (_ & Hdue2 & _ & _ & Hr2 & Hp2).
  rewrite ?Hr1, ?Hp1 in Hr2, Hp2, Hdue2. simpl in Hr2, Hp2, Hdue2.
  apply executeRecurringPayment_ok in H3 as (_ & Hdue3 & _ & _ & Hr3 & Hp3).
  rewrite ?Hr2, ?Hp2 in Hr3, Hp3, Hdue3. simpl in Hr3, Hp3, Hdue3.
  rewrite Hp3, Hp2, Hp1, Hp0, Hr3. simpl.
  do 7 (split; [first [reflexivity | assumption] |]).
  intros c4 t4. apply Hinactive. rewrite Hr3. reflexivity.
Qed.

End RecurringProperties.

(** ** Split payments *)

Section SplitProperties.
Context {W : Type} `{HChain : Chain W}.
Variable self : address.
Variable keccak256 : list packed -> bytes32.

Lemma sumBasisPoints_ok (recipients : list SplitRecipient.t) (acc total : N) :
  sumBasisPoints recipients acc = Ok total ->
  total = acc + spec_totalBps recipients.
Proof.
  revert acc. induction recipients as [|r rest IH]; simpl; intros acc H.
  - injection H as <-. lia.
  - inv_ok H. apply checked_add_ok in Hbind as [-> _].
    apply IH in H. lia.
Qed.

(** The first loop fails with a reason or an arithmetic panic, never with a
    failed call. *)
Lemma sumBasisPoints_failure (recipients : list SplitRecipient.t) (acc : N)
  (f : failure) :
  sumBasisPoints recipients acc = Fail f -> f <> Revert.
Proof.
  revert acc. induction recipients as [|r rest IH]; simpl; intros acc H.
  - discriminate H.
  - destruct (negb (SplitRecipient.recipient r =? 0)); simpl in H; [| congruence].
    unfold checked_add in H.
    destruct (acc + SplitRecipient.basisPoints r <=? MAX_UINT256); simpl in H;
      [eapply IH; eassumption | congruence].
Qed.

Lemma recipientAmount_ok (totalAmount share : N) (r : SplitRecipient.t) :
  recipientAmount totalAmount r = Ok share -> share = spec_share totalAmount r.
Proof.
  unfold recipientAmount, spec_share. intros H. inv_ok H.
  apply checked_mul_ok in Hbind as [-> _].
  apply checked_div_ok in H as [-> _]. reflexivity.
Qed.

(** The second loop pays every recipient the specification's share, in list
    order. *)
Lemma distribute_ok (recipients : list SplitRecipient.t) (totalAmount : N) (w w' : W) :
  distribute self w recipients totalAmount = Ok w' ->
  spec_payShares self w recipients totalAmount = Ok w'.
Proof.
  revert w. induction recipients as [|r rest IH]; simpl; intros w H.
  - exact H.
  - inv_ok H. apply recipientAmount_ok in Hbind as ->.
    rewrite Hbind0. simpl. apply IH. exact H.
Qed.

Lemma div_add_le (a b c : N) : c <> 0 -> a / c + b / c <= (a + b) / c.
Proof.
  intros Hc. apply N.div_le_lower_bound; [exact Hc |].
  pose proof (N.Div0.mul_div_le a c). pose proof (N.Div0.mul_div_le b c). lia.
Qed.

(** Rounding never exceeds the principal. *)
Lemma totalShares_le (totalAmount : N) (recipients : list SplitRecipient.t) :
  spec_totalShares totalAmount recipients
    <= totalAmount * spec_totalBps recipients / 10000.
Proof.
  induction recipients as [|r rest IH]; simpl.
  - rewrite N.mul_0_r. reflexivity.
  - unfold spec_share at 1. rewrite N.mul_add_distr_l.
    etransitivity; [| apply div_add_le; discriminate].
    apply N.add_le_mono_l. exact IH.
Qed.

Lemma totalShares_le_principal (totalAmount : N) (recipients : list SplitRecipient.t) :
  spec_totalBps recipients = 10000 ->
  spec_totalShares totalAmount recipients <= totalAmount.
Proof.
  intros Hsum. pose proof (totalShares_le totalAmount recipients) as Hle.
  rewrite Hsum, N.div_mul in Hle by discriminate. exact Hle.
Qed.

(** What a successful [createSplitPayment] checked and did. *)
Lemma createSplitPayment_ok (s s' : Router.t W) (sender now totalAmount paymentId : N)
  (recipients : list SplitRecipient.t) :
  createSplitPayment self keccak256 s sender now recipients totalAmount
    = Ok (paymentId, s') ->
  (0 < length recipients <= 20)%nat
  /\ spec_totalBps recipients = 10000
  /\ paymentId = keccak256 [PAddress sender; PUint now; PUint totalAmount; PString "SPLIT"]
  /\ (exists w : W,
        safeTransferFrom (Router.chain s) self sender self totalAmount = Ok w
        /\ distribute self w recipients totalAmount = Ok (Router.chain s'))
  /\ Router.payment s' paymentId =
       Payment.mk paymentId sender PaymentType.SPLIT totalAmount totalAmount
         now now true false.
Proof.
  unfold createSplitPayment. intros H. inv_ok H.
  apply andb_true_iff in Hreq as [Hpos Hmax].
  apply N.ltb_lt in Hpos. apply N.leb_le in Hmax. apply N.eqb_eq in Hreq0.
  assert (Hsum : spec_totalBps recipients = 10000)
    by (apply sumBasisPoints_ok in Hbind; lia).
  injection H as <- <-.
  split; [lia |]. split; [exact Hsum |]. split; [reflexivity |].
  split; [exists a0; split; [reflexivity | simpl; assumption] |].
  unfold Router.payment. simpl. rewrite lookup_insert_eq. reflexivity.
Qed.

(** C5.  An accepted [createSplitPayment] pulls [totalAmount] from the
    caller and pays every recipient [floor(totalAmount * basisPoints / 10000)]
    in the same transaction, in list order; the payment record it writes is
    completed at creation, with [releasedAmount = totalAmount] and
    [completedAt] set to the time of creation.  In particular, splitting 1000
    between [a] at 7000 and [b] at 3000 basis points pays [a] exactly 700 and
    [b] exactly 300 and leaves the payment completed with 1000 released. *)
Theorem createSplitPayment_pays_and_completes (s s' : Router.t W)
  (sender now paymentId : N) :
  (forall (recipients : list SplitRecipient.t) (totalAmount : N),
     createSplitPayment self keccak256 s sender now recipients totalAmount
       = Ok (paymentId, s') ->
     (exists w : W,
        safeTransferFrom (Router.chain s) self sender self totalAmount = Ok w
        /\ spec_payShares self w recipients totalAmount = Ok (Router.chain s'))
     /\ Router.payment s' paymentId =
          Payment.mk paymentId sender PaymentType.SPLIT totalAmount totalAmount
            now now true false)
  /\ (forall a b : address,
        createSplitPayment self keccak256 s sender now
          [SplitRecipient.mk a 7000; SplitRecipient.mk b 3000] 1000
          = Ok (paymentId, s') ->
        (exists w1 w2 : W,
           safeTransferFrom (Router.chain s) self sender self 1000 = Ok w1
           /\ safeTransfer w1 self a 700 = Ok w2
           /\ safeTransfer w2 self b 300 = Ok (Router.chain s'))
        /\ Payment.isCompleted (Router.payment s' paymentId) = true
        /\ Payment.releasedAmount (Router.payment s' paymentId) = 1000).
Proof.
  split.
  - intros recipients totalAmount H.
    apply createSplitPayment_ok in H as (_ & _ & _ & (w & Hpull & Hpush) & Hpayment).
    split; [| exact Hpayment].
    exists w. split; [exact Hpull | apply distribute_ok; exact Hpush].
  - intros a b H.
    apply createSplitPayment_ok in H as (_ & _ & _ & (w & Hpull & Hpush) & Hpayment).
    rewrite Hpayment. split; [| split; reflexivity].
    apply distribute_ok in Hpush. simpl in Hpush.
    change (spec_share 1000 (SplitRecipient.mk a 7000)) with 700 in Hpush.
    change (spec_share 1000 (SplitRecipient.mk b 3000)) with 300 in Hpush.
    destruct (safeTransfer w self a 700) as [w2|] eqn:Ha; [| discriminate Hpush].
    simpl in Hpush.
    destruct (safeTransfer w2 self b 300) as [w3|] eqn:Hb; [| discriminate Hpush].
    simpl in Hpush. injection Hpush as <-.
    exists w, w2. repeat split; assumption.
Qed.

(** C6.  [createSplitPayment] rejects an empty recipient list and a list of
    more than 20 entries, and it rejects every list whose basis points do not
    add up to exactly 10000; the rejection is decided by the recipient list
    alone, whatever the state of the router and of the token, and it is never
    the failure of a token call: no transfer has been attempted.  For every
    accepted call the basis points add up to 10000, and for such a list and
    any amount the shares add up to at most the amount. *)
Theorem createSplitPayment_validation (recipients : list SplitRecipient.t) :
  let create (s : Router.t W) (sender now totalAmount : N) :=
    createSplitPayment self keccak256 s sender now recipients totalAmount in
  (recipients = [] \/ (20 < length recipients)%nat ->
   forall (s : Router.t W) (sender now totalAmount : N),
     create s sender now totalAmount = Fail (Error "Invalid recipient count"))
  /\ (spec_totalBps recipients <> 10000 ->
      exists f : failure,
        f <> Revert
        /\ forall (s : Router.t W) (sender now totalAmount : N),
             create s sender now totalAmount = Fail f)
  /\ (forall (s s' : Router.t W) (sender now totalAmount paymentId : N),
        create s sender now totalAmount = Ok (paymentId, s') ->
        (1 <= length recipients <= 20)%nat
        /\ spec_totalBps recipients = 10000
        /\ spec_totalShares totalAmount recipients <= totalAmount)
  /\ (spec_totalBps recipients = 10000 ->
      forall amount : N, spec_totalShares amount recipients <= amount).
Proof.
  intros create. split; [| split; [| split]].
  - intros Hcount s sender now totalAmount. unfold create, createSplitPayment.
    assert (Hbad : (0 <? N.of_nat (length recipients))
                   && (N.of_nat (length recipients) <=? 20) = false).
    { destruct Hcount as [-> | Hlong]; [reflexivity |].
      apply andb_false_iff. right. apply N.leb_gt. lia. }
    rewrite Hbad. reflexivity.
  - intros Hsum. unfold create, createSplitPayment.
    destruct ((0 <? N.of_nat (length recipients))
              && (N.of_nat (length recipients) <=? 20)) eqn:Hcount.
    + destruct (sumBasisPoints recipients 0) as [total|f] eqn:Hloop.
      * apply sumBasisPoints_ok in Hloop.
        assert (Hne : (total =? 10000) = false) by (apply N.eqb_neq; lia).
        exists (Error "Basis points must sum to 10000").
        split; [discriminate |]. intros. simpl. rewrite Hne. reflexivity.
      * exists f. split; [eapply sumBasisPoints_failure; eassumption |].
        intros. reflexivity.
    + exists (Error "Invalid recipient count").
      split; [discriminate |]. intros. reflexivity.
  - intros s s' sender now totalAmount paymentId H.
    apply createSplitPayment_ok in H as (Hcount & Hsum & _).
    split; [lia |]. split; [exact Hsum |].
    apply totalShares_le_principal. exact Hsum.
  - intros Hsum amount. apply totalShares_le_principal. exact Hsum.
Qed.

End SplitProperties.

(** ** Conditional payments *)

Section ConditionalProperties.
Context {W : Type} `{HChain : Chain W}.
Variable self : address.

(** C10.  For a conditional payment whose condition contract is the zero
    address, [releaseConditionalPayment] makes no condition call: it fails
    with "Already released" when [isReleased] is set, and otherwise, for any
    caller and at any time, it succeeds as soon as the token transfer of the
    full amount to the recipient goes through (and the volume counter does
    not overflow), whatever the payment's payer, completion or cancellation
    flags are.  It then latches [isReleased] and completes the payment. *)
Theorem releaseConditionalPayment_zero_condition (s : Router.t W) (paymentId : N) :
  let c := Router.conditional s paymentId in
  ConditionalPayment.conditionContract c = 0 ->
  (ConditionalPayment.isReleased c = true ->
   forall sender now : N,
     releaseConditionalPayment self s sender now paymentId
     = Fail (Error "Already released"))
  /\ (ConditionalPayment.isReleased c = false ->
      forall (sender now : N) (w : W),
        safeTransfer (Router.chain s) self (ConditionalPayment.recipient c)
          (ConditionalPayment.amount c) = Ok w ->
        Router.totalVolumeProcessed s + ConditionalPayment.amount c <= MAX_UINT256 ->
        exists s' : Router.t W,
          releaseConditionalPayment self s sender now paymentId = Ok s'
          /\ Router.chain s' = w
          /\ ConditionalPayment.isReleased (Router.conditional s' paymentId) = true
          /\ Router.payment s' paymentId =
               Payment.set_completedAt now
                 (Payment.set_isCompleted true
                    (Payment.set_releasedAmount (ConditionalPayment.amount c)
                       (Router.payment s paymentId)))
          /\ Router.totalVolumeProcessed s' =
               Router.totalVolumeProcessed s + ConditionalPayment.amount c).
Proof.
  intros c Hzero. split.
  - intros Hreleased sender now. unfold releaseConditionalPayment.
    fold c. rewrite Hreleased. reflexivity.
  - intros Hfresh sender now w Htransfer Hvolume.
    unfold releaseConditionalPayment, checkCondition. fold c.
    rewrite Hfresh, Hzero. cbn [negb require bind N.eqb].
    cbn [ConditionalPayment.set_isReleased ConditionalPayment.recipient
         ConditionalPayment.amount Router.chain Router.set_payments
         Router.set_conditionalPayments].
    rewrite Htransfer. cbn [bind].
    cbn [Router.totalVolumeProcessed Router.set_chain Router.set_payments
         Router.set_conditionalPayments].
    unfold checked_add. apply N.leb_le in Hvolume. rewrite Hvolume. cbn [bind].
    eexists. split; [reflexivity |].
    split; [reflexivity |]. split.
    + unfold Router.conditional. simpl. rewrite lookup_insert_eq. reflexivity.
    + split; [| reflexivity].
      unfold Router.payment at 1. simpl. rewrite lookup_insert_eq. reflexivity.
Qed.

End ConditionalProperties.

(** ** The workflow executor *)

Section EngineProperties.
Context {W : Type} `{HChain : Chain W}.
Variable self : address.
Variable keccak256 : list packed -> bytes32.

Lemma runLoop_stopped (fuel : nat) (steps : list WorkflowStep.t)
  (workflowId executionId sender now : N) (st : Loop.t W) :
  Loop.continueExecution st = false ->
  runLoop self fuel steps workflowId executionId sender now st = Ok st.
Proof.
  intros Hstop. destruct fuel; simpl; unfold loopGuard; rewrite Hstop; reflexivity.
Qed.

Lemma lookup_step_in_range (steps : list WorkflowStep.t) (i : N) (step : WorkflowStep.t) :
  steps !! N.to_nat i = Some step -> (i <? N.of_nat (length steps)) = true.
Proof.
  intros Hstep. apply lookup_lt_Some in Hstep. apply N.ltb_lt. lia.
Qed.

Lemma loopBody_abort (steps : list WorkflowStep.t)
  (workflowId executionId sender now nextStep : N) (st : Loop.t W)
  (step : WorkflowStep.t) (w : W) :
  steps !! N.to_nat (Loop.currentStep st) = Some step ->
  _executeStep self (Loop.chain st) sender now step = Ok (false, nextStep, w) ->
  WorkflowStep.nextStepOnFailure step = MAX_UINT256 ->
  loopBody self steps workflowId executionId sender now st
  = Ok (aborted workflowId executionId st w).
Proof.
  intros Hstep Hrun Hsentinel. unfold loopBody.
  rewrite Hstep, Hrun. cbn [bind negb andb].
  rewrite Hsentinel, N.eqb_refl. reflexivity.
Qed.

Lemma runLoop_abort (fuel : nat) (steps : list WorkflowStep.t)
  (workflowId executionId sender now nextStep : N) (st : Loop.t W)
  (step : WorkflowStep.t) (w : W) :
  Loop.continueExecution st = true ->
  steps !! N.to_nat (Loop.currentStep st) = Some step ->
  _executeStep self (Loop.chain st) sender now step = Ok (false, nextStep, w) ->
  WorkflowStep.nextStepOnFailure step = MAX_UINT256 ->
  runLoop self (S fuel) steps workflowId executionId sender now st
  = Ok (aborted workflowId executionId st w).
Proof.
  intros Hcontinue Hstep Hrun Hsentinel. simpl. unfold loopGuard.
  rewrite Hcontinue, (lookup_step_in_range _ _ _ Hstep). cbn [andb].
  rewrite (loopBody_abort _ _ _ _ _ _ _ _ _ Hstep Hrun Hsentinel). cbn [bind].
  apply runLoop_stopped. reflexivity.
Qed.

(** C4.  Whenever the step the loop is at fails and its [nextStepOnFailure]
    is the sentinel [type(uint256).max], the run stops there: the execution
    record gets [success = false] and the message "Step failed without
    handler", its [currentStep] is the index of the failed step, the only
    event added is the one of the failed step, and no further step runs.  In
    a two-step workflow started at its first step, when that step fails with
    the sentinel, the recorded execution is completed and failed with
    [currentStep = 0], and the only step event is that of step 0: the second
    step is never evaluated. *)
Theorem executeWorkflow_no_handler_abort (sender now : N) (step second : WorkflowStep.t)
  (nextStep : N) (w0 w : W) :
  _executeStep self w0 sender now step = Ok (false, nextStep, w) ->
  WorkflowStep.nextStepOnFailure step = MAX_UINT256 ->
  (forall (fuel : nat) (steps : list WorkflowStep.t) (workflowId executionId : N)
     (st : Loop.t W),
     Loop.continueExecution st = true ->
     Loop.chain st = w0 ->
     steps !! N.to_nat (Loop.currentStep st) = Some step ->
     exists st' : Loop.t W,
       runLoop self (S fuel) steps workflowId executionId sender now st = Ok st'
       /\ Loop.continueExecution st' = false
       /\ WorkflowExecution.success (Loop.execution st') = false
       /\ WorkflowExecution.currentStep (Loop.execution st') = Loop.currentStep st
       /\ WorkflowExecution.errorMessage (Loop.execution st')
          = "Step failed without handler"%string
       /\ Loop.chain st' = w
       /\ Loop.events st'
          = Loop.events st
              ++ [WorkflowStepExecuted workflowId executionId (Loop.currentStep st) false])
  /\ (forall (s : Engine.t W) (value : N) (fuel : nat) (gasUsed workflowId : N),
        let workflow := Engine.workflow s workflowId in
        let executionId := keccak256 [PBytes32 workflowId; PAddress sender; PUint now] in
        Engine.chain s = w0 ->
        Workflow.steps workflow = [step; second] ->
        Workflow.owner workflow <> 0 ->
        Workflow.isActive workflow = true ->
        Engine.executionFee s <= value ->
        Workflow.totalExecutions workflow + 1 <= MAX_UINT256 ->
        Workflow.totalGasUsed workflow + gasUsed <= MAX_UINT256 ->
        Engine.totalExecutions s + 1 <= MAX_UINT256 ->
        exists s' : Engine.t W,
          executeWorkflow self keccak256 s sender now value (S fuel) gasUsed workflowId 0
          = Ok (executionId, s',
                [WorkflowExecutionStarted workflowId executionId sender;
                 WorkflowStepExecuted workflowId executionId 0 false;
                 WorkflowExecutionCompleted workflowId executionId false])
          /\ Engine.chain s' = w
          /\ Engine.history s' workflowId
             = Engine.history s workflowId
                 ++ [WorkflowExecution.mk workflowId sender 0 0 gasUsed true false
                       "Step failed without handler" now now]).
Proof.
  intros Hrun Hsentinel. split.
  - intros fuel steps workflowId executionId st Hcontinue Hchain Hstep.
    subst w0. exists (aborted workflowId executionId st w).
    split; [eapply runLoop_abort; eassumption |].
    repeat split.
  - intros s value fuel gasUsed workflowId workflow executionId
      Hchain Hsteps Howner Hactive Hfee Hexecuted Hgas Htotal.
    unfold executeWorkflow. fold workflow. fold executionId.
    apply N.eqb_neq in Howner. apply N.leb_le in Hfee, Hexecuted, Hgas, Htotal.
    rewrite Howner, Hactive, Hsteps, Hfee. cbn [negb require bind length N.of_nat N.ltb
      N.compare].
    erewrite runLoop_abort with (step := step) (w := w) (nextStep := nextStep);
      [| reflexivity | reflexivity | simpl; rewrite Hchain; exact Hrun | exact Hsentinel].
    cbn [bind aborted Loop.execution Loop.chain Loop.events Loop.currentStep
         WorkflowExecution.set_currentStep WorkflowExecution.set_errorMessage
         WorkflowExecution.set_success WorkflowExecution.set_gasUsed
         WorkflowExecution.set_completedAt WorkflowExecution.set_completed
         WorkflowExecution.success WorkflowExecution.workflowId
         WorkflowExecution.executor WorkflowExecution.startStep
         WorkflowExecution.currentStep WorkflowExecution.gasUsed
         WorkflowExecution.completed WorkflowExecution.errorMessage
         WorkflowExecution.startedAt WorkflowExecution.completedAt].
    unfold checked_add. rewrite Hexecuted, Hgas, Htotal. cbn [bind].
    eexists. split; [reflexivity |]. split; [reflexivity |].
    unfold Engine.history at 1. simpl. rewrite lookup_insert_eq. reflexivity.
Qed.

(** C9, as the contract has it.  A [CONDITION] step evaluates
    [BALANCE_GT] and [BALANCE_LT] on the decoded account and threshold
    against the token balance, [TIME_GT] and [TIME_LT] on the decoded
    timestamp against the block time, and takes every other condition kind as
    true without reading the payload.  The loop then follows the success
    edge when the result is true, and the failure edge when it is false and
    that edge is not the sentinel: when the edge is a step of the workflow
    the run goes on there, its success flag, its message and the rest of its
    record untouched; when the edge is past the end or the sentinel the run
    ends there with the result of the condition as its success flag.  A
    false condition whose [nextStepOnFailure] is the sentinel aborts the run
    like a failure of any other step type: the run stays at the step, marked
    failed with "Step failed without handler". *)
Theorem condition_step_routing (w : W) (now : N) :
  (forall data : bytes,
     (forall account threshold : N,
        abi_decode_address_uint256 data = Ok (account, threshold) ->
        _evaluateCondition w now ConditionType.BALANCE_GT data
          = Ok (threshold <? erc20_balanceOf w account)
        /\ _evaluateCondition w now ConditionType.BALANCE_LT data
           = Ok (erc20_balanceOf w account <? threshold))
     /\ (forall timestamp : N,
           abi_decode_uint256 data = Ok timestamp ->
           _evaluateCondition w now ConditionType.TIME_GT data = Ok (timestamp <? now)
           /\ _evaluateCondition w now ConditionType.TIME_LT data = Ok (now <? timestamp))
     /\ _evaluateCondition w now ConditionType.PRICE_GT data = Ok true
     /\ _evaluateCondition w now ConditionType.PRICE_LT data = Ok true
     /\ _evaluateCondition w now ConditionType.CUSTOM data = Ok true)
  /\ (forall (steps : list WorkflowStep.t) (workflowId executionId sender : N)
        (st : Loop.t W) (step : WorkflowStep.t) (holds : bool),
        Loop.chain st = w ->
        steps !! N.to_nat (Loop.currentStep st) = Some step ->
        WorkflowStep.stepType step = StepType.CONDITION ->
        _evaluateCondition w now (WorkflowStep.conditionType step)
          (WorkflowStep.conditionData step) = Ok holds ->
        exists st' : Loop.t W,
          loopBody self steps workflowId executionId sender now st = Ok st'
          /\ Loop.chain st' = w
          /\ Loop.events st'
             = Loop.events st
                 ++ [WorkflowStepExecuted workflowId executionId (Loop.currentStep st) holds]
          /\ WorkflowExecution.currentStep (Loop.execution st') = Loop.currentStep st'
          /\ (holds = true ->
              Loop.currentStep st' = WorkflowStep.nextStepOnSuccess step)
          /\ (holds = false ->
              WorkflowStep.nextStepOnFailure step <> MAX_UINT256 ->
              Loop.currentStep st' = WorkflowStep.nextStepOnFailure step)
          /\ (holds = false ->
              WorkflowStep.nextStepOnFailure step = MAX_UINT256 ->
              st' = aborted workflowId executionId st w)
          /\ (holds = true \/ WorkflowStep.nextStepOnFailure step <> MAX_UINT256 ->
              let next :=
                if holds then WorkflowStep.nextStepOnSuccess step
                else WorkflowStep.nextStepOnFailure step in
              (next < N.of_nat (length steps) -> next <> MAX_UINT256 ->
               Loop.continueExecution st' = Loop.continueExecution st
               /\ Loop.execution st'
                  = WorkflowExecution.set_currentStep next (Loop.execution st))
              /\ (N.of_nat (length steps) <= next \/ next = MAX_UINT256 ->
                  Loop.continueExecution st' = false
                  /\ Loop.execution st'
                     = WorkflowExecution.set_currentStep next
                         (WorkflowExecution.set_success holds (Loop.execution st))))).
Proof.
  split.
  - intros data. split; [| split].
    + intros account threshold Hdecode. simpl. rewrite Hdecode. split; reflexivity.
    + intros timestamp Hdecode. simpl. rewrite Hdecode. split; reflexivity.
    + repeat split.
  - intros steps workflowId executionId sender st step holds Hchain Hstep Htype Heval.
    unfold loopBody, _executeStep. rewrite Hstep, Htype, Hchain, Heval. cbn [bind].
    destruct holds; cbn [negb andb].
    + destruct ((N.of_nat (length steps) <=? WorkflowStep.nextStepOnSuccess step)
                || (WorkflowStep.nextStepOnSuccess step =? MAX_UINT256)) eqn:Hend;
        eexists; (split; [reflexivity |]);
        cbn [Loop.chain Loop.events Loop.currentStep Loop.execution
             Loop.continueExecution WorkflowExecution.set_currentStep
             WorkflowExecution.currentStep];
        (do 3 (split; [reflexivity |])); (split; [intros _; reflexivity |]);
        (split; [intros Hfalse; discriminate Hfalse |]);
        (split; [intros Hfalse; discriminate Hfalse |]);
        intros _; cbv zeta; split.
      * intros Hin Hmax. exfalso.
        apply orb_true_iff in Hend as [Hout | Hsentinel];
          [apply N.leb_le in Hout; lia | apply N.eqb_eq in Hsentinel; congruence].
      * intros _. split; reflexivity.
      * intros _ _. split; reflexivity.
      * intros Hout. exfalso. apply orb_false_iff in Hend as [Hin Hmax].
        apply N.leb_gt in Hin. apply N.eqb_neq in Hmax.
        destruct Hout as [Hout | Hsentinel]; [lia | congruence].
    + destruct (N.eqb_spec (WorkflowStep.nextStepOnFailure step) MAX_UINT256)
        as [Hsentinel | Hedge].
      * eexists. split; [reflexivity |].
        cbn [Loop.chain Loop.events Loop.currentStep Loop.execution
             Loop.continueExecution WorkflowExecution.set_currentStep
             WorkflowExecution.currentStep].
        do 3 (split; [reflexivity |]).
        split; [intros Htrue; discriminate Htrue |].
        split; [intros _ Hedge; congruence |].
        split; [intros _ _; reflexivity |].
        intros [Htrue | Hedge]; [discriminate Htrue | congruence].
      * destruct (N.of_nat (length steps) <=? WorkflowStep.nextStepOnFailure step)
          eqn:Hend; cbn [orb]; eexists; (split; [reflexivity |]);
          cbn [Loop.chain Loop.events Loop.currentStep Loop.execution
               Loop.continueExecution WorkflowExecution.set_currentStep
               WorkflowExecution.currentStep];
          (do 3 (split; [reflexivity |]));
          (split; [intros Htrue; discriminate Htrue |]);
          (split; [intros _ _; reflexivity |]);
          (split; [intros _ Hsentinel; congruence |]);
          intros _; cbv zeta; split.
        -- intros Hin _. apply N.leb_le in Hend. lia.
        -- intros _. split; reflexivity.
        -- intros _ _. split; reflexivity.
        -- intros [Hout | Hsentinel]; [apply N.leb_gt in Hend; lia | congruence].
Qed.

End EngineProperties.

(** * Further properties of the router *)

Section RouterLifecycle.
Context {W : Type} `{HChain : Chain W}.
Variable self : address.
Variable keccak256 : list packed -> bytes32.

(** [cancelPayment] is for the payer of a payment that is still open.  It
    refunds exactly the unreleased remainder, stamps the payment cancelled at
    the current time without touching the released amount, and cannot be
    repeated: on the state it leaves, every further cancellation fails,
    whoever sends it. *)
Theorem cancelPayment_refunds_once (s : Router.t W) (sender now paymentId : N) :
  let payment := Router.payment s paymentId in
  (Payment.payer payment <> sender ->
   cancelPayment self s sender now paymentId = Fail (Error "Not payer"))
  /\ (Payment.payer payment = sender ->
      Payment.isCompleted payment = true \/ Payment.isCancelled payment = true ->
      cancelPayment self s sender now paymentId = Fail (Error "Cannot cancel"))
  /\ (forall s' : Router.t W,
        cancelPayment self s sender now paymentId = Ok s' ->
        let refund := Payment.totalAmount payment - Payment.releasedAmount payment in
        Payment.releasedAmount payment <= Payment.totalAmount payment
        /\ (0 < refund ->
            safeTransfer (Router.chain s) self sender refund = Ok (Router.chain s'))
        /\ (refund = 0 -> Router.chain s' = Router.chain s)
        /\ Payment.isCancelled (Router.payment s' paymentId) = true
        /\ Payment.isCompleted (Router.payment s' paymentId) = false
        /\ Payment.completedAt (Router.payment s' paymentId) = now
        /\ Payment.releasedAmount (Router.payment s' paymentId)
           = Payment.releasedAmount payment
        /\ forall sender' now' : N,
             is_ok (cancelPayment self s' sender' now' paymentId) = false).
Proof.
  intros payment. split; [| split].
  - intros Hother. unfold cancelPayment. fold payment.
    replace (Payment.payer payment =? sender) with false
      by (symmetry; apply N.eqb_neq; exact Hother).
    reflexivity.
  - intros Hpayer Hclosed. unfold cancelPayment. fold payment.
    replace (Payment.payer payment =? sender) with true
      by (symmetry; apply N.eqb_eq; exact Hpayer).
    cbn [require bind].
    replace (negb (Payment.isCompleted payment) && negb (Payment.isCancelled payment))
      with false
      by (destruct Hclosed as [-> | ->]; [| rewrite andb_comm]; reflexivity).
    reflexivity.
  - intros s' Hcancel refund.
    apply cancelPayment_ok in Hcancel
      as (_ & Hopen & _ & Hle & Htransfer & Hpayment & _).
    fold payment in Hopen, Hle, Htransfer, Hpayment. fold refund in Htransfer.
    split; [exact Hle |].
    split.
    { intros Hpos. apply N.ltb_lt in Hpos. rewrite Hpos in Htransfer. exact Htransfer. }
    split.
    { intros Hzero. rewrite Hzero in Htransfer. simpl in Htransfer.
      injection Htransfer as <-. reflexivity. }
    rewrite Hpayment. simpl.
    do 4 (split; [first [reflexivity | exact Hopen] |]).
    intros sender' now'.
    destruct (cancelPayment self s' sender' now' paymentId) as [s''|f] eqn:Hagain;
      [exfalso | reflexivity].
    apply cancelPayment_ok in Hagain as (_ & _ & Hcancelled & _).
    rewrite Hpayment in Hcancelled. discriminate Hcancelled.
Qed.

(** Cancelling a recurring payment stops its schedule: on the state a
    successful [cancelPayment] of a [RECURRING] payment leaves, every
    [executeRecurringPayment] fails with "Not active". *)
Theorem cancelPayment_stops_schedule (s s' : Router.t W) (sender now paymentId : N) :
  Payment.paymentType (Router.payment s paymentId) = PaymentType.RECURRING ->
  cancelPayment self s sender now paymentId = Ok s' ->
  RecurringPayment.isActive (Router.recurring s' paymentId) = false
  /\ forall sender' now' : N,
       executeRecurringPayment self s' sender' now' paymentId
       = Fail (Error "Not active").
Proof.
  intros Htype Hcancel.
  assert (Hinactive : RecurringPayment.isActive (Router.recurring s' paymentId) = false).
  { unfold cancelPayment in Hcancel. inv_ok Hcancel.
    cbn [Payment.paymentType Payment.set_completedAt Payment.set_isCancelled] in Hcancel.
    rewrite Htype in Hcancel. cbn [PaymentType.eqb] in Hcancel.
    injection Hcancel as <-.
    unfold Router.recurring at 1. simpl. rewrite lookup_insert_eq. reflexivity. }
  split; [exact Hinactive |].
  intros sender' now'. unfold executeRecurringPayment.
  rewrite Hinactive. reflexivity.
Qed.

(** What a successful [releaseConditionalPayment] checked and did. *)
Lemma releaseConditionalPayment_ok (s s' : Router.t W) (sender now paymentId : N) :
  releaseConditionalPayment self s sender now paymentId = Ok s' ->
  let c := Router.conditional s paymentId in
  ConditionalPayment.isReleased c = false
  /\ checkCondition (Router.chain s) now c = Ok tt
  /\ safeTransfer (Router.chain s) self (ConditionalPayment.recipient c)
       (ConditionalPayment.amount c) = Ok (Router.chain s')
  /\ Router.conditional s' paymentId = ConditionalPayment.set_isReleased true c
  /\ Router.payment s' paymentId =
       Payment.set_completedAt now
         (Payment.set_isCompleted true
            (Payment.set_releasedAmount (ConditionalPayment.amount c)
               (Router.payment s paymentId)))
  /\ Router.totalVolumeProcessed s' =
       Router.totalVolumeProcessed s + ConditionalPayment.amount c.
Proof.
  unfold releaseConditionalPayment. intros H. cbv zeta in *.
  remember (Router.conditional s paymentId) as c eqn:Hc.
  inv_ok H. destruct a. apply negb_true_iff in Hreq.
  apply checked_add_ok in Hbind1 as [-> _].
  injection H as <-.
  split; [exact Hreq |]. split; [reflexivity |].
  split; [exact Hbind0 |].
  split; [unfold Router.conditional; simpl; rewrite lookup_insert_eq; reflexivity |].
  split; [| reflexivity].
  unfold Router.payment at 1. simpl. rewrite lookup_insert_eq. reflexivity.
Qed.

(** [isReleased] is a latch and a release completes the payment: after a
    successful [releaseConditionalPayment] the recipient has been sent the
    full amount, the payment is completed with that amount released, and
    both a second release and a cancellation of the payment fail, whoever
    sends them. *)
Theorem releaseConditionalPayment_latches (s s' : Router.t W)
  (sender now paymentId : N) :
  releaseConditionalPayment self s sender now paymentId = Ok s' ->
  let c := Router.conditional s paymentId in
  safeTransfer (Router.chain s) self (ConditionalPayment.recipient c)
    (ConditionalPayment.amount c) = Ok (Router.chain s')
  /\ ConditionalPayment.isReleased (Router.conditional s' paymentId) = true
  /\ Payment.isCompleted (Router.payment s' paymentId) = true
  /\ Payment.releasedAmount (Router.payment s' paymentId) = ConditionalPayment.amount c
  /\ (forall sender' now' : N,
        releaseConditionalPayment self s' sender' now' paymentId
        = Fail (Error "Already released"))
  /\ (forall sender' now' : N,
        is_ok (cancelPayment self s' sender' now' paymentId) = false).
Proof.
  intros Hrelease c.
  apply releaseConditionalPayment_ok in Hrelease
    as (_ & _ & Htransfer & Hcond & Hpayment & _).
  fold c in Htransfer, Hcond, Hpayment.
  split; [exact Htransfer |]. rewrite Hcond, Hpayment.
  do 3 (split; [reflexivity |]).
  split.
  - intros sender' now'. unfold releaseConditionalPayment. rewrite Hcond. reflexivity.
  - intros sender' now'.
    destruct (cancelPayment self s' sender' now' paymentId) as [s''|f] eqn:Hcancel;
      [exfalso | reflexivity].
    apply cancelPayment_ok in Hcancel as (_ & Hopen & _).
    rewrite Hpayment in Hopen. discriminate Hopen.
Qed.

(** With a condition contract set, a release goes through only when the
    static call to that contract succeeds and its answer decodes to [true];
    a failed call and the answer [false] are both rejected with "Condition
    not met", and nothing is released. *)
Theorem releaseConditionalPayment_needs_condition (s : Router.t W)
  (sender now paymentId : N) :
  let c := Router.conditional s paymentId in
  let answer :=
    evm_staticcall (Router.chain s) now (ConditionalPayment.conditionContract c)
      (ConditionalPayment.conditionData c) in
  ConditionalPayment.conditionContract c <> 0 ->
  (forall s' : Router.t W,
     releaseConditionalPayment self s sender now paymentId = Ok s' ->
     fst answer = true /\ abi_decode_bool (snd answer) = Ok true)
  /\ (ConditionalPayment.isReleased c = false ->
      fst answer = false \/ abi_decode_bool (snd answer) = Ok false ->
      releaseConditionalPayment self s sender now paymentId
      = Fail (Error "Condition not met")).
Proof.
  intros c answer Hset.
  assert (Hnonzero : negb (ConditionalPayment.conditionContract c =? 0) = true)
    by (apply negb_true_iff, N.eqb_neq; exact Hset).
  split.
  - intros s' Hrelease.
    apply releaseConditionalPayment_ok in Hrelease as (_ & Hcheck & _).
    fold c in Hcheck. unfold checkCondition in Hcheck.
    rewrite Hnonzero in Hcheck. fold answer in Hcheck.
    destruct answer as [success data]. simpl.
    destruct success; [| discriminate Hcheck].
    split; [reflexivity |].
    destruct (abi_decode_bool data) as [[|]|f]; simpl in Hcheck;
      [reflexivity | discriminate Hcheck | discriminate Hcheck].
  - intros Hfresh Hbad. unfold releaseConditionalPayment, checkCondition.
    fold c. rewrite Hfresh, Hnonzero. cbn [negb require bind]. fold answer.
    destruct answer as [success data]. simpl in Hbad.
    destruct Hbad as [-> | Hfalse]; [reflexivity |].
    destruct success; [| reflexivity].
    rewrite Hfalse. reflexivity.
Qed.

(** Once the stream has ended, one claim by the recipient pays out everything
    that is left: [claimedAmount] becomes [totalAmount], the payment is
    completed at the time of the claim, and any later claim by the recipient
    fails with "Fully claimed". *)
Theorem claimStreamingPayment_after_end (s : Router.t W) (sender now paymentId : N)
  (w : W) :
  let stream := Router.streaming s paymentId in
  let total := StreamingPayment.totalAmount stream in
  StreamingPayment.recipient stream = sender ->
  StreamingPayment.startTime stream < StreamingPayment.endTime stream ->
  StreamingPayment.endTime stream <= now ->
  StreamingPayment.claimedAmount stream < total ->
  total * (StreamingPayment.endTime stream - StreamingPayment.startTime stream)
    <= MAX_UINT256 ->
  safeTransfer (Router.chain s) self sender (total - StreamingPayment.claimedAmount stream)
    = Ok w ->
  exists s' : Router.t W,
    claimStreamingPayment self s sender now paymentId = Ok s'
    /\ Router.chain s' = w
    /\ StreamingPayment.claimedAmount (Router.streaming s' paymentId) = total
    /\ Payment.releasedAmount (Router.payment s' paymentId) = total
    /\ Payment.isCompleted (Router.payment s' paymentId) = true
    /\ Payment.completedAt (Router.payment s' paymentId) = now
    /\ forall now' : N,
         claimStreamingPayment self s' sender now' paymentId
         = Fail (Error "Fully claimed").
Proof.
  intros stream total Hrecipient Hduration Hended Hleft Hfits Htransfer.
  assert (Hvested : total * (N.min now (StreamingPayment.endTime stream)
                             - StreamingPayment.startTime stream)
                    / (StreamingPayment.endTime stream - StreamingPayment.startTime stream)
                    = total).
  { rewrite N.min_r by exact Hended. apply N.div_mul. lia. }
  destruct (claimStreamingPayment_succeeds self s sender now paymentId w)
    as (s' & Hclaim & Hchain); fold stream; fold total.
  - exact Hrecipient.
  - exact Hduration.
  - lia.
  - rewrite N.min_r by exact Hended. exact Hfits.
  - rewrite Hvested. exact Hleft.
  - rewrite Hvested. exact Htransfer.
  - exists s'. split; [exact Hclaim |]. split; [exact Hchain |].
    apply claimStreamingPayment_ok in Hclaim
      as (c & Hc & _ & _ & _ & _ & Hstream & Hpayment).
    fold stream in Hc, Hstream, Hpayment.
    assert (Hsum : StreamingPayment.claimedAmount stream + c = total).
    { unfold streamClaimable, streamElapsed in Hc.
      replace (StreamingPayment.endTime stream <? now) with
        (negb (now =? StreamingPayment.endTime stream)) in Hc
        by (destruct (N.eqb_spec now (StreamingPayment.endTime stream));
            symmetry; [apply N.ltb_ge | apply N.ltb_lt]; simpl; lia).
      assert (Helapsed : (if negb (now =? StreamingPayment.endTime stream)
                          then checked_sub (StreamingPayment.endTime stream)
                                 (StreamingPayment.startTime stream)
                          else checked_sub now (StreamingPayment.startTime stream))
                         = Ok (StreamingPayment.endTime stream
                               - StreamingPayment.startTime stream)).
      { destruct (N.eqb_spec now (StreamingPayment.endTime stream)) as [-> |];
          simpl; apply checked_sub_ok; split; lia. }
      rewrite Helapsed in Hc. cbn [bind] in Hc. inv_ok Hc.
      apply checked_sub_ok in Hbind as [-> _].
      apply checked_mul_ok in Hbind0 as [-> _].
      apply checked_div_ok in Hbind1 as [-> _].
      apply checked_sub_ok in Hc as [-> Hle].
      fold total in Hle |- *. rewrite N.div_mul in Hle |- * by lia. lia. }
    rewrite Hstream, Hpayment, Hsum. fold total. simpl. rewrite N.leb_refl. simpl.
    do 4 (split; [reflexivity |]).
    intros now'. unfold claimStreamingPayment. rewrite Hstream. simpl.
    rewrite Hsum. fold total.
    replace (StreamingPayment.recipient stream =? sender) with true
      by (symmetry; apply N.eqb_eq; exact Hrecipient).
    rewrite N.ltb_irrefl. reflexivity.
Qed.

(** The view [getClaimableAmount] answers 0 for a payment that is not a
    stream, and it agrees with [claimStreamingPayment]: when a claim by a
    (non-zero) sender goes through, the view, asked at the same time just
    before, returns exactly the amount the claim pays and adds to
    [claimedAmount]. *)
Theorem getClaimableAmount_agrees (s : Router.t W) (sender now paymentId : N) :
  sender <> 0 ->
  (StreamingPayment.recipient (Router.streaming s paymentId) = 0 ->
   getClaimableAmount s now paymentId = Ok 0)
  /\ (forall s' : Router.t W,
        claimStreamingPayment self s sender now paymentId = Ok s' ->
        exists claimable : N,
          getClaimableAmount s now paymentId = Ok claimable
          /\ 0 < claimable
          /\ safeTransfer (Router.chain s) self sender claimable = Ok (Router.chain s')
          /\ StreamingPayment.claimedAmount (Router.streaming s' paymentId)
             = StreamingPayment.claimedAmount (Router.streaming s paymentId) + claimable).
Proof.
  intros Hsender. split.
  - intros Hnone. unfold getClaimableAmount. rewrite Hnone. reflexivity.
  - intros s' Hclaim.
    apply claimStreamingPayment_ok in Hclaim
      as (c & Hc & Hpos & Hrecipient & _ & Htransfer & Hstream & _).
    exists c. unfold getClaimableAmount.
    replace (StreamingPayment.recipient (Router.streaming s paymentId) =? 0) with false
      by (symmetry; apply N.eqb_neq; rewrite Hrecipient; exact Hsender).
    rewrite Hstream. repeat split; assumption.
Qed.

(** The records a successful [createStreamingPayment] wrote. *)
Lemma createStreamingPayment_ok (s s' : Router.t W)
  (sender now recipient totalAmount duration paymentId : N) :
  createStreamingPayment self keccak256 s sender now recipient totalAmount duration
    = Ok (paymentId, s') ->
  recipient <> 0 /\ 0 < totalAmount /\ 0 < duration
  /\ safeTransferFrom (Router.chain s) self sender self totalAmount = Ok (Router.chain s')
  /\ Router.streaming s' paymentId =
       StreamingPayment.mk paymentId recipient totalAmount 0 now (now + duration) now
  /\ Router.payment s' paymentId =
       Payment.mk paymentId sender PaymentType.STREAMING totalAmount 0 now 0 false false.
Proof.
  unfold createStreamingPayment. intros H. inv_ok H.
  apply negb_true_iff, N.eqb_neq in Hreq. apply N.ltb_lt in Hreq0, Hreq1.
  apply checked_add_ok in Hbind0 as [-> _].
  injection H as <- <-.
  do 3 (split; [assumption |]). split; [reflexivity |]. split.
  - unfold Router.streaming. simpl. rewrite lookup_insert_eq. reflexivity.
  - unfold Router.payment. simpl. rewrite lookup_insert_eq. reflexivity.
Qed.

(** [createStreamingPayment] rejects a zero recipient, a zero amount and a
    zero duration.  When it succeeds it has pulled [totalAmount] from the
    caller into the router and opened a stream that starts now, ends
    [duration] later (so [startTime < endTime]) and has nothing claimed;
    nothing is vested at the moment of creation: a claim by the recipient in
    the same block fails with "Nothing to claim" and the view returns 0. *)
Theorem createStreamingPayment_opens_stream (s : Router.t W)
  (sender now recipient totalAmount duration : N) :
  let create :=
    createStreamingPayment self keccak256 s sender now recipient totalAmount duration in
  (recipient = 0 -> create = Fail (Error "Invalid recipient"))
  /\ (recipient <> 0 -> totalAmount = 0 ->
      create = Fail (Error "Amount must be positive"))
  /\ (recipient <> 0 -> totalAmount <> 0 -> duration = 0 ->
      create = Fail (Error "Duration must be positive"))
  /\ (forall (paymentId : N) (s' : Router.t W),
        create = Ok (paymentId, s') ->
        safeTransferFrom (Router.chain s) self sender self totalAmount
          = Ok (Router.chain s')
        /\ Router.streaming s' paymentId =
             StreamingPayment.mk paymentId recipient totalAmount 0 now
               (now + duration) now
        /\ now < now + duration
        /\ Router.payment s' paymentId =
             Payment.mk paymentId sender PaymentType.STREAMING totalAmount 0 now 0
               false false
        /\ claimStreamingPayment self s' recipient now paymentId
           = Fail (Error "Nothing to claim")
        /\ getClaimableAmount s' now paymentId = Ok 0).
Proof.
  intros create. subst create.
  split; [intros ->; reflexivity |].
  split.
  { intros Hrecipient ->. unfold createStreamingPayment.
    apply N.eqb_neq in Hrecipient. rewrite Hrecipient. reflexivity. }
  split.
  { intros Hrecipient Hamount ->. unfold createStreamingPayment.
    apply N.eqb_neq in Hrecipient. rewrite Hrecipient.
    replace (0 <? totalAmount) with true by (symmetry; apply N.ltb_lt; lia).
    reflexivity. }
  intros paymentId s' H.
  apply createStreamingPayment_ok in H
    as (Hrecipient & Hamount & Hduration & Hpull & Hstream & Hpayment).
  assert (Hnone : streamClaimable
                    (StreamingPayment.mk paymentId recipient totalAmount 0 now
                       (now + duration) now) now = Ok 0).
  { unfold streamClaimable, streamElapsed.
    cbn [StreamingPayment.endTime StreamingPayment.startTime
         StreamingPayment.totalAmount StreamingPayment.claimedAmount].
    replace (now + duration <? now) with false by (symmetry; apply N.ltb_ge; lia).
    replace (checked_sub now now) with (Ok (A:=N) 0)
      by (symmetry; apply checked_sub_ok; lia).
    replace (checked_sub (now + duration) now) with (Ok (A:=N) duration)
      by (symmetry; apply checked_sub_ok; lia).
    cbn [bind].
    replace (checked_mul totalAmount 0) with (Ok (A:=N) 0)
      by (symmetry; apply checked_mul_ok; rewrite N.mul_0_r; split;
          [reflexivity | apply N.le_0_l]).
    cbn [bind].
    replace (checked_div 0 duration) with (Ok (A:=N) 0)
      by (symmetry; apply checked_div_ok; split;
          [symmetry; apply N.Div0.div_0_l | lia]).
    reflexivity. }
  split; [exact Hpull |]. split; [exact Hstream |]. split; [lia |].
  split; [exact Hpayment |]. split.
  - unfold claimStreamingPayment. cbv zeta. rewrite Hstream.
    cbn [StreamingPayment.recipient StreamingPayment.totalAmount
         StreamingPayment.claimedAmount].
    rewrite N.eqb_refl.
    replace (0 <? totalAmount) with true by (symmetry; apply N.ltb_lt; lia).
    cbn [require bind]. rewrite Hnone. reflexivity.
  - unfold getClaimableAmount. cbv zeta. rewrite Hstream.
    cbn [StreamingPayment.recipient].
    apply N.eqb_neq in Hrecipient. rewrite Hrecipient. exact Hnone.
Qed.

(** The books of a recurring payment.  From its creation on, along any
    sequence of execution attempts by any callers at any times, the number of
    completed payments never exceeds [totalPayments], the released amount is
    exactly [amount] times the completed payments, the escrowed total is
    [amount * totalPayments], the schedule is active exactly while payments
    are left, and the payment is completed exactly when none is. *)
Theorem recurring_schedule_accounting (s_init s0 : Router.t W)
  (payer created recipient amount interval totalPayments paymentId : N)
  (calls : list (address * N)) :
  createRecurringPayment self keccak256 s_init payer created recipient amount interval
    totalPayments = Ok (paymentId, s0) ->
  let s := transactAll self keccak256 s0 (executeCalls paymentId calls) in
  let r := Router.recurring s paymentId in
  let p := Router.payment s paymentId in
  RecurringPayment.amount r = amount
  /\ RecurringPayment.totalPayments r = totalPayments
  /\ RecurringPayment.completedPayments r <= totalPayments
  /\ Payment.totalAmount p = amount * totalPayments
  /\ Payment.releasedAmount p = amount * RecurringPayment.completedPayments r
  /\ Payment.releasedAmount p <= Payment.totalAmount p
  /\ RecurringPayment.isActive r
     = (RecurringPayment.completedPayments r <? totalPayments)
  /\ Payment.isCompleted p
     = (totalPayments <=? RecurringPayment.completedPayments r).
Proof.
  intros Hcreate.
  assert (Hpositive : 0 < totalPayments).
  { unfold createRecurringPayment in Hcreate. inv_ok Hcreate.
    apply andb_true_iff in Hreq0 as [_ Htotal]. apply N.ltb_lt. exact Htotal. }
  apply createRecurringPayment_ok in Hcreate as (Hr0 & Hp0).
  set (holds := fun s : Router.t W =>
         RecurringPayment.amount (Router.recurring s paymentId) = amount
         /\ RecurringPayment.totalPayments (Router.recurring s paymentId) = totalPayments
         /\ RecurringPayment.completedPayments (Router.recurring s paymentId)
            <= totalPayments
         /\ Payment.totalAmount (Router.payment s paymentId) = amount * totalPayments
         /\ Payment.releasedAmount (Router.payment s paymentId)
            = amount * RecurringPayment.completedPayments (Router.recurring s paymentId)
         /\ RecurringPayment.isActive (Router.recurring s paymentId)
            = (RecurringPayment.completedPayments (Router.recurring s paymentId)
               <? totalPayments)
         /\ Payment.isCompleted (Router.payment s paymentId)
            = (totalPayments
               <=? RecurringPayment.completedPayments (Router.recurring s paymentId))).
  assert (Hstart : holds s0).
  { unfold holds. rewrite Hr0, Hp0. simpl.
    repeat split; try lia.
    - symmetry. apply N.ltb_lt. exact Hpositive.
    - symmetry. apply N.leb_gt. exact Hpositive. }
  assert (Hstep : forall (s1 : Router.t W) (sender now : N),
             holds s1 ->
             holds (transact self keccak256 s1
                      (sender, now, ExecuteRecurringPayment paymentId))).
  { intros s1 sender now (Ha & Ht & Hc & Hta & Hrel & Hact & Hdone).
    unfold transact, call.
    destruct (executeRecurringPayment self s1 sender now paymentId) as [s2|f] eqn:Hx;
      [| repeat split; assumption].
    apply executeRecurringPayment_ok in Hx as (_ & _ & Hleft & _ & Hr2 & Hp2).
    rewrite Ht in Hleft, Hr2, Hp2. rewrite Ha in Hp2.
    unfold holds. rewrite Hr2, Hp2.
    cbn [RecurringPayment.amount RecurringPayment.totalPayments
         RecurringPayment.completedPayments RecurringPayment.isActive].
    split; [exact Ha |]. split; [reflexivity |]. split; [lia |].
    destruct (N.leb_spec totalPayments
                (RecurringPayment.completedPayments (Router.recurring s1 paymentId) + 1))
      as [Hlast | Hmore]; simpl; rewrite Hrel.
    - split; [exact Hta |]. split; [lia |].
      split; [symmetry; apply N.ltb_ge; exact Hlast | reflexivity].
    - split; [exact Hta |]. split; [lia |].
      split; [symmetry; apply N.ltb_lt; exact Hmore |].
      rewrite Hdone. apply N.leb_gt. lia. }
  assert (Hall : forall (cs : list (address * N)) (s1 : Router.t W),
             holds s1 ->
             holds (transactAll self keccak256 s1 (executeCalls paymentId cs))).
  { induction cs as [|[sender now] cs IH]; intros s1 H1; [exact H1 |].
    apply (IH (transact self keccak256 s1
                 (sender, now, ExecuteRecurringPayment paymentId))).
    apply Hstep. exact H1. }
  intros s r p.
  destruct (Hall calls s0 Hstart) as (Ha & Ht & Hc & Hta & Hrel & Hact & Hdone).
  fold s in Ha, Ht, Hc, Hta, Hrel, Hact, Hdone. fold r in Ha, Ht, Hc, Hrel, Hact, Hdone.
  fold p in Hta, Hrel, Hdone.
  split; [exact Ha |]. split; [exact Ht |]. split; [exact Hc |].
  split; [exact Hta |]. split; [exact Hrel |].
  split; [rewrite Hrel, Hta; apply N.mul_le_mono_l; exact Hc |].
  split; [exact Hact | exact Hdone].
Qed.

(** Reading the two counters off a successful run [H]. *)
Ltac counters H :=
  inv_ok H;
  repeat match goal with
         | Hadd : checked_add _ _ = Ok _ |- _ => apply checked_add_ok in Hadd as [-> _]
         end;
  repeat match type of H with
         | (if ?c then _ else _) = Ok _ => destruct c
         end;
  injection H; intros; subst; simpl;
  repeat match goal with
         | |- context [if ?c then _ else _] => destruct c
         end;
  simpl; split; lia.

Lemma call_counters (s s' : Router.t W) (sender now : N) (c : RouterCall) :
  call self keccak256 s sender now c = Ok s' ->
  Router.totalPaymentsProcessed s <= Router.totalPaymentsProcessed s'
  /\ Router.totalVolumeProcessed s <= Router.totalVolumeProcessed s'.
Proof.
  intros H. destruct c; simpl in H.
  - apply processX402Payment_ok in H as (_ & _ & _ & _ & -> & ->). split; lia.
  - unfold dropId in H.
    destruct (createSplitPayment _ _ _ _ _ _ _) as [[pid s1]|] eqn:Hc;
      [simpl in H; injection H as <- | discriminate H].
    unfold createSplitPayment in Hc. counters Hc.
  - unfold dropId in H.
    destruct (createStreamingPayment _ _ _ _ _ _ _ _) as [[pid s1]|] eqn:Hc;
      [simpl in H; injection H as <- | discriminate H].
    unfold createStreamingPayment in Hc. counters Hc.
  - unfold claimStreamingPayment in H. counters H.
  - unfold dropId in H.
    destruct (createConditionalPayment _ _ _ _ _ _ _ _ _) as [[pid s1]|] eqn:Hc;
      [simpl in H; injection H as <- | discriminate H].
    unfold createConditionalPayment in Hc. counters Hc.
  - unfold releaseConditionalPayment in H. counters H.
  - unfold dropId in H.
    destruct (createRecurringPayment _ _ _ _ _ _ _ _ _) as [[pid s1]|] eqn:Hc;
      [simpl in H; injection H as <- | discriminate H].
    unfold createRecurringPayment in Hc. counters Hc.
  - unfold executeRecurringPayment in H. counters H.
  - unfold cancelPayment in H. counters H.
Qed.

(** The aggregate counters only go up: along any sequence of transactions,
    failed ones included, [totalPaymentsProcessed] and [totalVolumeProcessed]
    (the pair [getStats] returns) never decrease. *)
Theorem stats_never_decrease (s : Router.t W) (txs : list (address * N * RouterCall)) :
  fst (getStats s) <= fst (getStats (transactAll self keccak256 s txs))
  /\ snd (getStats s) <= snd (getStats (transactAll self keccak256 s txs)).
Proof.
  unfold getStats. cbn [fst snd].
  revert s. induction txs as [|[[sender now] c] txs IH]; intros s.
  - split; reflexivity.
  - change (transactAll self keccak256 s ((sender, now, c) :: txs))
      with (transactAll self keccak256 (transact self keccak256 s (sender, now, c)) txs).
    destruct (IH (transact self keccak256 s (sender, now, c))) as [Hcount Hvolume].
    assert (Hone : Router.totalPaymentsProcessed s
                   <= Router.totalPaymentsProcessed
                        (transact self keccak256 s (sender, now, c))
                   /\ Router.totalVolumeProcessed s
                      <= Router.totalVolumeProcessed
                           (transact self keccak256 s (sender, now, c))).
    { unfold transact.
      destruct (call self keccak256 s sender now c) as [s'|f] eqn:Hcall;
        [eapply call_counters; eassumption | split; reflexivity]. }
    destruct Hone as [Hcount1 Hvolume1]. split; etransitivity; eassumption.
Qed.
End RouterLifecycle.

(** * Properties of the registry *)

Section RegistryProperties.
Context {W : Type} `{HChain : Chain W}.
Variable self : address.
Variable keccak256 : list packed -> bytes32.

(** What a successful [recordCall] checked and did. *)
Lemma recordCall_ok (s s' : Registry.t W) (sender now agentId : N) :
  recordCall self s sender now agentId = Ok s' ->
  let a := Registry.agent s agentId in
  let price := Agent.pricePerCall a in
  let fee := price * Registry.platformFeeRate s / BASIS_POINTS in
  Agent.owner a <> 0
  /\ Agent.isActive a = true
  /\ fee <= price
  /\ (if 0 <? price
      then w <- safeTransferFrom (Registry.chain s) self sender self fee ;;
           safeTransferFrom w self sender (Agent.paymentAddress a) (price - fee)
      else Ok (Registry.chain s)) = Ok (Registry.chain s')
  /\ Registry.agent s' agentId =
       Agent.mk (Agent.owner a) (Agent.paymentAddress a) (Agent.metadataUri a)
         (Agent.capabilities a) price (Agent.totalCalls a + 1)
         (Agent.totalRevenue a + (price - fee)) (Agent.rating a) (Agent.ratingCount a)
         true (Agent.createdAt a) now
  /\ (forall other : N, other <> agentId ->
        Registry.agent s' other = Registry.agent s other)
  /\ Registry.totalCalls s' = Registry.totalCalls s + 1
  /\ Registry.totalVolume s' = Registry.totalVolume s + price
  /\ Registry.platformFeeRate s' = Registry.platformFeeRate s
  /\ Registry.contractOwner s' = Registry.contractOwner s
  /\ Registry.allAgentIds s' = Registry.allAgentIds s
  /\ Registry.totalAgents s' = Registry.totalAgents s.
Proof.
  unfold recordCall. intros H. cbv zeta in *.
  remember (Registry.agent s agentId) as a eqn:Ha.
  inv_ok H. destruct a0 as [[w revenue] volume].
  apply negb_true_iff, N.eqb_neq in Hreq.
  inv_ok H. apply checked_add_ok in Hbind0 as [-> _], Hbind1 as [-> _].
  injection H as <-.
  assert (Hpaid : Agent.pricePerCall a * Registry.platformFeeRate s / BASIS_POINTS
                    <= Agent.pricePerCall a
                  /\ (if 0 <? Agent.pricePerCall a
                      then w0 <- safeTransferFrom (Registry.chain s) self sender self
                                   (Agent.pricePerCall a * Registry.platformFeeRate s
                                    / BASIS_POINTS) ;;
                           safeTransferFrom w0 self sender (Agent.paymentAddress a)
                             (Agent.pricePerCall a
                              - Agent.pricePerCall a * Registry.platformFeeRate s
                                / BASIS_POINTS)
                      else Ok (Registry.chain s)) = Ok w
                  /\ revenue = Agent.totalRevenue a
                               + (Agent.pricePerCall a
                                  - Agent.pricePerCall a * Registry.platformFeeRate s
                                    / BASIS_POINTS)
                  /\ volume = Registry.totalVolume s + Agent.pricePerCall a).
  { destruct (N.ltb_spec 0 (Agent.pricePerCall a)) as [Hpos | Hzero].
    - inv_ok Hbind.
      apply checked_mul_ok in Hbind0 as [-> _].
      apply checked_div_ok in Hbind1 as [-> _].
      apply checked_sub_ok in Hbind2 as [-> Hle].
      apply checked_add_ok in Hbind5 as [-> _], Hbind6 as [-> _].
      injection Hbind as <- <- <-.
      split; [exact Hle |]. rewrite Hbind3. cbn [bind].
      split; [exact Hbind4 |]. split; reflexivity.
    - injection Hbind as <- <- <-.
      assert (Hfree : Agent.pricePerCall a = 0) by lia.
      rewrite Hfree, N.mul_0_l, N.Div0.div_0_l. simpl. repeat split; lia. }
  destruct Hpaid as (Hle & Hmoved & -> & ->).
  split; [exact Hreq |]. split; [reflexivity |]. split; [exact Hle |].
  split; [exact Hmoved |].
  split.
  { unfold Registry.agent. simpl. rewrite lookup_insert_eq. simpl.
    rewrite ?Hreq0. reflexivity. }
  split.
  { intros other Hother. unfold Registry.agent. simpl.
    rewrite lookup_insert_ne by congruence. reflexivity. }
  repeat split.
Qed.

(** A paid call splits the price without loss: the platform fee is
    [floor(price * rate / 10000)], the agent's payment address receives the
    rest, the two transfers add up to exactly [pricePerCall], and the agent's
    revenue and the registry's volume grow by the agent's part and by the
    price.  A call to an unknown or to a deactivated agent is rejected. *)
Theorem recordCall_splits_price (s : Registry.t W) (sender now agentId : N) :
  let a := Registry.agent s agentId in
  let price := Agent.pricePerCall a in
  let fee := price * Registry.platformFeeRate s / BASIS_POINTS in
  (Agent.owner a = 0 ->
   recordCall self s sender now agentId = Fail (Error "Agent not found"))
  /\ (Agent.owner a <> 0 -> Agent.isActive a = false ->
      recordCall self s sender now agentId = Fail (Error "Agent not active"))
  /\ (forall s' : Registry.t W,
        recordCall self s sender now agentId = Ok s' ->
        fee + (price - fee) = price
        /\ (0 < price ->
            exists w : W,
              safeTransferFrom (Registry.chain s) self sender self fee = Ok w
              /\ safeTransferFrom w self sender (Agent.paymentAddress a) (price - fee)
                 = Ok (Registry.chain s'))
        /\ (price = 0 -> Registry.chain s' = Registry.chain s)
        /\ Agent.totalRevenue (Registry.agent s' agentId)
           = Agent.totalRevenue a + (price - fee)
        /\ Agent.totalCalls (Registry.agent s' agentId) = Agent.totalCalls a + 1
        /\ Agent.lastActiveAt (Registry.agent s' agentId) = now
        /\ Registry.totalCalls s' = Registry.totalCalls s + 1
        /\ Registry.totalVolume s' = Registry.totalVolume s + price).
Proof.
  intros a price fee. split; [| split].
  - intros Hunknown. unfold recordCall. fold a. rewrite Hunknown. reflexivity.
  - intros Hknown Hoff. unfold recordCall. fold a.
    apply N.eqb_neq in Hknown. rewrite Hknown, Hoff. reflexivity.
  - intros s' Hcall.
    apply recordCall_ok in Hcall
      as (_ & _ & Hle & Hmoved & Hagent & _ & Hcalls & Hvolume & _).
    fold a in Hle, Hmoved, Hagent. fold price in Hle, Hmoved, Hagent, Hvolume.
    fold fee in Hle, Hmoved, Hagent.
    split; [lia |]. split.
    { intros Hpos. apply N.ltb_lt in Hpos. rewrite Hpos in Hmoved.
      destruct (safeTransferFrom (Registry.chain s) self sender self fee) as [w|] eqn:Hfee;
        [| discriminate Hmoved].
      exists w. split; [reflexivity | exact Hmoved]. }
    split.
    { intros Hfree. rewrite Hfree in Hmoved. simpl in Hmoved.
      injection Hmoved as <-. reflexivity. }
    rewrite Hagent. simpl. repeat split; assumption.
Qed.

Lemma agent_set_agent (s : Registry.t W) (k other : N) (a : Agent.t) :
  Registry.agent (Registry.set_agent k a s) other
  = if decide (k = other) then a else Registry.agent s other.
Proof.
  unfold Registry.agent, Registry.set_agent. simpl.
  rewrite lookup_insert. destruct (decide (k = other)); reflexivity.
Qed.

(** What a successful [rateAgent] checked and did. *)
Lemma rateAgent_ok (s s' : Registry.t W) (sender agentId rating : N) :
  rateAgent s sender agentId rating = Ok s' ->
  let a := Registry.agent s agentId in
  Agent.owner a <> 0
  /\ (rating = 1 \/ rating = 2)
  /\ s' = Registry.set_agent agentId
            (Agent.mk (Agent.owner a) (Agent.paymentAddress a) (Agent.metadataUri a)
               (Agent.capabilities a) (Agent.pricePerCall a) (Agent.totalCalls a)
               (Agent.totalRevenue a)
               ((Agent.rating a * Agent.ratingCount a + rating * 100)
                / (Agent.ratingCount a + 1))
               (Agent.ratingCount a + 1) (Agent.isActive a) (Agent.createdAt a)
               (Agent.lastActiveAt a)) s.
Proof.
  unfold rateAgent. intros H. cbv zeta in *.
  remember (Registry.agent s agentId) as a eqn:Ha.
  inv_ok H. apply negb_true_iff, N.eqb_neq in Hreq.
  apply andb_true_iff in Hreq0 as [Hlow Hhigh].
  apply N.leb_le in Hlow, Hhigh.
  apply checked_mul_ok in Hbind as [-> _].
  apply checked_add_ok in Hbind0 as [-> _].
  unfold scaledRating in Hbind1.
  destruct (N.leb_spec (rating * 100) 255) as [Hfits | Hover]; [| discriminate Hbind1].
  injection Hbind1 as <-.
  apply checked_add_ok in Hbind2 as [-> _].
  apply checked_div_ok in Hbind3 as [-> _].
  injection H as <-.
  split; [exact Hreq |]. split; [lia | reflexivity].
Qed.

(** The average of one- and two-star ratings stays between them. *)
Lemma average_in_range (count average rating : N) :
  count = 0 \/ 100 <= average <= 200 ->
  rating = 1 \/ rating = 2 ->
  100 <= (average * count + rating * 100) / (count + 1) <= 200.
Proof.
  intros Hbefore Hsmall. split.
  - apply N.div_le_lower_bound; [lia |].
    destruct Hbefore as [-> | [Hlow _]].
    + destruct Hsmall as [-> | ->]; lia.
    + assert (100 * count <= average * count)
        by (apply N.mul_le_mono_r; exact Hlow).
      destruct Hsmall as [-> | ->]; lia.
  - apply N.Div0.div_le_upper_bound.
    destruct Hbefore as [-> | [_ Hhigh]].
    + destruct Hsmall as [-> | ->]; lia.
    + assert (average * count <= 200 * count)
        by (apply N.mul_le_mono_r; exact Hhigh).
      destruct Hsmall as [-> | ->]; lia.
Qed.

(** Ratings.  [rateAgent] rejects a rating outside 1..5 with "Invalid
    rating".  Of the ratings it lets through, 3, 4 and 5 make the 8-bit
    product [rating * 100] overflow, so the call reverts; only 1 and 2 are
    ever recorded.  A recorded rating adds one to [ratingCount] and replaces
    [rating] by the average, scaled by 100 and rounded down; the average of
    an agent whose rating was within 100..200, or who had no rating yet, is
    again within 100..200. *)
Theorem rateAgent_records_one_or_two (s : Registry.t W) (sender agentId rating : N) :
  let a := Registry.agent s agentId in
  (Agent.owner a <> 0 -> rating = 0 \/ 5 < rating <= 255 ->
   rateAgent s sender agentId rating = Fail (Error "Invalid rating"))
  /\ (3 <= rating <= 5 -> is_ok (rateAgent s sender agentId rating) = false)
  /\ (forall s' : Registry.t W,
        rateAgent s sender agentId rating = Ok s' ->
        let a' := Registry.agent s' agentId in
        (rating = 1 \/ rating = 2)
        /\ Agent.ratingCount a' = Agent.ratingCount a + 1
        /\ Agent.rating a'
           = (Agent.rating a * Agent.ratingCount a + rating * 100)
             / (Agent.ratingCount a + 1)
        /\ (Agent.ratingCount a = 0 \/ 100 <= Agent.rating a <= 200 ->
            100 <= Agent.rating a' <= 200)).
Proof.
  intros a. split; [| split].
  - intros Hknown Hrange. unfold rateAgent. fold a.
    apply N.eqb_neq in Hknown. rewrite Hknown. cbn [negb require bind].
    replace ((1 <=? rating) && (rating <=? 5)) with false; [reflexivity |].
    symmetry. apply andb_false_iff.
    destruct Hrange as [-> | [Hbig _]];
      [left; reflexivity | right; apply N.leb_gt; exact Hbig].
  - intros Hrange.
    destruct (rateAgent s sender agentId rating) as [s'|f] eqn:Hrate; [exfalso | reflexivity].
    apply rateAgent_ok in Hrate as (_ & Hsmall & _). lia.
  - intros s' Hrate a'.
    apply rateAgent_ok in Hrate as (_ & Hsmall & ->). fold a.
    subst a'. rewrite agent_set_agent. destruct (decide (agentId = agentId)); [| congruence].
    simpl. split; [exact Hsmall |]. split; [reflexivity |]. split; [reflexivity |].
    intros Hbefore. apply average_in_range; assumption.
Qed.

(** The state a successful [registerAgent] leaves. *)
Lemma registerAgent_ok (s s' : Registry.t W) (sender now pricePerCall paymentAddress
  agentId : N) (metadataUri : string) (capabilities : list string) :
  registerAgent keccak256 s sender now metadataUri capabilities pricePerCall
    paymentAddress = Ok (agentId, s') ->
  metadataUri <> ""%string
  /\ capabilities <> []
  /\ paymentAddress <> 0
  /\ agentId = keccak256 [PAddress sender; PUint now; PString metadataUri]
  /\ Agent.owner (Registry.agent s agentId) = 0
  /\ s' = Registry.mk (Registry.chain s) (Registry.contractOwner s)
            (<[agentId := Agent.mk sender paymentAddress metadataUri capabilities
                 pricePerCall 0 0 0 0 true now now]> (Registry.agents s))
            (<[sender := Registry.agentsOf s sender ++ [agentId]]>
               (Registry.ownerAgents s))
            (indexCapabilities (Registry.capabilityToAgents s) capabilities agentId)
            (Registry.allAgentIds s ++ [agentId])
            (Registry.platformFeeRate s) (Registry.totalAgents s + 1)
            (Registry.totalCalls s) (Registry.totalVolume s).
Proof.
  unfold registerAgent. intros H. inv_ok H.
  apply checked_add_ok in Hbind as [-> _].
  apply negb_true_iff, N.eqb_neq in Hreq1. apply N.eqb_eq in Hreq2.
  injection H as <- <-.
  split; [intros ->; discriminate Hreq |].
  split; [intros ->; discriminate Hreq0 |].
  split; [exact Hreq1 |]. split; [reflexivity |]. split; [exact Hreq2 | reflexivity].
Qed.

(** What every successful transaction keeps: the contract owner; the fee
    rate, unless the owner sets one within the maximum; the agreement of the
    agent counter with the list of ids; well-rated agents. *)
Lemma registryCall_keeps (s s' : Registry.t W) (sender now : N) (c : RegistryCall) :
  registryCall self keccak256 s sender now c = Ok s' ->
  Registry.contractOwner s' = Registry.contractOwner s
  /\ (Registry.platformFeeRate s' = Registry.platformFeeRate s
      \/ (sender = Registry.contractOwner s
          /\ Registry.platformFeeRate s' <= MAX_FEE_RATE))
  /\ (Registry.totalAgents s = N.of_nat (length (Registry.allAgentIds s)) ->
      Registry.totalAgents s' = N.of_nat (length (Registry.allAgentIds s')))
  /\ ((forall id : N, Agent.wellRated (Registry.agent s id)) ->
      forall id : N, Agent.wellRated (Registry.agent s' id)).
Proof.
  intros H. destruct c; simpl in H.
  - unfold dropId in H.
    destruct (registerAgent _ _ _ _ _ _ _ _) as [[id s1]|] eqn:Hregister;
      [simpl in H; injection H as <- | discriminate H].
    apply registerAgent_ok in Hregister as (_ & _ & _ & _ & _ & ->). simpl.
    split; [reflexivity |]. split; [left; reflexivity |]. split.
    + intros ->. rewrite length_app. simpl. lia.
    + intros Hrated other. unfold Registry.agent. simpl.
      rewrite lookup_insert. destruct (decide (id = other)); [| apply Hrated].
      left. split; reflexivity.
  - apply recordCall_ok in H
      as (_ & _ & _ & _ & Hagent & Hothers & _ & _ & Hrate & Howner & Hids & Htotal).
    split; [exact Howner |]. split; [left; exact Hrate |]. split.
    + rewrite Hids, Htotal. intros Heq. exact Heq.
    + intros Hrated other. destruct (decide (other = agentId)) as [-> | Hne].
      * rewrite Hagent. exact (Hrated agentId).
      * rewrite Hothers by exact Hne. apply Hrated.
  - pose proof H as Hrate. apply rateAgent_ok in Hrate as (_ & _ & ->).
    split; [reflexivity |]. split; [left; reflexivity |]. split; [intros Heq; exact Heq |].
    intros Hrated other. rewrite agent_set_agent.
    destruct (decide (agentId = other)) as [<- | _]; [| apply Hrated].
    right. cbn [Agent.rating].
    apply rateAgent_ok in H as (_ & Hsmall & _).
    apply average_in_range; [| exact Hsmall].
    destruct (Hrated agentId) as [[Hnone _] | Hrange]; [left | right]; assumption.
  - unfold updateAgent in H. inv_ok H. injection H as <-.
    split; [reflexivity |]. split; [left; reflexivity |]. split; [intros Heq; exact Heq |].
    intros Hrated other. rewrite agent_set_agent.
    destruct (decide (agentId = other)) as [<- | _]; [| apply Hrated].
    exact (Hrated agentId).
  - unfold deactivateAgent in H. inv_ok H. injection H as <-.
    split; [reflexivity |]. split; [left; reflexivity |]. split; [intros Heq; exact Heq |].
    intros Hrated other. rewrite agent_set_agent.
    destruct (decide (agentId = other)) as [<- | _]; [| apply Hrated].
    exact (Hrated agentId).
  - unfold activateAgent in H. inv_ok H. injection H as <-.
    split; [reflexivity |]. split; [left; reflexivity |]. split; [intros Heq; exact Heq |].
    intros Hrated other. rewrite agent_set_agent.
    destruct (decide (agentId = other)) as [<- | _]; [| apply Hrated].
    exact (Hrated agentId).
  - unfold setPlatformFeeRate, onlyOwner in H.
    destruct (N.eqb_spec (Registry.contractOwner s) sender) as [Hsender |];
      [| discriminate H].
    cbn [bind] in H. inv_ok H. apply N.leb_le in Hreq. injection H as <-. simpl.
    split; [reflexivity |]. split; [right; split; [symmetry; exact Hsender | exact Hreq] |].
    split; [intros Heq; exact Heq | intros Hrated; exact Hrated].
  - unfold withdrawFees in H. inv_ok H. injection H as <-. simpl.
    split; [reflexivity |]. split; [left; reflexivity |].
    split; [intros Heq; exact Heq | intros Hrated; exact Hrated].
Qed.

(** What holds in every state the registry reaches from deployment through
    the functions it defines. *)
Lemma registry_reachable (w : W) (deployer : address)
  (txs : list (address * N * RegistryCall)) :
  let s := registryTransactAll self keccak256 (Registry.deployed w deployer) txs in
  Registry.contractOwner s = deployer
  /\ Registry.platformFeeRate s <= MAX_FEE_RATE
  /\ Registry.totalAgents s = N.of_nat (length (Registry.allAgentIds s))
  /\ forall id : N, Agent.wellRated (Registry.agent s id).
Proof.
  set (holds := fun s : Registry.t W =>
         Registry.contractOwner s = deployer
         /\ Registry.platformFeeRate s <= MAX_FEE_RATE
         /\ Registry.totalAgents s = N.of_nat (length (Registry.allAgentIds s))
         /\ forall id : N, Agent.wellRated (Registry.agent s id)).
  assert (Hall : forall (l : list (address * N * RegistryCall)) (s0 : Registry.t W),
             holds s0 -> holds (registryTransactAll self keccak256 s0 l)).
  { induction l as [|[[sender now] c] l IH]; intros s0 H0; [exact H0 |].
    apply (IH (registryTransact self keccak256 s0 (sender, now, c))).
    unfold registryTransact. cbn [fst snd].
    destruct (registryCall self keccak256 s0 sender now c) as [s1|f] eqn:Hcall;
      [| exact H0].
    destruct H0 as (Howner & Hrate & Hcount & Hrated).
    apply registryCall_keeps in Hcall as (Howner1 & Hrate1 & Hcount1 & Hrated1).
    split; [rewrite Howner1; exact Howner |].
    split; [destruct Hrate1 as [-> | [_ Hle]]; assumption |].
    split; [apply Hcount1; exact Hcount | apply Hrated1; exact Hrated]. }
  apply Hall. unfold holds. simpl.
  split; [reflexivity |]. split; [discriminate |]. split; [reflexivity |].
  intros id. left. split; reflexivity.
Qed.

(** The platform fee is capped.  Whatever calls of the registry's functions
    have been processed since deployment, the fee rate is at most
    [MAX_FEE_RATE] (10%), so the fee taken from a call is at most a tenth of
    the price. *)
Theorem platformFee_at_most_a_tenth (w : W) (deployer : address)
  (txs : list (address * N * RegistryCall)) (price : N) :
  let s := registryTransactAll self keccak256 (Registry.deployed w deployer) txs in
  Registry.platformFeeRate s <= MAX_FEE_RATE
  /\ price * Registry.platformFeeRate s / BASIS_POINTS <= price / 10.
Proof.
  intros s. destruct (registry_reachable w deployer txs) as (_ & Hrate & _).
  fold s in Hrate.
  split; [exact Hrate |].
  transitivity (price * MAX_FEE_RATE / BASIS_POINTS).
  - apply N.Div0.div_le_mono. apply N.mul_le_mono_l. exact Hrate.
  - unfold MAX_FEE_RATE, BASIS_POINTS.
    change 10000 with (10 * 1000). rewrite N.Div0.div_mul_cancel_r by discriminate.
    reflexivity.
Qed.

(** Bookkeeping of the registry.  In every state reached from deployment
    through the registry's functions, [totalAgents] is the number of
    registered ids, and every agent either has
    no rating (count and average both zero) or an average between 100 and
    200. *)
Theorem registry_bookkeeping (w : W) (deployer : address)
  (txs : list (address * N * RegistryCall)) :
  let s := registryTransactAll self keccak256 (Registry.deployed w deployer) txs in
  Registry.totalAgents s = N.of_nat (length (Registry.allAgentIds s))
  /\ forall id : N, Agent.wellRated (Registry.agent s id).
Proof.
  intros s. destruct (registry_reachable w deployer txs) as (_ & _ & Hcount & Hrated).
  split; [exact Hcount | exact Hrated].
Qed.

(** Only the contract owner sets the fee or withdraws it.  For any other
    sender [setPlatformFeeRate] and [withdrawFees] revert, and no transaction
    of such a sender changes the fee rate.  The owner's new rate is refused
    with "Fee too high" above [MAX_FEE_RATE] and stored otherwise. *)
Theorem platformFeeRate_owner_only (s : Registry.t W) (sender now : N) :
  (sender <> Registry.contractOwner s ->
   (forall newRate : N, setPlatformFeeRate s sender newRate = Fail Revert)
   /\ (forall to : N, withdrawFees self s sender to = Fail Revert)
   /\ forall c : RegistryCall,
        Registry.platformFeeRate (registryTransact self keccak256 s (sender, now, c))
        = Registry.platformFeeRate s)
  /\ (sender = Registry.contractOwner s ->
      forall newRate : N,
        (MAX_FEE_RATE < newRate ->
         setPlatformFeeRate s sender newRate = Fail (Error "Fee too high"))
        /\ (newRate <= MAX_FEE_RATE ->
            exists s' : Registry.t W,
              setPlatformFeeRate s sender newRate = Ok s'
              /\ Registry.platformFeeRate s' = newRate)).
Proof.
  split.
  - intros Hother.
    assert (Hno : (Registry.contractOwner s =? sender) = false)
      by (apply N.eqb_neq; congruence).
    split; [| split].
    + intros newRate. unfold setPlatformFeeRate, onlyOwner. rewrite Hno. reflexivity.
    + intros to. unfold withdrawFees, onlyOwner. rewrite Hno. reflexivity.
    + intros c. unfold registryTransact. cbn [fst snd].
      destruct (registryCall self keccak256 s sender now c) as [s'|f] eqn:Hcall;
        [| reflexivity].
      apply registryCall_keeps in Hcall as (_ & [Hsame | [Howner _]] & _);
        [exact Hsame | contradiction].
  - intros Hsender newRate.
    assert (Hyes : (Registry.contractOwner s =? sender) = true)
      by (apply N.eqb_eq; congruence).
    unfold setPlatformFeeRate, onlyOwner. rewrite Hyes. cbn [bind]. split.
    + intros Hhigh. apply N.leb_gt in Hhigh. rewrite Hhigh. reflexivity.
    + intros Hfine. apply N.leb_le in Hfine. rewrite Hfine. cbn [require bind].
      eexists. split; reflexivity.
Qed.

(** Switching an agent off and on.  Only the agent's owner can deactivate
    it; a deactivated agent takes no calls ("Agent not active" for every
    caller); and when the owner activates it again the agent record is
    exactly what it was before, for an agent that was active. *)
Theorem deactivateAgent_blocks_calls (s : Registry.t W) (sender agentId : N) :
  let a := Registry.agent s agentId in
  (Agent.owner a <> sender ->
   deactivateAgent s sender agentId = Fail (Error "Not agent owner")
   /\ activateAgent s sender agentId = Fail (Error "Not agent owner"))
  /\ (forall s' : Registry.t W,
        deactivateAgent s sender agentId = Ok s' ->
        Agent.owner a = sender
        /\ isAgentActive s' agentId = false
        /\ (sender <> 0 ->
            forall caller now : N,
              recordCall self s' caller now agentId = Fail (Error "Agent not active"))
        /\ exists s'' : Registry.t W,
             activateAgent s' sender agentId = Ok s''
             /\ isAgentActive s'' agentId = true
             /\ (Agent.isActive a = true -> Registry.agent s'' agentId = a)).
Proof.
  intros a. split.
  - intros Hother. unfold deactivateAgent, activateAgent. fold a.
    apply N.eqb_neq in Hother. rewrite Hother. split; reflexivity.
  - intros s' Hoff. unfold deactivateAgent in Hoff. fold a in Hoff. inv_ok Hoff.
    apply N.eqb_eq in Hreq. injection Hoff as <-.
    assert (Hagent : Registry.agent (Registry.set_agent agentId (setActive false a) s)
                       agentId = setActive false a).
    { rewrite agent_set_agent. destruct (decide (agentId = agentId)); congruence. }
    split; [exact Hreq |].
    split; [unfold isAgentActive; rewrite Hagent; reflexivity |].
    split.
    { intros Hsender caller now. unfold recordCall. cbv zeta. rewrite Hagent.
      cbn [setActive Agent.owner Agent.isActive]. rewrite Hreq.
      apply N.eqb_neq in Hsender. rewrite Hsender. reflexivity. }
    unfold activateAgent. rewrite Hagent. cbn [setActive Agent.owner].
    rewrite Hreq, N.eqb_refl. cbn [require bind].
    eexists. split; [reflexivity |].
    unfold isAgentActive. rewrite agent_set_agent.
    destruct (decide (agentId = agentId)); [| congruence].
    split; [reflexivity |].
    intros Hactive. destruct a. simpl in *. rewrite Hactive. reflexivity.
Qed.

Lemma indexCapabilities_lookup (capabilities : list string) (index : gmap string (list N))
  (agentId : N) (c : string) :
  default [] (indexCapabilities index capabilities agentId !! c)
  = default [] (index !! c) ++ replicate (count_occ string_dec capabilities c) agentId.
Proof.
  revert index. induction capabilities as [|c0 rest IH]; intros index; simpl.
  - rewrite app_nil_r. reflexivity.
  - rewrite IH, lookup_insert.
    destruct (decide (c0 = c)) as [-> | Hne]; destruct (string_dec _ c) as [Heq | Hneq];
      try congruence.
    simpl. rewrite <- app_assoc. reflexivity.
Qed.

(** Registration.  [registerAgent] needs a metadata URI, at least one
    capability and a payment address.  On success the new agent is active,
    owned by the (non-zero) caller, unrated and uncalled; its id is appended
    to the list of all ids, to the caller's agents and to the list of each of
    its capabilities, once for every time the capability is given and after
    the ids that were there, the lists of other capabilities being untouched;
    and the same registration cannot be repeated on the resulting state. *)
Theorem registerAgent_registers (s : Registry.t W) (sender now pricePerCall
  paymentAddress : N) (metadataUri : string) (capabilities : list string) :
  let register (s0 : Registry.t W) :=
    registerAgent keccak256 s0 sender now metadataUri capabilities pricePerCall
      paymentAddress in
  sender <> 0 ->
  (metadataUri = ""%string -> register s = Fail (Error "Invalid metadata URI"))
  /\ (metadataUri <> ""%string -> capabilities = [] ->
      register s = Fail (Error "At least one capability required"))
  /\ (metadataUri <> ""%string -> capabilities <> [] -> paymentAddress = 0 ->
      register s = Fail (Error "Invalid payment address"))
  /\ (forall (agentId : N) (s' : Registry.t W),
        register s = Ok (agentId, s') ->
        Registry.agent s' agentId =
          Agent.mk sender paymentAddress metadataUri capabilities pricePerCall
            0 0 0 0 true now now
        /\ isAgentActive s' agentId = true
        /\ Registry.allAgentIds s' = Registry.allAgentIds s ++ [agentId]
        /\ Registry.agentsOf s' sender = Registry.agentsOf s sender ++ [agentId]
        /\ Registry.totalAgents s' = Registry.totalAgents s + 1
        /\ (forall c : string,
              Registry.agentsWith s' c
              = Registry.agentsWith s c
                  ++ replicate (count_occ string_dec capabilities c) agentId)
        /\ (forall c : string,
              In c capabilities -> In agentId (Registry.agentsWith s' c))
        /\ (forall c : string,
              ~ In c capabilities -> Registry.agentsWith s' c = Registry.agentsWith s c)
        /\ register s' = Fail (Error "Agent already exists")).
Proof.
  intros register Hsender. subst register. cbv beta.
  split; [intros ->; reflexivity |].
  split.
  { intros Huri ->. unfold registerAgent. destruct metadataUri; [congruence | reflexivity]. }
  split.
  { intros Huri Hcaps ->. unfold registerAgent.
    destruct metadataUri; [congruence |]. destruct capabilities; [congruence |].
    reflexivity. }
  intros agentId s' H. pose proof H as Hregister.
  apply registerAgent_ok in Hregister as (Huri & Hcaps & Hpay & Hid & _ & ->).
  assert (Hagent : Registry.agent
                     (Registry.mk (Registry.chain s) (Registry.contractOwner s)
                        (<[agentId := Agent.mk sender paymentAddress metadataUri
                             capabilities pricePerCall 0 0 0 0 true now now]>
                           (Registry.agents s))
                        (<[sender := Registry.agentsOf s sender ++ [agentId]]>
                           (Registry.ownerAgents s))
                        (indexCapabilities (Registry.capabilityToAgents s) capabilities
                           agentId)
                        (Registry.allAgentIds s ++ [agentId])
                        (Registry.platformFeeRate s) (Registry.totalAgents s + 1)
                        (Registry.totalCalls s) (Registry.totalVolume s)) agentId
                   = Agent.mk sender paymentAddress metadataUri capabilities
                       pricePerCall 0 0 0 0 true now now).
  { unfold Registry.agent. simpl. rewrite lookup_insert_eq. reflexivity. }
  split; [exact Hagent |].
  split; [unfold isAgentActive; rewrite Hagent; reflexivity |].
  split; [reflexivity |].
  split; [unfold Registry.agentsOf; simpl; rewrite lookup_insert_eq; reflexivity |].
  split; [reflexivity |].
  assert (Hindex : forall c : string,
            Registry.agentsWith
              (Registry.mk (Registry.chain s) (Registry.contractOwner s)
                 (<[agentId := Agent.mk sender paymentAddress metadataUri
                      capabilities pricePerCall 0 0 0 0 true now now]>
                    (Registry.agents s))
                 (<[sender := Registry.agentsOf s sender ++ [agentId]]>
                    (Registry.ownerAgents s))
                 (indexCapabilities (Registry.capabilityToAgents s) capabilities
                    agentId)
                 (Registry.allAgentIds s ++ [agentId])
                 (Registry.platformFeeRate s) (Registry.totalAgents s + 1)
                 (Registry.totalCalls s) (Registry.totalVolume s)) c
            = Registry.agentsWith s c
                ++ replicate (count_occ string_dec capabilities c) agentId).
  { intros c. unfold Registry.agentsWith. simpl. apply indexCapabilities_lookup. }
  split; [exact Hindex |].
  split.
  { intros c Hin. rewrite Hindex. apply in_or_app. right.
    apply (count_occ_In string_dec) in Hin.
    destruct (count_occ string_dec capabilities c); [lia |]. left. reflexivity. }
  split.
  { intros c Hout. rewrite Hindex.
    apply (count_occ_not_In string_dec) in Hout. rewrite Hout. apply app_nil_r. }
  unfold registerAgent.
  destruct metadataUri; [congruence |]. destruct capabilities; [congruence |].
  cbn [String.length length N.of_nat N.ltb N.compare require bind].
  apply N.eqb_neq in Hpay. rewrite Hpay. cbn [negb require bind].
  rewrite <- Hid, Hagent. cbn [Agent.owner].
  apply N.eqb_neq in Hsender. rewrite Hsender. reflexivity.
Qed.
End RegistryProperties.

(** * Further properties of the workflow engine *)

Section EngineLifecycle.
Context {W : Type} `{HChain : Chain W}.
Variable self : address.
Variable keccak256 : list packed -> bytes32.



(** Gas that is left over changes nothing: a loop that ends within [fuel]
    iterations ends in the same state with more. *)
Lemma runLoop_more_fuel (fuel extra : nat) (steps : list WorkflowStep.t)
  (workflowId executionId sender now : N) (st st' : Loop.t W) :
  runLoop self fuel steps workflowId executionId sender now st = Ok st' ->
  runLoop self (fuel + extra) steps workflowId executionId sender now st = Ok st'.
Proof.
  revert st. induction fuel as [|fuel IH]; intros st Hrun.
  - simpl in Hrun. destruct (loopGuard steps st) eqn:Hguard; [discriminate Hrun |].
    injection Hrun as <-. destruct extra; simpl; rewrite Hguard; reflexivity.
  - simpl in Hrun |- *. destruct (loopGuard steps st); [| exact Hrun].
    destruct (loopBody self steps workflowId executionId sender now st) as [st1|];
      [| discriminate Hrun].
    cbn [bind] in Hrun |- *. apply IH. exact Hrun.
Qed.


(** The loop at a DELAY step that is not due and points back at itself. *)
Lemma runLoop_delay_spins (fuel : nat) (steps : list WorkflowStep.t)
  (workflowId executionId sender now : N) (step : WorkflowStep.t) (requiredTime : N)
  (st : Loop.t W) :
  steps !! N.to_nat (Loop.currentStep st) = Some step ->
  Loop.currentStep st < N.of_nat (length steps) ->
  Loop.currentStep st <> MAX_UINT256 ->
  WorkflowStep.stepType step = StepType.DELAY ->
  abi_decode_uint256 (WorkflowStep.callData step) = Ok requiredTime ->
  now < requiredTime ->
  WorkflowStep.nextStepOnFailure step = Loop.currentStep st ->
  Loop.continueExecution st = true ->
  runLoop self fuel steps workflowId executionId sender now st = Fail OutOfGas.
Proof.
  intros Hstep Hin Hmax Htype Hdecode Hearly Hback.
  revert st Hstep Hin Hmax Hback.
  induction fuel as [|fuel IH]; intros st Hstep Hin Hmax Hback Hgo; simpl;
    unfold loopGuard; rewrite Hgo; apply N.ltb_lt in Hin as Hin'; rewrite Hin';
    cbn [andb]; [reflexivity |].
  unfold loopBody. rewrite Hstep. unfold _executeStep. rewrite Htype, Hdecode.
  cbn [bind].
  apply N.leb_gt in Hearly as Hearly'. rewrite Hearly'. cbn [negb andb].
  rewrite Hback.
  apply N.eqb_neq in Hmax as Hmax'. rewrite Hmax'.
  apply N.leb_gt in Hin as Hin''. rewrite Hin''. cbn [orb bind].
  apply IH; cbn [Loop.currentStep Loop.continueExecution]; assumption.
Qed.

(** A DELAY step whose time has not come and whose failure edge points back
    at the step itself is evaluated again and again within the same
    transaction, where the block time does not move: the loop never ends and
    [executeWorkflow] runs out of gas, however much it was given. *)
Theorem executeWorkflow_delay_self_loop (s : Engine.t W) (sender now value : N)
  (fuel : nat) (gasUsed workflowId startStep : N) (step : WorkflowStep.t)
  (requiredTime : N) :
  let workflow := Engine.workflow s workflowId in
  Workflow.owner workflow <> 0 ->
  Workflow.isActive workflow = true ->
  Engine.executionFee s <= value ->
  Workflow.steps workflow !! N.to_nat startStep = Some step ->
  startStep < N.of_nat (length (Workflow.steps workflow)) ->
  startStep <> MAX_UINT256 ->
  WorkflowStep.stepType step = StepType.DELAY ->
  abi_decode_uint256 (WorkflowStep.callData step) = Ok requiredTime ->
  now < requiredTime ->
  WorkflowStep.nextStepOnFailure step = startStep ->
  executeWorkflow self keccak256 s sender now value fuel gasUsed workflowId startStep
  = Fail OutOfGas.
Proof.
  intros workflow Hknown Hactive Hfee Hstep Hin Hmax Htype Hdecode Hearly Hback.
  unfold executeWorkflow. fold workflow.
  apply N.eqb_neq in Hknown. rewrite Hknown, Hactive.
  apply N.ltb_lt in Hin as Hin'. rewrite Hin'.
  apply N.leb_le in Hfee. rewrite Hfee. cbn [negb require bind].
  rewrite (runLoop_delay_spins _ _ _ _ _ _ step requiredTime); [reflexivity | auto ..].
Qed.











(** What [createWorkflow] stores. *)
Lemma createWorkflow_ok (s s' : Engine.t W) (sender now : N) (name description : string)
  (steps : list WorkflowStep.t) (workflowId : N) (events : list Event) :
  createWorkflow keccak256 s sender now name description steps
    = Ok (workflowId, s', events) ->
  workflowId = keccak256 [PAddress sender; PUint now; PString name]
  /\ 0 < N.of_nat (length steps) <= 20
  /\ Engine.workflow s' workflowId
     = Workflow.mk workflowId sender name description
         (Workflow.steps (Engine.workflow s workflowId) ++ steps) true
         (Workflow.totalExecutions (Engine.workflow s workflowId))
         (Workflow.successfulExecutions (Engine.workflow s workflowId))
         (Workflow.totalGasUsed (Engine.workflow s workflowId)) now
         (Workflow.lastExecutedAt (Engine.workflow s workflowId))
  /\ Engine.workflowsOf s' sender = Engine.workflowsOf s sender ++ [workflowId]
  /\ Engine.allWorkflowIds s' = Engine.allWorkflowIds s ++ [workflowId]
  /\ Engine.totalWorkflows s' = Engine.totalWorkflows s + 1.
Proof.
  unfold createWorkflow. intros H. inv_ok H.
  apply N.ltb_lt in Hreq0. apply N.leb_le in Hreq1.
  apply checked_add_ok in Hbind as [-> _].
  injection H as <- <- <-.
  split; [reflexivity |]. split; [lia |].
  split; [unfold Engine.workflow at 1; simpl; rewrite lookup_insert_eq; reflexivity |].
  split; [unfold Engine.workflowsOf at 1; simpl; rewrite lookup_insert_eq; reflexivity |].
  split; reflexivity.
Qed.

(** The workflow id is the hash of the creator, the block time and the name,
    so creating a workflow of the same name twice in one block gives the same
    id twice.  The second call does not replace the first workflow: its
    steps are appended to the steps stored before, its description
    overwrites the earlier one, and the id is listed and counted a second
    time.  The limit of 20 steps is checked per call, so the merged workflow
    can be longer. *)
Theorem createWorkflow_same_block_merges (s s1 s2 : Engine.t W) (sender now : N)
  (name description1 description2 : string) (steps1 steps2 : list WorkflowStep.t)
  (id1 id2 : N) (events1 events2 : list Event) :
  createWorkflow keccak256 s sender now name description1 steps1 = Ok (id1, s1, events1) ->
  createWorkflow keccak256 s1 sender now name description2 steps2
    = Ok (id2, s2, events2) ->
  id2 = id1
  /\ Workflow.steps (Engine.workflow s2 id1)
     = Workflow.steps (Engine.workflow s id1) ++ steps1 ++ steps2
  /\ Workflow.description (Engine.workflow s2 id1) = description2
  /\ Engine.workflowsOf s2 sender = Engine.workflowsOf s sender ++ [id1; id1]
  /\ Engine.allWorkflowIds s2 = Engine.allWorkflowIds s ++ [id1; id1]
  /\ Engine.totalWorkflows s2 = Engine.totalWorkflows s + 2.
Proof.
  intros H1 H2.
  apply createWorkflow_ok in H1 as (Hid1 & _ & Hw1 & Hu1 & Ha1 & Ht1).
  apply createWorkflow_ok in H2 as (Hid2 & _ & Hw2 & Hu2 & Ha2 & Ht2).
  subst id1 id2.
  split; [reflexivity |].
  rewrite Hw2, Hu2, Ha2, Ht2, Hw1, Hu1, Ha1, Ht1. cbn [Workflow.steps Workflow.description].
  rewrite <- !app_assoc. repeat split. lia.
Qed.

(** Only the owner of a workflow can deactivate it, and a deactivated
    workflow cannot be executed by anyone; the other workflows, the
    histories and the counters are as before. *)
Theorem deactivateWorkflow_blocks_execution (s : Engine.t W) (sender : address)
  (workflowId : bytes32) :
  (Workflow.owner (Engine.workflow s workflowId) <> sender ->
   deactivateWorkflow s sender workflowId = Fail (Error "Not owner"))
  /\ (forall (s' : Engine.t W) (events : list Event),
        deactivateWorkflow s sender workflowId = Ok (s', events) ->
        Workflow.owner (Engine.workflow s workflowId) = sender
        /\ events = [WorkflowDeactivated workflowId]
        /\ Workflow.isActive (Engine.workflow s' workflowId) = false
        /\ Workflow.steps (Engine.workflow s' workflowId)
           = Workflow.steps (Engine.workflow s workflowId)
        /\ (forall other : bytes32, other <> workflowId ->
              Engine.workflow s' other = Engine.workflow s other)
        /\ Engine.executions s' = Engine.executions s
        /\ Engine.chain s' = Engine.chain s
        /\ (forall (executor now value : N) (fuel : nat) (gasUsed startStep : N),
              is_ok (executeWorkflow self keccak256 s' executor now value fuel gasUsed
                       workflowId startStep) = false)).
Proof.
  split.
  - intros Hother. unfold deactivateWorkflow.
    apply N.eqb_neq in Hother. rewrite Hother. reflexivity.
  - intros s' events H. unfold deactivateWorkflow in H. inv_ok H.
    apply N.eqb_eq in Hreq. injection H as Hs' <-.
    assert (Hstored : Engine.workflow s' workflowId
                      = Workflow.mk (Workflow.id (Engine.workflow s workflowId))
                          (Workflow.owner (Engine.workflow s workflowId))
                          (Workflow.name (Engine.workflow s workflowId))
                          (Workflow.description (Engine.workflow s workflowId))
                          (Workflow.steps (Engine.workflow s workflowId)) false
                          (Workflow.totalExecutions (Engine.workflow s workflowId))
                          (Workflow.successfulExecutions (Engine.workflow s workflowId))
                          (Workflow.totalGasUsed (Engine.workflow s workflowId))
                          (Workflow.createdAt (Engine.workflow s workflowId))
                          (Workflow.lastExecutedAt (Engine.workflow s workflowId))).
    { rewrite <- Hs'. unfold Engine.workflow at 1. simpl.
      rewrite lookup_insert_eq. reflexivity. }
    split; [exact Hreq |]. split; [reflexivity |].
    rewrite Hstored. cbn [Workflow.isActive Workflow.steps].
    do 2 (split; [reflexivity |]).
    split.
    { intros other Hother. rewrite <- Hs'. unfold Engine.workflow. simpl.
      rewrite lookup_insert_ne by congruence. reflexivity. }
    split; [rewrite <- Hs'; reflexivity |].
    split; [rewrite <- Hs'; reflexivity |].
    intros executor now value fuel gasUsed startStep.
    unfold executeWorkflow. rewrite Hstored. cbn [Workflow.isActive Workflow.owner].
    destruct (negb _); reflexivity.
Qed.
End EngineLifecycle.

(** * Runs on the test chain *)

(** Comparisons of closed numbers. *)
Ltac closed_le := vm_compute; let H := fresh in intros H; discriminate H.

(** Bob's share of Alice's stream: nothing at time 0, 300 at time 30. *)
Lemma claimStreamingPayment_spec_witness :
  StreamingPayment.recipient (Router.streaming Scenario.streams Scenario.aliceStream)
    = Scenario.bob
  /\ is_ok (claimStreamingPayment Scenario.router Scenario.streams Scenario.bob 0
              Scenario.aliceStream) = false
  /\ exists s' : Router.t Sim.t,
       claimStreamingPayment Scenario.router Scenario.streams Scenario.bob 30
         Scenario.aliceStream = Ok s'
       /\ Sim.balance (Router.chain s') Scenario.bob = 300
       /\ StreamingPayment.claimedAmount (Router.streaming s' Scenario.aliceStream) = 300
       /\ StreamingPayment.lastClaimTime (Router.streaming s' Scenario.aliceStream) = 30
       /\ Payment.releasedAmount (Router.payment s' Scenario.aliceStream) = 300
       /\ Payment.isCompleted (Router.payment s' Scenario.aliceStream) = false.
Proof.
  destruct (claimStreamingPayment_spec Scenario.router Scenario.streams Scenario.bob 0
              Scenario.aliceStream eq_refl) as [Hnone _].
  destruct (claimStreamingPayment_spec Scenario.router Scenario.streams Scenario.bob 30
              Scenario.aliceStream eq_refl) as [_ Hsome].
  split; [reflexivity |].
  split; [apply Hnone; closed_le |].
  destruct (claimStreamingPayment Scenario.router Scenario.streams Scenario.bob 30
              Scenario.aliceStream) as [s'|f] eqn:Hclaim;
    [| vm_compute in Hclaim; discriminate Hclaim].
  destruct (Hsome s' eq_refl)
    as (claimable & Hspec & _ & Htransfer & Hstream & Hreleased & _ & Hopen).
  assert (Hclaimable : claimable = 300).
  { apply N2Z.inj. rewrite Hspec. vm_compute. reflexivity. }
  subst claimable.
  exists s'. split; [reflexivity |].
  split.
  { remember (Router.chain s') as w' eqn:Hw'.
    vm_compute in Htransfer. injection Htransfer as <-. vm_compute. reflexivity. }
  rewrite Hstream, Hreleased.
  split; [reflexivity |]. split; [reflexivity |]. split; [reflexivity |].
  destruct Hopen as [Hsame _]; [vm_compute; reflexivity |].
  rewrite Hsame. reflexivity.
Defined.

(** Claims on Alice's stream out of order in time, some of them by callers
    who are not the recipient: the claimed amount goes from 0 to 300 and then
    to 1000, and stays there. *)
Lemma claimedAmount_monotone_bounded_witness :
  let claimed (s : Router.t Sim.t) :=
    StreamingPayment.claimedAmount (Router.streaming s Scenario.aliceStream) in
  let s1 :=
    transactAll Scenario.router simHash Scenario.streams
      (claimCalls Scenario.aliceStream
         [(Scenario.bob, 30); (Scenario.bob, 20); (Scenario.dave, 50)]) in
  let s2 :=
    transactAll Scenario.router simHash s1
      (claimCalls Scenario.aliceStream
         [(Scenario.bob, 200); (Scenario.bob, 80); (Scenario.bob, 300)]) in
  claimed Scenario.streams = 0
  /\ claimed s1 = 300
  /\ claimed s2 = 1000
  /\ claimed Scenario.streams <= claimed s1 <= claimed s2
  /\ claimed s2
     <= StreamingPayment.totalAmount (Router.streaming Scenario.streams Scenario.aliceStream).
Proof.
  intros claimed s1 s2.
  assert (Hinv : claimed Scenario.streams
                 <= StreamingPayment.totalAmount
                      (Router.streaming Scenario.streams Scenario.aliceStream))
    by closed_le.
  destruct (claimedAmount_monotone_bounded Scenario.router simHash Scenario.streams
              Scenario.aliceStream
              [(Scenario.bob, 30); (Scenario.bob, 20); (Scenario.dave, 50)]
              [(Scenario.bob, 200); (Scenario.bob, 80); (Scenario.bob, 300)] Hinv)
    as (_ & _ & Hmono1 & Hmono2 & Hbound).
  split; [vm_compute; reflexivity |].
  split; [vm_compute; reflexivity |].
  split; [vm_compute; reflexivity |].
  split; [split; [exact Hmono1 | exact Hmono2] | exact Hbound].
Defined.

(** Alice's escrow for Bob has no condition contract: Dave, who is neither
    payer nor recipient, releases it, and Bob receives the 400. *)
Lemma releaseConditionalPayment_zero_condition_witness :
  let c := Router.conditional Scenario.unconditional Scenario.aliceConditional in
  ConditionalPayment.conditionContract c = 0
  /\ ConditionalPayment.isReleased c = false
  /\ ConditionalPayment.amount c = 400
  /\ exists s' : Router.t Sim.t,
       releaseConditionalPayment Scenario.router Scenario.unconditional Scenario.dave 5
         Scenario.aliceConditional = Ok s'
       /\ Sim.balance (Router.chain s') Scenario.bob = 400
       /\ ConditionalPayment.isReleased (Router.conditional s' Scenario.aliceConditional)
          = true
       /\ Payment.isCompleted (Router.payment s' Scenario.aliceConditional) = true
       /\ releaseConditionalPayment Scenario.router s' Scenario.bob 6
            Scenario.aliceConditional = Fail (Error "Already released").
Proof.
  intros c.
  split; [reflexivity |]. split; [reflexivity |]. split; [reflexivity |].
  destruct (releaseConditionalPayment_zero_condition Scenario.router
              Scenario.unconditional Scenario.aliceConditional eq_refl) as [_ Hfresh].
  edestruct (Hfresh eq_refl Scenario.dave 5)
    as (s' & Hrelease & Hchain & Hlatch & Hpayment & _);
    [vm_compute; reflexivity | closed_le |].
  exists s'. split; [exact Hrelease |].
  split; [rewrite Hchain; vm_compute; reflexivity |].
  split; [exact Hlatch |].
  split; [rewrite Hpayment; reflexivity |].
  refine (proj1 (releaseConditionalPayment_zero_condition Scenario.router s'
                   Scenario.aliceConditional _) Hlatch Scenario.bob 6).
  apply (f_equal (fun r => match r with Ok s => ConditionalPayment.conditionContract
                                              (Router.conditional s Scenario.aliceConditional)
                                   | Fail _ => 0 end)) in Hrelease.
  vm_compute in Hrelease. symmetry. exact Hrelease.
Defined.

(** Alice runs her two-step workflow: the agent of the first step is not
    registered and the step has no failure handler, so the run is recorded as
    failed at step 0 and the swap is never evaluated. *)
Lemma executeWorkflow_no_handler_abort_witness :
  let executionId :=
    simHash [PBytes32 Scenario.twoSteps; PAddress Scenario.alice; PUint 50] in
  _executeStep Scenario.engine Scenario.funded Scenario.alice 50
    Scenario.callUnknownAgent = Ok (false, MAX_UINT256, Scenario.funded)
  /\ WorkflowStep.nextStepOnFailure Scenario.callUnknownAgent = MAX_UINT256
  /\ Workflow.steps (Engine.workflow Scenario.withTwoSteps Scenario.twoSteps)
     = [Scenario.callUnknownAgent; Scenario.swap]
  /\ exists s' : Engine.t Sim.t,
       executeWorkflow Scenario.engine simHash Scenario.withTwoSteps Scenario.alice 50
         1000000000000000 3 21000 Scenario.twoSteps 0
       = Ok (executionId, s',
             [WorkflowExecutionStarted Scenario.twoSteps executionId Scenario.alice;
              WorkflowStepExecuted Scenario.twoSteps executionId 0 false;
              WorkflowExecutionCompleted Scenario.twoSteps executionId false])
       /\ Engine.history s' Scenario.twoSteps
          = [WorkflowExecution.mk Scenario.twoSteps Scenario.alice 0 0 21000 true false
               "Step failed without handler" 50 50].
Proof.
  intros executionId.
  assert (Hrun : _executeStep Scenario.engine Scenario.funded Scenario.alice 50
                   Scenario.callUnknownAgent = Ok (false, MAX_UINT256, Scenario.funded))
    by reflexivity.
  split; [exact Hrun |]. split; [reflexivity |]. split; [reflexivity |].
  destruct (executeWorkflow_no_handler_abort Scenario.engine simHash Scenario.alice 50
              Scenario.callUnknownAgent Scenario.swap MAX_UINT256 Scenario.funded
              Scenario.funded Hrun eq_refl) as [_ Hworkflow].
  destruct (Hworkflow Scenario.withTwoSteps 1000000000000000 2%nat 21000
              Scenario.twoSteps)
    as (s' & Hexecute & _ & Hhistory);
    [reflexivity | reflexivity | discriminate | reflexivity
     | closed_le | closed_le | closed_le | closed_le |].
  exists s'. split; [exact Hexecute | exact Hhistory].
Defined.

(** Carol submits Alice's authorization of 250 to Bob (valid between 10 and
    100, nonce 77) at time 50: it goes through once.  It is rejected at time
    5 and at time 100, and Dave's later resubmission is a replay. *)
Lemma processX402Payment_replay_protection_witness :
  let submit (s : Router.t Sim.t) (sender now : N) :=
    processX402Payment Scenario.router s sender now Scenario.alice Scenario.bob
      250 10 100 77 [Byte.x01] in
  let s := emptyRouter Scenario.funded in
  is_ok (submit s Scenario.carol 5) = false
  /\ is_ok (submit s Scenario.carol 100) = false
  /\ exists s' : Router.t Sim.t,
       submit s Scenario.carol 50 = Ok s'
       /\ Sim.balance (Router.chain s') Scenario.bob = 250
       /\ Router.nonceUsed s' 77 = true
       /\ submit s' Scenario.dave 60 = Fail (Error "Nonce already used")
       /\ submit
            (transactAll Scenario.router simHash s'
               [(Scenario.alice, 61, CreateStreamingPayment Scenario.bob 500 10);
                (Scenario.bob, 66, ClaimStreamingPayment 0)])
            Scenario.carol 70
          = Fail (Error "Nonce already used").
Proof.
  cbv zeta.
  pose proof (processX402Payment_replay_protection Scenario.router simHash
                (emptyRouter Scenario.funded) Scenario.carol 5 Scenario.alice
                Scenario.bob 250 10 100 77 [Byte.x01]) as Hearly.
  cbv zeta in Hearly. destruct Hearly as (_ & Hearly & _).
  pose proof (processX402Payment_replay_protection Scenario.router simHash
                (emptyRouter Scenario.funded) Scenario.carol 100 Scenario.alice
                Scenario.bob 250 10 100 77 [Byte.x01]) as Hlate.
  cbv zeta in Hlate. destruct Hlate as (_ & _ & Hlate & _).
  pose proof (processX402Payment_replay_protection Scenario.router simHash
                (emptyRouter Scenario.funded) Scenario.carol 50 Scenario.alice
                Scenario.bob 250 10 100 77 [Byte.x01]) as Honce.
  cbv zeta in Honce. destruct Honce as (_ & _ & _ & Honce).
  split; [exact (proj1 (Hearly eq_refl)) |].
  split; [destruct Hlate as [Hfail _]; [closed_le | exact Hfail] |].
  eexists. split; [vm_compute; reflexivity |].
  edestruct Honce as (_ & Hused & Hreplay); [vm_compute; reflexivity |].
  split; [vm_compute; reflexivity |].
  split; [exact Hused |].
  split; [exact (proj2 (Hreplay [] Scenario.dave 60)) |].
  exact (proj2 (Hreplay _ Scenario.carol 70)).
Defined.

(** Alice's subscription of three payments of 100 to Bob: executed at 100,
    110 and 125, it is completed by the third execution; an execution at 105
    is not yet due, and a fourth one is rejected. *)
Lemma executeRecurringPayment_spec_witness :
  let execute (s : Router.t Sim.t) (sender now : N) :=
    executeRecurringPayment Scenario.router s sender now Scenario.aliceRecurring in
  createRecurringPayment Scenario.router simHash (emptyRouter Scenario.funded)
    Scenario.alice 100 Scenario.bob 100 10 3
  = Ok (Scenario.aliceRecurring, Scenario.subscribed)
  /\ execute Scenario.subscribed Scenario.carol 100 = Ok Scenario.paid1
  /\ is_ok (execute Scenario.paid1 Scenario.dave 105) = false
  /\ execute Scenario.paid1 Scenario.dave 110 = Ok Scenario.paid2
  /\ execute Scenario.paid2 Scenario.bob 125 = Ok Scenario.paid3
  /\ Payment.isCompleted (Router.payment Scenario.paid2 Scenario.aliceRecurring) = false
  /\ Payment.isCompleted (Router.payment Scenario.paid3 Scenario.aliceRecurring) = true
  /\ RecurringPayment.nextPaymentTime
       (Router.recurring Scenario.paid3 Scenario.aliceRecurring) = 135
  /\ Sim.balance (Router.chain Scenario.paid3) Scenario.bob = 300
  /\ execute Scenario.paid3 Scenario.bob 200 = Fail (Error "Not active").
Proof.
  cbv zeta.
  assert (Hcreate : createRecurringPayment Scenario.router simHash
                      (emptyRouter Scenario.funded) Scenario.alice 100 Scenario.bob
                      100 10 3 = Ok (Scenario.aliceRecurring, Scenario.subscribed))
    by (vm_compute; reflexivity).
  assert (H1 : executeRecurringPayment Scenario.router Scenario.subscribed
                 Scenario.carol 100 Scenario.aliceRecurring = Ok Scenario.paid1)
    by (vm_compute; reflexivity).
  assert (H2 : executeRecurringPayment Scenario.router Scenario.paid1
                 Scenario.dave 110 Scenario.aliceRecurring = Ok Scenario.paid2)
    by (vm_compute; reflexivity).
  assert (H3 : executeRecurringPayment Scenario.router Scenario.paid2
                 Scenario.bob 125 Scenario.aliceRecurring = Ok Scenario.paid3)
    by (vm_compute; reflexivity).
  pose proof (executeRecurringPayment_spec Scenario.router simHash Scenario.paid1
                Scenario.dave 105 Scenario.aliceRecurring) as Hspec.
  cbv zeta in Hspec. destruct Hspec as (_ & Hearly & _ & _ & Hthree).
  destruct (Hthree _ _ _ _ _ _ _ _ _ _ _ _ _ _ _ _ Hcreate H1 H2 H3)
    as (_ & _ & Hopen & Hdone & _ & _ & _ & Hfourth).
  split; [exact Hcreate |]. split; [exact H1 |].
  split; [apply Hearly; reflexivity |].
  split; [exact H2 |]. split; [exact H3 |].
  split; [exact Hopen |]. split; [exact Hdone |].
  split; [vm_compute; reflexivity |]. split; [vm_compute; reflexivity |].
  apply Hfourth.
Defined.

(** C3, the claim as worded: an execution does not advance
    [nextPaymentTime] by the interval.  Alice's first installment is due at
    100; executed at 150, it makes the next one due at 160, not at 110. *)
Lemma nextPaymentTime_not_advanced_by_interval :
  ~ (forall (s s' : Router.t Sim.t) (sender now paymentId : N),
       executeRecurringPayment Scenario.router s sender now paymentId = Ok s' ->
       RecurringPayment.nextPaymentTime (Router.recurring s' paymentId)
       = RecurringPayment.nextPaymentTime (Router.recurring s paymentId)
         + RecurringPayment.interval (Router.recurring s paymentId)).
Proof.
  intros Hclaim.
  specialize (Hclaim Scenario.subscribed Scenario.paidLate Scenario.bob 150
                Scenario.aliceRecurring).
  assert (Hrun : executeRecurringPayment Scenario.router Scenario.subscribed
                   Scenario.bob 150 Scenario.aliceRecurring = Ok Scenario.paidLate)
    by (vm_compute; reflexivity).
  specialize (Hclaim Hrun). vm_compute in Hclaim. discriminate Hclaim.
Qed.

(** Alice splits 1000 at time 5: Bob receives 700, Dave 300, and the payment
    is complete as soon as it exists. *)
Lemma createSplitPayment_pays_and_completes_witness :
  createSplitPayment Scenario.router simHash (emptyRouter Scenario.funded)
    Scenario.alice 5 Scenario.seventyThirty 1000
  = Ok (Scenario.aliceSplit, Scenario.splitDone)
  /\ Sim.balance (Router.chain Scenario.splitDone) Scenario.alice = 0
  /\ Sim.balance (Router.chain Scenario.splitDone) Scenario.bob = 700
  /\ Sim.balance (Router.chain Scenario.splitDone) Scenario.dave = 300
  /\ Sim.balance (Router.chain Scenario.splitDone) Scenario.router = 0
  /\ Payment.isCompleted (Router.payment Scenario.splitDone Scenario.aliceSplit) = true
  /\ Payment.releasedAmount (Router.payment Scenario.splitDone Scenario.aliceSplit) = 1000
  /\ Payment.completedAt (Router.payment Scenario.splitDone Scenario.aliceSplit) = 5.
Proof.
  assert (Hcreate : createSplitPayment Scenario.router simHash
                      (emptyRouter Scenario.funded) Scenario.alice 5
                      Scenario.seventyThirty 1000
                    = Ok (Scenario.aliceSplit, Scenario.splitDone))
    by (vm_compute; reflexivity).
  destruct (createSplitPayment_pays_and_completes Scenario.router simHash
              (emptyRouter Scenario.funded) Scenario.splitDone Scenario.alice 5
              Scenario.aliceSplit) as [Hany Hscenario].
  destruct (Hscenario Scenario.bob Scenario.dave Hcreate) as (_ & Hcompleted & Hreleased).
  destruct (Hany _ _ Hcreate) as (_ & Hpayment).
  split; [exact Hcreate |].
  do 4 (split; [vm_compute; reflexivity |]).
  split; [exact Hcompleted |]. split; [exact Hreleased |].
  rewrite Hpayment. reflexivity.
Defined.

(** Lists the router turns away, and the rounding of an accepted one: an
    empty list, 21 recipients, basis points adding up to 9000; thirds of 100
    pay out 99. *)
Lemma createSplitPayment_validation_witness :
  let create (recipients : list SplitRecipient.t) (totalAmount : N) :=
    createSplitPayment Scenario.router simHash (emptyRouter Scenario.funded)
      Scenario.alice 5 recipients totalAmount in
  create [] 1000 = Fail (Error "Invalid recipient count")
  /\ create (replicate 21 (SplitRecipient.mk Scenario.bob 10)) 1000
     = Fail (Error "Invalid recipient count")
  /\ is_ok (create [SplitRecipient.mk Scenario.bob 7000;
                    SplitRecipient.mk Scenario.dave 2000] 1000) = false
  /\ is_ok (create Scenario.thirds 100) = true
  /\ spec_totalShares 100 Scenario.thirds = 99
  /\ spec_totalShares 100 Scenario.thirds <= 100.
Proof.
  cbv zeta.
  pose proof (createSplitPayment_validation Scenario.router simHash
                (@nil SplitRecipient.t)) as Hempty.
  cbv zeta in Hempty. destruct Hempty as (Hempty & _).
  pose proof (createSplitPayment_validation Scenario.router simHash
                (replicate 21 (SplitRecipient.mk Scenario.bob 10))) as Hlong.
  cbv zeta in Hlong. destruct Hlong as (Hlong & _).
  pose proof (createSplitPayment_validation Scenario.router simHash
                [SplitRecipient.mk Scenario.bob 7000;
                 SplitRecipient.mk Scenario.dave 2000]) as Hshort.
  cbv zeta in Hshort. destruct Hshort as (_ & Hshort & _).
  pose proof (createSplitPayment_validation Scenario.router simHash Scenario.thirds)
    as Hthirds.
  cbv zeta in Hthirds. destruct Hthirds as (_ & _ & Haccepted & _).
  split; [apply Hempty; left; reflexivity |].
  split; [apply Hlong; right; vm_compute; lia |].
  split.
  { destruct Hshort as (f & _ & Hrejected); [discriminate |].
    rewrite Hrejected. reflexivity. }
  destruct (createSplitPayment Scenario.router simHash (emptyRouter Scenario.funded)
              Scenario.alice 5 Scenario.thirds 100) as [[paymentId s']|f] eqn:Hcreate;
    [| vm_compute in Hcreate; discriminate Hcreate].
  split; [reflexivity |]. split; [reflexivity |].
  apply (Haccepted _ _ _ _ _ _ Hcreate).
Defined.

(** At time 50 the condition "block time after 100" is false.  With step 1
    as failure edge the loop moves to step 1 and goes on, the record of the
    run otherwise untouched; with the sentinel as failure edge it aborts at
    step 0.  At time 150 the condition is true: with the sentinel as success
    edge the run ends there, successful.  Alice's balance of 1000 exceeds
    500. *)
Lemma condition_step_routing_witness :
  let body (now : N) (step : WorkflowStep.t) :=
    loopBody Scenario.engine [step; Scenario.swap] 1 2 Scenario.alice now
      (Scenario.startOf Scenario.funded) in
  let record := Loop.execution (Scenario.startOf Scenario.funded) in
  _evaluateCondition Scenario.funded 50 ConditionType.TIME_GT (abi_encode_word 100)
    = Ok false
  /\ _evaluateCondition Scenario.funded 50 ConditionType.BALANCE_GT
       (abi_encode_word Scenario.alice ++ abi_encode_word 500) = Ok true
  /\ _evaluateCondition Scenario.funded 50 ConditionType.PRICE_GT [] = Ok true
  /\ (exists st' : Loop.t Sim.t,
        body 50 Scenario.after100Else1 = Ok st'
        /\ Loop.currentStep st' = 1
        /\ Loop.continueExecution st' = true
        /\ Loop.execution st' = WorkflowExecution.set_currentStep 1 record)
  /\ (exists st' : Loop.t Sim.t,
        body 150 Scenario.after100Else1 = Ok st'
        /\ Loop.currentStep st' = MAX_UINT256
        /\ Loop.continueExecution st' = false
        /\ Loop.execution st'
           = WorkflowExecution.set_currentStep MAX_UINT256
               (WorkflowExecution.set_success true record))
  /\ body 50 Scenario.after100
     = Ok (aborted 1 2 (Scenario.startOf Scenario.funded) Scenario.funded).
Proof.
  cbv zeta.
  destruct (condition_step_routing Scenario.engine Scenario.funded 50)
    as [Hevaluate Hroute].
  destruct (condition_step_routing Scenario.engine Scenario.funded 150)
    as [Hevaluate' Hroute'].
  destruct (Hevaluate (abi_encode_word 100)) as (_ & Htime & _).
  destruct (Hevaluate' (abi_encode_word 100)) as (_ & Htime' & _).
  destruct (Hevaluate (abi_encode_word Scenario.alice ++ abi_encode_word 500))
    as (Hbalance & _).
  destruct (Hevaluate []) as (_ & _ & Hprice & _).
  split; [exact (proj1 (Htime 100 eq_refl)) |].
  split; [exact (proj1 (Hbalance Scenario.alice 500 eq_refl)) |].
  split; [exact Hprice |].
  split.
  { destruct (Hroute [Scenario.after100Else1; Scenario.swap] 1 2 Scenario.alice
                (Scenario.startOf Scenario.funded) Scenario.after100Else1 false
                eq_refl eq_refl eq_refl (proj1 (Htime 100 eq_refl)))
      as (st' & Hbody & _ & _ & _ & _ & Hedge & _ & Hrouted).
    exists st'. split; [exact Hbody |].
    split; [apply Hedge; [reflexivity | discriminate] |].
    cbv zeta in Hrouted.
    destruct Hrouted as [Hinside _]; [right; discriminate |].
    apply Hinside; [reflexivity | discriminate]. }
  split.
  { destruct (Hroute' [Scenario.after100Else1; Scenario.swap] 1 2 Scenario.alice
                (Scenario.startOf Scenario.funded) Scenario.after100Else1 true
                eq_refl eq_refl eq_refl (proj1 (Htime' 100 eq_refl)))
      as (st' & Hbody & _ & _ & _ & Hedge & _ & _ & Hrouted).
    exists st'. split; [exact Hbody |].
    split; [apply Hedge; reflexivity |].
    cbv zeta in Hrouted.
    destruct Hrouted as [_ Hended]; [left; reflexivity |].
    apply Hended. right. reflexivity. }
  destruct (Hroute [Scenario.after100; Scenario.swap] 1 2 Scenario.alice
              (Scenario.startOf Scenario.funded) Scenario.after100 false
              eq_refl eq_refl eq_refl (proj1 (Htime 100 eq_refl)))
    as (st' & Hbody & _ & _ & _ & _ & _ & Habort & _).
  rewrite Hbody, (Habort eq_refl eq_refl). reflexivity.
Defined.

(** C9, the claim as worded: a false condition whose failure edge is the
    sentinel is not routed to that edge.  At time 50 the step "block time
    after 100" leaves the loop at step 0, not at [type(uint256).max]. *)
Lemma false_condition_without_handler_aborts :
  ~ (forall (steps : list WorkflowStep.t) (workflowId executionId sender now : N)
       (st st' : Loop.t Sim.t) (step : WorkflowStep.t),
       steps !! N.to_nat (Loop.currentStep st) = Some step ->
       WorkflowStep.stepType step = StepType.CONDITION ->
       _evaluateCondition (Loop.chain st) now (WorkflowStep.conditionType step)
         (WorkflowStep.conditionData step) = Ok false ->
       loopBody Scenario.engine steps workflowId executionId sender now st = Ok st' ->
       Loop.currentStep st' = WorkflowStep.nextStepOnFailure step).
Proof.
  intros Hclaim.
  specialize (Hclaim [Scenario.after100; Scenario.swap] 1 2 Scenario.alice 50
                (Scenario.startOf Scenario.funded)
                (aborted 1 2 (Scenario.startOf Scenario.funded) Scenario.funded)
                Scenario.after100 eq_refl eq_refl eq_refl eq_refl).
  vm_compute in Hclaim. discriminate Hclaim.
Qed.

(** Alice cancels her subscription after the first installment: she is
    refunded 200 and no further installment can be executed. *)
Lemma cancelPayment_stops_schedule_witness :
  Payment.paymentType (Router.payment Scenario.paid1 Scenario.aliceRecurring)
    = PaymentType.RECURRING
  /\ cancelPayment Scenario.router Scenario.paid1 Scenario.alice 105
       Scenario.aliceRecurring = Ok Scenario.unsubscribed
  /\ Sim.balance (Router.chain Scenario.unsubscribed) Scenario.alice = 900
  /\ Sim.balance (Router.chain Scenario.unsubscribed) Scenario.bob = 100
  /\ RecurringPayment.isActive
       (Router.recurring Scenario.unsubscribed Scenario.aliceRecurring) = false
  /\ executeRecurringPayment Scenario.router Scenario.unsubscribed Scenario.carol 110
       Scenario.aliceRecurring = Fail (Error "Not active").
Proof.
  assert (Hcancel : cancelPayment Scenario.router Scenario.paid1 Scenario.alice 105
                      Scenario.aliceRecurring = Ok Scenario.unsubscribed)
    by (vm_compute; reflexivity).
  destruct (cancelPayment_stops_schedule Scenario.router Scenario.paid1
              Scenario.unsubscribed Scenario.alice 105 Scenario.aliceRecurring
              eq_refl Hcancel) as [Hinactive Hstopped].
  split; [reflexivity |]. split; [exact Hcancel |].
  split; [vm_compute; reflexivity |]. split; [vm_compute; reflexivity |].
  split; [exact Hinactive | exact (Hstopped Scenario.carol 110)].
Defined.

(** Alice's escrow, once released to Bob, can neither be released again nor
    cancelled. *)
Lemma releaseConditionalPayment_latches_witness :
  releaseConditionalPayment Scenario.router Scenario.unconditional Scenario.dave 5
    Scenario.aliceConditional = Ok Scenario.released
  /\ Sim.balance (Router.chain Scenario.released) Scenario.bob = 400
  /\ Payment.releasedAmount (Router.payment Scenario.released Scenario.aliceConditional)
     = 400
  /\ releaseConditionalPayment Scenario.router Scenario.released Scenario.bob 9
       Scenario.aliceConditional = Fail (Error "Already released")
  /\ is_ok (cancelPayment Scenario.router Scenario.released Scenario.alice 9
              Scenario.aliceConditional) = false.
Proof.
  assert (Hrelease : releaseConditionalPayment Scenario.router Scenario.unconditional
                       Scenario.dave 5 Scenario.aliceConditional = Ok Scenario.released)
    by (vm_compute; reflexivity).
  pose proof (releaseConditionalPayment_latches Scenario.router Scenario.unconditional
                Scenario.released Scenario.dave 5 Scenario.aliceConditional Hrelease)
    as Hlatch.
  cbv zeta in Hlatch. destruct Hlatch as (_ & _ & _ & Hamount & Hagain & Hcancel).
  split; [exact Hrelease |].
  split; [vm_compute; reflexivity |].
  split; [rewrite Hamount; reflexivity |].
  split; [exact (Hagain Scenario.bob 9) | exact (Hcancel Scenario.alice 9)].
Defined.

(** The escrow behind a condition contract: refused while the contract
    answers [false], released when it answers [true]. *)
Lemma releaseConditionalPayment_needs_condition_witness :
  ConditionalPayment.conditionContract
    (Router.conditional Scenario.refused Scenario.aliceConditional) = Sim.condFalse
  /\ releaseConditionalPayment Scenario.router Scenario.refused Scenario.bob 5
       Scenario.aliceConditional = Fail (Error "Condition not met")
  /\ is_ok (releaseConditionalPayment Scenario.router Scenario.approved Scenario.bob 5
              Scenario.aliceConditional) = true
  /\ abi_decode_bool
       (snd (Sim.staticcall (Router.chain Scenario.approved) 5 Sim.condTrue []))
     = Ok true.
Proof.
  pose proof (releaseConditionalPayment_needs_condition Scenario.router
                Scenario.refused Scenario.bob 5 Scenario.aliceConditional) as Hrefused.
  cbv zeta in Hrefused.
  destruct Hrefused as [_ Hrefused]; [vm_compute; discriminate |].
  pose proof (releaseConditionalPayment_needs_condition Scenario.router
                Scenario.approved Scenario.bob 5 Scenario.aliceConditional) as Happroved.
  cbv zeta in Happroved.
  destruct Happroved as [Happroved _]; [vm_compute; discriminate |].
  split; [reflexivity |].
  split; [apply Hrefused; [reflexivity | right; vm_compute; reflexivity] |].
  destruct (releaseConditionalPayment Scenario.router Scenario.approved Scenario.bob 5
              Scenario.aliceConditional) as [s'|f] eqn:Hrelease;
    [| vm_compute in Hrelease; discriminate Hrelease].
  split; [reflexivity |].
  destruct (Happroved s' eq_refl) as [_ Hanswer].
  exact Hanswer.
Defined.

(** Bob claims Alice's stream at time 200, after its end: he receives all
    1000 and the stream is closed. *)
Lemma claimStreamingPayment_after_end_witness :
  exists s' : Router.t Sim.t,
    claimStreamingPayment Scenario.router Scenario.streams Scenario.bob 200
      Scenario.aliceStream = Ok s'
    /\ Sim.balance (Router.chain s') Scenario.bob = 1000
    /\ StreamingPayment.claimedAmount (Router.streaming s' Scenario.aliceStream) = 1000
    /\ Payment.isCompleted (Router.payment s' Scenario.aliceStream) = true
    /\ claimStreamingPayment Scenario.router s' Scenario.bob 300 Scenario.aliceStream
       = Fail (Error "Fully claimed").
Proof.
  destruct (safeTransfer (Router.chain Scenario.streams) Scenario.router Scenario.bob
              (1000 - 0)) as [w|f] eqn:Hpay;
    [| vm_compute in Hpay; discriminate Hpay].
  pose proof (claimStreamingPayment_after_end Scenario.router Scenario.streams
                Scenario.bob 200 Scenario.aliceStream w) as Hclaim.
  cbv zeta in Hclaim.
  destruct Hclaim as (s' & Hclaim & Hchain & Hclaimed & _ & Hcompleted & _ & Hfull);
    [reflexivity | reflexivity | closed_le | reflexivity | closed_le | exact Hpay |].
  exists s'. split; [exact Hclaim |].
  split; [rewrite Hchain; vm_compute in Hpay; injection Hpay as <-; vm_compute; reflexivity |].
  split; [rewrite Hclaimed; reflexivity |].
  split; [exact Hcompleted | exact (Hfull 300)].
Defined.

(** At time 30 the view reports 300 for Alice's stream, which is what Bob's
    claim pays; it reports 0 for an id that is no stream. *)
Lemma getClaimableAmount_agrees_witness :
  getClaimableAmount Scenario.streams 30 Scenario.aliceStream = Ok 300
  /\ getClaimableAmount Scenario.streams 30 0 = Ok 0
  /\ exists s' : Router.t Sim.t,
       claimStreamingPayment Scenario.router Scenario.streams Scenario.bob 30
         Scenario.aliceStream = Ok s'
       /\ StreamingPayment.claimedAmount (Router.streaming s' Scenario.aliceStream) = 300.
Proof.
  assert (Hbob : Scenario.bob <> 0) by discriminate.
  destruct (getClaimableAmount_agrees Scenario.router Scenario.streams Scenario.bob 30
              Scenario.aliceStream Hbob) as [_ Hagrees].
  destruct (getClaimableAmount_agrees Scenario.router Scenario.streams Scenario.bob 30
              0 Hbob) as [Hnone _].
  split; [vm_compute; reflexivity |].
  split; [apply Hnone; reflexivity |].
  destruct (claimStreamingPayment Scenario.router Scenario.streams Scenario.bob 30
              Scenario.aliceStream) as [s'|f] eqn:Hclaim;
    [| vm_compute in Hclaim; discriminate Hclaim].
  exists s'. split; [reflexivity |].
  destruct (Hagrees s' eq_refl) as (claimable & Hview & _ & _ & Hclaimed).
  rewrite Hclaimed.
  assert (Hvalue : getClaimableAmount Scenario.streams 30 Scenario.aliceStream = Ok 300)
    by (vm_compute; reflexivity).
  rewrite Hvalue in Hview. injection Hview as <-. reflexivity.
Defined.

(** Alice's subscription after executions at 100, 105 (too early) and 110:
    two installments paid, 200 of 300 released, still active. *)
Lemma recurring_schedule_accounting_witness :
  let s :=
    transactAll Scenario.router simHash Scenario.subscribed
      (executeCalls Scenario.aliceRecurring
         [(Scenario.carol, 100); (Scenario.dave, 105); (Scenario.dave, 110)]) in
  createRecurringPayment Scenario.router simHash (emptyRouter Scenario.funded)
    Scenario.alice 100 Scenario.bob 100 10 3
  = Ok (Scenario.aliceRecurring, Scenario.subscribed)
  /\ RecurringPayment.completedPayments (Router.recurring s Scenario.aliceRecurring) = 2
  /\ Payment.releasedAmount (Router.payment s Scenario.aliceRecurring) = 200
  /\ Payment.totalAmount (Router.payment s Scenario.aliceRecurring) = 300
  /\ RecurringPayment.isActive (Router.recurring s Scenario.aliceRecurring) = true.
Proof.
  cbv zeta.
  assert (Hcreate : createRecurringPayment Scenario.router simHash
                      (emptyRouter Scenario.funded) Scenario.alice 100 Scenario.bob
                      100 10 3 = Ok (Scenario.aliceRecurring, Scenario.subscribed))
    by (vm_compute; reflexivity).
  pose proof (recurring_schedule_accounting Scenario.router simHash
                (emptyRouter Scenario.funded) Scenario.subscribed Scenario.alice 100
                Scenario.bob 100 10 3 Scenario.aliceRecurring
                [(Scenario.carol, 100); (Scenario.dave, 105); (Scenario.dave, 110)]
                Hcreate) as Hschedule.
  cbv zeta in Hschedule.
  destruct Hschedule as (_ & _ & _ & Htotal & Hreleased & _ & Hactive & _).
  assert (Hcount : RecurringPayment.completedPayments
                     (Router.recurring
                        (transactAll Scenario.router simHash Scenario.subscribed
                           (executeCalls Scenario.aliceRecurring
                              [(Scenario.carol, 100); (Scenario.dave, 105);
                               (Scenario.dave, 110)]))
                        Scenario.aliceRecurring) = 2)
    by (vm_compute; reflexivity).
  split; [exact Hcreate |]. split; [exact Hcount |].
  rewrite Hreleased, Htotal, Hactive, Hcount.
  repeat split.
Defined.

(** Bob registers his agent at time 7; without a metadata URI he is turned
    away, and the same registration a second time is a duplicate.  Carol
    then registers an agent that names "payments" twice: its id follows
    Bob's in that capability's list, twice. *)
Lemma registerAgent_registers_witness :
  let register (s : Registry.t Sim.t) (uri : string) :=
    registerAgent simHash s Scenario.bob 7 uri ["defi"; "payments"]%string 200
      Scenario.bob in
  register Scenario.freshRegistry ""%string = Fail (Error "Invalid metadata URI")
  /\ register Scenario.freshRegistry "ipfs://agent"%string
     = Ok (Scenario.bobAgent, Scenario.withAgent)
  /\ isAgentActive Scenario.withAgent Scenario.bobAgent = true
  /\ Registry.agentsWith Scenario.withAgent "payments" = [Scenario.bobAgent]
  /\ Registry.totalAgents Scenario.withAgent = 1
  /\ register Scenario.withAgent "ipfs://agent"%string
     = Fail (Error "Agent already exists")
  /\ registerAgent simHash Scenario.withAgent Scenario.carol 8 "ipfs://c"
       ["payments"; "payments"]%string 50 Scenario.carol
     = Ok (Scenario.carolAgent, Scenario.withTwoAgents)
  /\ Registry.agentsWith Scenario.withTwoAgents "payments"
     = [Scenario.bobAgent; Scenario.carolAgent; Scenario.carolAgent]
  /\ Registry.agentsWith Scenario.withTwoAgents "defi" = [Scenario.bobAgent].
Proof.
  cbv zeta.
  assert (Hbob : Scenario.bob <> 0) by discriminate.
  assert (Hcarol : Scenario.carol <> 0) by discriminate.
  pose proof (registerAgent_registers simHash Scenario.freshRegistry Scenario.bob 7 200
                Scenario.bob ""%string ["defi"; "payments"]%string) as Hempty.
  cbv zeta in Hempty. destruct (Hempty Hbob) as (Hnouri & _).
  pose proof (registerAgent_registers simHash Scenario.freshRegistry Scenario.bob 7 200
                Scenario.bob "ipfs://agent"%string ["defi"; "payments"]%string)
    as Hregister.
  cbv zeta in Hregister. destruct (Hregister Hbob) as (_ & _ & _ & Hregistered).
  pose proof (registerAgent_registers simHash Scenario.withAgent Scenario.carol 8 50
                Scenario.carol "ipfs://c"%string ["payments"; "payments"]%string)
    as Hsecond.
  cbv zeta in Hsecond. destruct (Hsecond Hcarol) as (_ & _ & _ & Hsecond').
  assert (Hrun : registerAgent simHash Scenario.freshRegistry Scenario.bob 7
                   "ipfs://agent" ["defi"; "payments"]%string 200 Scenario.bob
                 = Ok (Scenario.bobAgent, Scenario.withAgent))
    by (vm_compute; reflexivity).
  assert (Hrun2 : registerAgent simHash Scenario.withAgent Scenario.carol 8 "ipfs://c"
                    ["payments"; "payments"]%string 50 Scenario.carol
                  = Ok (Scenario.carolAgent, Scenario.withTwoAgents))
    by (vm_compute; reflexivity).
  destruct (Hregistered _ _ Hrun)
    as (_ & Hactive & _ & _ & Htotal & Hindex & _ & _ & Hagain).
  destruct (Hsecond' _ _ Hrun2) as (_ & _ & _ & _ & _ & Hindex2 & _).
  split; [apply Hnouri; reflexivity |].
  split; [exact Hrun |]. split; [exact Hactive |].
  split; [rewrite Hindex; reflexivity |].
  split; [rewrite Htotal; reflexivity |].
  split; [exact Hagain |].
  split; [exact Hrun2 |].
  split; rewrite Hindex2, Hindex; reflexivity.
Defined.

(** Alice calls Bob's agent at 200 per call with the fee at 2.5%: 5 stay with
    the registry and 195 go to Bob. *)
Lemma recordCall_splits_price_witness :
  recordCall Scenario.registry Scenario.withAgent Scenario.alice 9 Scenario.bobAgent
    = Ok Scenario.called
  /\ Sim.balance (Registry.chain Scenario.called) Scenario.registry = 5
  /\ Sim.balance (Registry.chain Scenario.called) Scenario.bob = 195
  /\ Sim.balance (Registry.chain Scenario.called) Scenario.alice = 800
  /\ Agent.totalRevenue (Registry.agent Scenario.called Scenario.bobAgent) = 195
  /\ Registry.totalVolume Scenario.called = 200.
Proof.
  assert (Hcall : recordCall Scenario.registry Scenario.withAgent Scenario.alice 9
                    Scenario.bobAgent = Ok Scenario.called)
    by (vm_compute; reflexivity).
  pose proof (recordCall_splits_price Scenario.registry Scenario.withAgent
                Scenario.alice 9 Scenario.bobAgent) as Hsplit.
  cbv zeta in Hsplit. destruct Hsplit as (_ & _ & Hsplit).
  destruct (Hsplit _ Hcall) as (_ & _ & _ & Hrevenue & _ & _ & _ & Hvolume).
  split; [exact Hcall |].
  do 3 (split; [vm_compute; reflexivity |]).
  rewrite Hrevenue, Hvolume.
  split; vm_compute; reflexivity.
Defined.

(** Bob's agent is rated 2, then 1: the average is 200, then 150.  A rating
    of 3, 4 or 5 is never recorded. *)
Lemma rateAgent_records_one_or_two_witness :
  let rate (s : Registry.t Sim.t) (rating : N) :=
    rateAgent s Scenario.carol Scenario.bobAgent rating in
  rate Scenario.withAgent 0 = Fail (Error "Invalid rating")
  /\ rate Scenario.withAgent 6 = Fail (Error "Invalid rating")
  /\ is_ok (rate Scenario.withAgent 3) = false
  /\ is_ok (rate Scenario.withAgent 4) = false
  /\ is_ok (rate Scenario.withAgent 5) = false
  /\ rate Scenario.withAgent 2 = Ok Scenario.ratedTwo
  /\ rate Scenario.ratedTwo 1 = Ok Scenario.ratedTwoOne
  /\ Agent.rating (Registry.agent Scenario.ratedTwo Scenario.bobAgent) = 200
  /\ Agent.rating (Registry.agent Scenario.ratedTwoOne Scenario.bobAgent) = 150
  /\ Agent.ratingCount (Registry.agent Scenario.ratedTwoOne Scenario.bobAgent) = 2.
Proof.
  cbv zeta.
  assert (Hknown : Agent.owner (Registry.agent Scenario.withAgent Scenario.bobAgent)
                   <> 0) by (vm_compute; discriminate).
  assert (Hrated : forall rating : N,
            (rating = 0 \/ 5 < rating <= 255 ->
             rateAgent Scenario.withAgent Scenario.carol Scenario.bobAgent rating
             = Fail (Error "Invalid rating"))
            /\ (3 <= rating <= 5 ->
                is_ok (rateAgent Scenario.withAgent Scenario.carol Scenario.bobAgent
                         rating) = false)).
  { intros rating.
    pose proof (rateAgent_records_one_or_two Scenario.withAgent Scenario.carol
                  Scenario.bobAgent rating) as H.
    cbv zeta in H. destruct H as (Hinvalid & Hlost & _).
    split; [exact (Hinvalid Hknown) | exact Hlost]. }
  assert (H1 : rateAgent Scenario.withAgent Scenario.carol Scenario.bobAgent 2
               = Ok Scenario.ratedTwo) by (vm_compute; reflexivity).
  assert (H2 : rateAgent Scenario.ratedTwo Scenario.carol Scenario.bobAgent 1
               = Ok Scenario.ratedTwoOne) by (vm_compute; reflexivity).
  pose proof (rateAgent_records_one_or_two Scenario.ratedTwo Scenario.carol
                Scenario.bobAgent 1) as Hsecond.
  cbv zeta in Hsecond. destruct Hsecond as (_ & _ & Hsecond).
  destruct (Hsecond _ H2) as (_ & Hcount2 & _ & _).
  split; [apply (Hrated 0); left; reflexivity |].
  split; [apply (Hrated 6); right; lia |].
  split; [apply (Hrated 3); lia |].
  split; [apply (Hrated 4); lia |].
  split; [apply (Hrated 5); lia |].
  split; [exact H1 |]. split; [exact H2 |].
  split; [vm_compute; reflexivity |].
  split; [vm_compute; reflexivity |].
  rewrite Hcount2. vm_compute. reflexivity.
Defined.

(** Bob deactivates his agent: Alice's call is refused; after he activates it
    again the agent is as it was.  Carol cannot deactivate it. *)
Lemma deactivateAgent_blocks_calls_witness :
  deactivateAgent Scenario.withAgent Scenario.carol Scenario.bobAgent
    = Fail (Error "Not agent owner")
  /\ deactivateAgent Scenario.withAgent Scenario.bob Scenario.bobAgent
     = Ok Scenario.agentOff
  /\ recordCall Scenario.registry Scenario.agentOff Scenario.alice 9 Scenario.bobAgent
     = Fail (Error "Agent not active")
  /\ isAgentActive Scenario.agentOff Scenario.bobAgent = false
  /\ activateAgent Scenario.agentOff Scenario.bob Scenario.bobAgent
     = Ok Scenario.agentOn
  /\ Registry.agent Scenario.agentOn Scenario.bobAgent
     = Registry.agent Scenario.withAgent Scenario.bobAgent.
Proof.
  pose proof (deactivateAgent_blocks_calls Scenario.registry Scenario.withAgent
                Scenario.carol Scenario.bobAgent) as Hcarol.
  cbv zeta in Hcarol. destruct Hcarol as [Hcarol _].
  pose proof (deactivateAgent_blocks_calls Scenario.registry Scenario.withAgent
                Scenario.bob Scenario.bobAgent) as Hbob.
  cbv zeta in Hbob. destruct Hbob as [_ Hbob].
  assert (Hoff : deactivateAgent Scenario.withAgent Scenario.bob Scenario.bobAgent
                 = Ok Scenario.agentOff) by (vm_compute; reflexivity).
  destruct (Hbob _ Hoff) as (_ & Hinactive & Hblocked & _).
  split; [apply Hcarol; vm_compute; discriminate |].
  split; [exact Hoff |].
  split; [apply Hblocked; discriminate |].
  split; [exact Hinactive |].
  split; vm_compute; reflexivity.
Defined.


(** Alice's waiting workflow at time 50: whatever gas she sends, the run uses
    it up.  From time 100 on, it completes. *)
Lemma executeWorkflow_delay_self_loop_witness :
  executeWorkflow Scenario.engine simHash Scenario.waiting Scenario.alice 50
    1000000000000000 1000 21000 Scenario.waitId 0 = Fail OutOfGas
  /\ is_ok (executeWorkflow Scenario.engine simHash Scenario.waiting Scenario.alice 100
              1000000000000000 1 21000 Scenario.waitId 0) = true.
Proof.
  split; [| vm_compute; reflexivity].
  pose proof (executeWorkflow_delay_self_loop Scenario.engine simHash Scenario.waiting
                Scenario.alice 50 1000000000000000 1000 21000 Scenario.waitId 0
                Scenario.waitUntil100 100) as Hspin.
  cbv zeta in Hspin.
  apply Hspin;
    [vm_compute; discriminate | reflexivity | closed_le | reflexivity | reflexivity
    | vm_compute; discriminate | reflexivity | reflexivity | reflexivity | reflexivity].
Defined.



(** Alice creates "batch" twice in the same block, with 20 swaps each time:
    there is one workflow, of 40 steps, counted twice. *)
Lemma createWorkflow_same_block_merges_witness :
  createWorkflow simHash (emptyEngine Scenario.funded) Scenario.alice 0 "batch" "one"
    (replicate 20 Scenario.swap)
  = Ok (Scenario.batch, Scenario.batchOnce,
        [WorkflowCreated Scenario.batch Scenario.alice "batch"])
  /\ createWorkflow simHash Scenario.batchOnce Scenario.alice 0 "batch" "two"
       (replicate 20 Scenario.swap)
     = Ok (Scenario.batch, Scenario.batchTwice,
           [WorkflowCreated Scenario.batch Scenario.alice "batch"])
  /\ length (Workflow.steps (Engine.workflow Scenario.batchTwice Scenario.batch))
     = 40%nat
  /\ Workflow.description (Engine.workflow Scenario.batchTwice Scenario.batch)
     = "two"%string
  /\ Engine.allWorkflowIds Scenario.batchTwice = [Scenario.batch; Scenario.batch]
  /\ Engine.totalWorkflows Scenario.batchTwice = 2.
Proof.
  assert (H1 : createWorkflow simHash (emptyEngine Scenario.funded) Scenario.alice 0
                 "batch" "one" (replicate 20 Scenario.swap)
               = Ok (Scenario.batch, Scenario.batchOnce,
                     [WorkflowCreated Scenario.batch Scenario.alice "batch"]))
    by (vm_compute; reflexivity).
  assert (H2 : createWorkflow simHash Scenario.batchOnce Scenario.alice 0 "batch" "two"
                 (replicate 20 Scenario.swap)
               = Ok (Scenario.batch, Scenario.batchTwice,
                     [WorkflowCreated Scenario.batch Scenario.alice "batch"]))
    by (vm_compute; reflexivity).
  destruct (createWorkflow_same_block_merges simHash _ _ _ _ _ _ _ _ _ _ _ _ _ _ H1 H2)
    as (_ & Hsteps & Hdescription & _ & Hall & Htotal).
  split; [exact H1 |]. split; [exact H2 |].
  rewrite Hsteps, Hdescription, Hall, Htotal.
  repeat split.
Defined.

(** Alice deactivates her two-step workflow; Bob cannot, and nobody can run
    it afterwards. *)
Lemma deactivateWorkflow_blocks_execution_witness :
  deactivateWorkflow Scenario.withTwoSteps Scenario.bob Scenario.twoSteps
    = Fail (Error "Not owner")
  /\ deactivateWorkflow Scenario.withTwoSteps Scenario.alice Scenario.twoSteps
     = Ok (Scenario.deactivated, [WorkflowDeactivated Scenario.twoSteps])
  /\ is_ok (executeWorkflow Scenario.engine simHash Scenario.deactivated Scenario.alice
              50 1000000000000000 3 21000 Scenario.twoSteps 0) = false
  /\ executeWorkflow Scenario.engine simHash Scenario.deactivated Scenario.alice 50
       1000000000000000 3 21000 Scenario.twoSteps 0
     = Fail (Error "Workflow not active").
Proof.
  destruct (deactivateWorkflow_blocks_execution Scenario.engine simHash
              Scenario.withTwoSteps Scenario.bob Scenario.twoSteps) as [Hbob _].
  destruct (deactivateWorkflow_blocks_execution Scenario.engine simHash
              Scenario.withTwoSteps Scenario.alice Scenario.twoSteps) as [_ Halice].
  assert (Hoff : deactivateWorkflow Scenario.withTwoSteps Scenario.alice Scenario.twoSteps
                 = Ok (Scenario.deactivated, [WorkflowDeactivated Scenario.twoSteps]))
    by (vm_compute; reflexivity).
  destruct (Halice _ _ Hoff) as (_ & _ & _ & _ & _ & _ & _ & Hblocked).
  split; [apply Hbob; vm_compute; discriminate |].
  split; [exact Hoff |].
  split; [apply Hblocked | vm_compute; reflexivity].
Defined.

(** Alice cancels her untouched stream at time 50: the 1000 come back to her;
    Bob cannot cancel it, and she cannot cancel it twice. *)
Lemma cancelPayment_refunds_once_witness :
  cancelPayment Scenario.router Scenario.streams Scenario.bob 50 Scenario.aliceStream
    = Fail (Error "Not payer")
  /\ cancelPayment Scenario.router Scenario.streams Scenario.alice 50 Scenario.aliceStream
     = Ok Scenario.cancelledStream
  /\ Sim.balance (Router.chain Scenario.cancelledStream) Scenario.alice = 1000
  /\ Payment.isCancelled (Router.payment Scenario.cancelledStream Scenario.aliceStream)
     = true
  /\ is_ok (cancelPayment Scenario.router Scenario.cancelledStream Scenario.alice 60
              Scenario.aliceStream) = false.
Proof.
  pose proof (cancelPayment_refunds_once Scenario.router Scenario.streams Scenario.bob 50
                Scenario.aliceStream) as Hbob.
  cbv zeta in Hbob. destruct Hbob as (Hbob & _).
  pose proof (cancelPayment_refunds_once Scenario.router Scenario.streams Scenario.alice
                50 Scenario.aliceStream) as Halice.
  cbv zeta in Halice. destruct Halice as (_ & _ & Halice).
  assert (Hcancel : cancelPayment Scenario.router Scenario.streams Scenario.alice 50
                      Scenario.aliceStream = Ok Scenario.cancelledStream)
    by (vm_compute; reflexivity).
  destruct (Halice _ Hcancel) as (_ & _ & _ & Hcancelled & _ & _ & _ & Honce).
  split; [apply Hbob; vm_compute; discriminate |].
  split; [exact Hcancel |].
  split; [vm_compute; reflexivity |].
  split; [exact Hcancelled | exact (Honce Scenario.alice 60)].
Defined.

(** Alice opens her stream for Bob at time 0: the 1000 move to the router,
    and nothing is claimable yet. *)
Lemma createStreamingPayment_opens_stream_witness :
  let create (recipient totalAmount duration : N) :=
    createStreamingPayment Scenario.router simHash (emptyRouter Scenario.funded)
      Scenario.alice 0 recipient totalAmount duration in
  create 0 1000 100 = Fail (Error "Invalid recipient")
  /\ create Scenario.bob 0 100 = Fail (Error "Amount must be positive")
  /\ create Scenario.bob 1000 0 = Fail (Error "Duration must be positive")
  /\ create Scenario.bob 1000 100 = Ok (Scenario.aliceStream, Scenario.aliceStreaming)
  /\ Sim.balance (Router.chain Scenario.aliceStreaming) Scenario.router = 1000
  /\ claimStreamingPayment Scenario.router Scenario.aliceStreaming Scenario.bob 0
       Scenario.aliceStream = Fail (Error "Nothing to claim")
  /\ getClaimableAmount Scenario.aliceStreaming 0 Scenario.aliceStream = Ok 0.
Proof.
  cbv zeta.
  assert (Hopens : forall recipient totalAmount duration : N,
            let create :=
              createStreamingPayment Scenario.router simHash (emptyRouter Scenario.funded)
                Scenario.alice 0 recipient totalAmount duration in
            (recipient = 0 -> create = Fail (Error "Invalid recipient"))
            /\ (recipient <> 0 -> totalAmount = 0 ->
                create = Fail (Error "Amount must be positive"))
            /\ (recipient <> 0 -> totalAmount <> 0 -> duration = 0 ->
                create = Fail (Error "Duration must be positive"))
            /\ (forall (paymentId : N) (s' : Router.t Sim.t),
                  create = Ok (paymentId, s') ->
                  claimStreamingPayment Scenario.router s' recipient 0 paymentId
                  = Fail (Error "Nothing to claim")
                  /\ getClaimableAmount s' 0 paymentId = Ok 0)).
  { intros recipient totalAmount duration.
    pose proof (createStreamingPayment_opens_stream Scenario.router simHash
                  (emptyRouter Scenario.funded) Scenario.alice 0 recipient totalAmount
                  duration) as H.
    cbv zeta in H |- *. destruct H as (H1 & H2 & H3 & H4).
    split; [exact H1 |]. split; [exact H2 |]. split; [exact H3 |].
    intros paymentId s' Hcreate.
    destruct (H4 paymentId s' Hcreate) as (_ & _ & _ & _ & Hclaim & Hview).
    split; assumption. }
  cbv zeta in Hopens.
  assert (Hcreate : createStreamingPayment Scenario.router simHash
                      (emptyRouter Scenario.funded) Scenario.alice 0 Scenario.bob 1000 100
                    = Ok (Scenario.aliceStream, Scenario.aliceStreaming))
    by (vm_compute; reflexivity).
  split; [apply (Hopens 0 1000 100); reflexivity |].
  split; [apply (Hopens Scenario.bob 0 100); [discriminate | reflexivity] |].
  split; [apply (Hopens Scenario.bob 1000 0); [discriminate | discriminate | reflexivity] |].
  split; [exact Hcreate |].
  split; [vm_compute; reflexivity |].
  apply (Hopens Scenario.bob 1000 100). exact Hcreate.
Defined.

(** Carol, who does not own the registry, can neither set the fee nor
    withdraw; Dave can raise the fee to 10% and no further. *)
Lemma platformFeeRate_owner_only_witness :
  setPlatformFeeRate Scenario.withAgent Scenario.carol 0 = Fail Revert
  /\ withdrawFees Scenario.registry Scenario.withAgent Scenario.carol Scenario.carol
     = Fail Revert
  /\ setPlatformFeeRate Scenario.withAgent Scenario.dave 1001
     = Fail (Error "Fee too high")
  /\ setPlatformFeeRate Scenario.withAgent Scenario.dave 1000 = Ok Scenario.feeAtMax
  /\ Registry.platformFeeRate Scenario.feeAtMax = 1000.
Proof.
  destruct (platformFeeRate_owner_only Scenario.registry simHash Scenario.withAgent
              Scenario.carol 8) as [Hcarol _].
  destruct Hcarol as (Hset & Hwithdraw & _); [vm_compute; discriminate |].
  destruct (platformFeeRate_owner_only Scenario.registry simHash Scenario.withAgent
              Scenario.dave 8) as [_ Hdave].
  destruct (Hdave eq_refl 1001) as [Hhigh _].
  destruct (Hdave eq_refl 1000) as [_ Hmax].
  destruct Hmax as (s' & Hraised & Hrate); [closed_le |].
  assert (Hrun : setPlatformFeeRate Scenario.withAgent Scenario.dave 1000
                 = Ok Scenario.feeAtMax) by (vm_compute; reflexivity).
  split; [exact (Hset 0) |]. split; [exact (Hwithdraw Scenario.carol) |].
  split; [apply Hhigh; reflexivity |].
  split; [exact Hrun |].
  rewrite Hrun in Hraised. injection Hraised as <-. exact Hrate.
Defined.
